(** * Breakout-room client: event projection and reconciling facade

    A shallow embedding of the real-time breakout-room client:

    - [Socket]: the hook [useFlagshipBreakoutSocket] -- the deduplicating
      reducer [processEvent], [clearCache], the room operations and the
      derived [currentRoom];
    - [Service]: the class [FlagshipBreakoutService] -- [createBreakoutRoom]
      with its validation, acknowledgment wait and REST fallback chain
      ([createRoomViaAPI], [pollForRoomByName], [getBreakoutRooms]).

    JavaScript strings are modelled as [string], JavaScript numbers that
    hold counts as [Z], a [Map] used as a dictionary as [gmap], and the
    [Map] whose insertion order the code relies on as the list of its keys. *)

From stdpp Require Import gmap strings list fin_maps pretty.
From Stdlib Require Import ZArith Ascii.

Open Scope Z_scope.

(** ** JavaScript truthiness, for the types the code tests *)
Module Js.

(** A string is falsy exactly when it is empty. *)
Definition truthy (s : string) : bool := bool_decide (s ≠ "").

(** An optional string ([string | undefined | null]). *)
Definition truthy_opt (o : option string) : bool :=
  match o with
  | Some s => truthy s
  | None => false
  end.

(** [a || b] on optional strings. *)
Definition or_str (o : option string) (d : string) : string :=
  match o with
  | Some s => if truthy s then s else d
  | None => d
  end.

(** [a || b] where [a] is an optional count: [undefined] and [0] are
    both falsy. *)
Definition or_num (o : option Z) (d : Z) : Z :=
  match o with
  | Some n => if bool_decide (n = 0) then d else n
  | None => d
  end.

(** [a || b] where [a] is an optional object or array: only
    [undefined] is falsy (an empty array is truthy). *)
Definition or_obj {A} (o : option A) (d : A) : A :=
  match o with
  | Some a => a
  | None => d
  end.

End Js.

(** ** A [Map] whose insertion order is observed

    [eventHandlers] is a [Map<string, Function>]; only its keys matter
    (every value is [() => {}]).  [Array.from(m.keys())] lists the keys
    in insertion order, so the map is the list of its keys, oldest
    first. *)
Module KeyMap.

Abbreviation t := (list string).

Definition has (k : string) (m : t) : bool := bool_decide (k ∈ m).

(** [m.set(k, v)]: a present key keeps its position, a new one goes
    last. *)
Definition set (k : string) (m : t) : t :=
  if has k m then m else m ++ [k].

Definition delete (k : string) (m : t) : t :=
  filter (λ k', k' ≠ k) m.

Definition size (m : t) : nat := length m.

(** [keys.forEach(key => m.delete(key))] *)
Definition delete_all (ks : list string) (m : t) : t :=
  foldl (λ acc k, delete k acc) m ks.

Definition clear (m : t) : t := [].

End KeyMap.

(** ** The hook [useFlagshipBreakoutSocket] *)
Module Socket.

Inductive EventType :=
| room_created | room_updated | room_deleted
| participant_joined | participant_left | participant_updated
| message_received | moderation_action | auto_assignment_completed
| recording_status_changed | room_status_changed.

(** The string a template literal prints for [event.type]. *)
Definition type_name (t : EventType) : string :=
  match t with
  | room_created => "room_created"
  | room_updated => "room_updated"
  | room_deleted => "room_deleted"
  | participant_joined => "participant_joined"
  | participant_left => "participant_left"
  | participant_updated => "participant_updated"
  | message_received => "message_received"
  | moderation_action => "moderation_action"
  | auto_assignment_completed => "auto_assignment_completed"
  | recording_status_changed => "recording_status_changed"
  | room_status_changed => "room_status_changed"
  end.

Inductive Role := role_participant | role_facilitator | role_observer.
Inductive RoomStatus := waiting | active | paused | ended.
Inductive ConnectionStatus := connected | connecting | disconnected | error.

#[global] Instance ConnectionStatus_eq_dec : EqDecision ConnectionStatus.
Proof. solve_decision. Defined.

(** An element of [BreakoutRoom.participants]. *)
Record RosterEntry := {
  re_id : string;
  re_alias : string;
  re_avatarIndex : Z;
  re_isConnected : bool;
  re_isMuted : bool;
  re_isVideoOn : bool;
  re_joinedAt : string;
  re_role : Role
}.

(** [BreakoutRoom] of flagshipBreakoutBackend.ts; the nested
    [settings], [metrics] and [timestamps] objects, which the hook
    never reads, are left out. *)
Record BreakoutRoom := {
  id : string;
  name : string;
  topic : option string;
  facilitatorId : string;
  room_sessionId : string;
  participants : list RosterEntry;
  maxParticipants : Z;
  currentParticipants : Z;
  status : RoomStatus;
  isPrivate : bool;
  requiresApproval : bool;
  tags : list string;
  canJoin : bool
}.

(** [{ ...room, currentParticipants: c, participants: ps }] *)
Definition with_occupancy (room : BreakoutRoom) (c : Z) (ps : list RosterEntry)
  : BreakoutRoom :=
  {| id := id room; name := name room; topic := topic room;
     facilitatorId := facilitatorId room; room_sessionId := room_sessionId room;
     participants := ps; maxParticipants := maxParticipants room;
     currentParticipants := c; status := status room;
     isPrivate := isPrivate room; requiresApproval := requiresApproval room;
     tags := tags room; canJoin := canJoin room |}.

(** [{ ...room, status: s }] *)
Definition with_status (room : BreakoutRoom) (s : RoomStatus) : BreakoutRoom :=
  {| id := id room; name := name room; topic := topic room;
     facilitatorId := facilitatorId room; room_sessionId := room_sessionId room;
     participants := participants room; maxParticipants := maxParticipants room;
     currentParticipants := currentParticipants room; status := s;
     isPrivate := isPrivate room; requiresApproval := requiresApproval room;
     tags := tags room; canJoin := canJoin room |}.

Inductive ParticipantStatus := ps_joining | ps_connected | ps_disconnected | ps_kicked.

(** [BreakoutParticipant]; the nested audio, video and network
    objects are left out. *)
Record BreakoutParticipant := {
  p_id : string;
  p_alias : string;
  p_avatarIndex : Z;
  p_role : Role;
  p_permissions : list string;
  p_status : ParticipantStatus;
  p_joinedAt : string;
  p_lastActivity : string
}.

(** An element of [event.data.assignments]. *)
Record Assignment := {
  a_roomId : string;
  a_participant : option BreakoutParticipant
}.

(** [event.data] is [any]; these are the properties the reducer reads,
    each absent ([None]) or present. *)
Record EventData := {
  d_room : option BreakoutRoom;
  d_participant : option BreakoutParticipant;
  d_participantCount : option Z;
  d_participants : option (list RosterEntry);
  d_assignments : option (list Assignment);
  d_status : option RoomStatus
}.

Record SocketBreakoutEvent := {
  type : EventType;
  sessionId : string;
  roomId : option string;
  participantId : option string;
  data : EventData;
  timestamp : string
}.

Record RealtimeBreakoutState := {
  rooms : gmap string BreakoutRoom;
  st_participants : gmap string BreakoutParticipant;
  currentRoom : option string;
  lastUpdate : string;
  connectionStatus : ConnectionStatus;
  messageQueue : list SocketBreakoutEvent
}.

Record Metrics := {
  eventsReceived : Z;
  eventsSent : Z;
  reconnectCount : Z;
  averageLatency : Z;
  lastEventTime : option string
}.

(** Everything the hook keeps between renders: the [useState] cells
    and the refs. *)
Record Hook := {
  state : RealtimeBreakoutState;
  metrics : Metrics;
  eventHandlers : KeyMap.t;
  eventBuffer : list SocketBreakoutEvent
}.

Definition set_state (f : RealtimeBreakoutState → RealtimeBreakoutState) (h : Hook) : Hook :=
  {| state := f (state h); metrics := metrics h;
     eventHandlers := eventHandlers h; eventBuffer := eventBuffer h |}.

(** The [useState] initialisers and fresh refs; [now] is
    [new Date().toISOString()] at mount. *)
Definition initial_state (now : string) : RealtimeBreakoutState :=
  {| rooms := ∅; st_participants := ∅; currentRoom := None;
     lastUpdate := now; connectionStatus := disconnected; messageQueue := [] |}.

Definition initial_metrics : Metrics :=
  {| eventsReceived := 0; eventsSent := 0; reconnectCount := 0;
     averageLatency := 0; lastEventTime := None |}.

Definition initial (now : string) : Hook :=
  {| state := initial_state now; metrics := initial_metrics;
     eventHandlers := []; eventBuffer := [] |}.

(** *** The reducer *)

(** [`${event.type}_${event.roomId || 'global'}_${event.timestamp}`] *)
Definition eventKey (e : SocketBreakoutEvent) : string :=
  type_name (type e) +:+ "_" +:+ Js.or_str (roomId e) "global" +:+ "_" +:+ timestamp e.

Definition set_rooms (r : gmap string BreakoutRoom) (s : RealtimeBreakoutState) :=
  {| rooms := r; st_participants := st_participants s; currentRoom := currentRoom s;
     lastUpdate := lastUpdate s; connectionStatus := connectionStatus s;
     messageQueue := messageQueue s |}.

Definition set_participants (p : gmap string BreakoutParticipant) (s : RealtimeBreakoutState) :=
  {| rooms := rooms s; st_participants := p; currentRoom := currentRoom s;
     lastUpdate := lastUpdate s; connectionStatus := connectionStatus s;
     messageQueue := messageQueue s |}.

Definition set_currentRoom (c : option string) (s : RealtimeBreakoutState) :=
  {| rooms := rooms s; st_participants := st_participants s; currentRoom := c;
     lastUpdate := lastUpdate s; connectionStatus := connectionStatus s;
     messageQueue := messageQueue s |}.

Definition set_lastUpdate (t : string) (s : RealtimeBreakoutState) :=
  {| rooms := rooms s; st_participants := st_participants s; currentRoom := currentRoom s;
     lastUpdate := t; connectionStatus := connectionStatus s;
     messageQueue := messageQueue s |}.

Definition set_connectionStatus (c : ConnectionStatus) (s : RealtimeBreakoutState) :=
  {| rooms := rooms s; st_participants := st_participants s; currentRoom := currentRoom s;
     lastUpdate := lastUpdate s; connectionStatus := c;
     messageQueue := messageQueue s |}.

(** One iteration of the [forEach] over [event.data.assignments]. *)
Definition assign_one (s : RealtimeBreakoutState) (a : Assignment) : RealtimeBreakoutState :=
  match rooms s !! a_roomId a, a_participant a with
  | Some _, Some p => set_participants (<[p_id p := p]> (st_participants s)) s
  | _, _ => s
  end.

(** The [switch (event.type)] inside the [setState] updater. *)
Definition fold_event (e : SocketBreakoutEvent) (s : RealtimeBreakoutState)
  : RealtimeBreakoutState :=
  match type e with
  | room_created | room_updated =>
      match d_room (data e) with
      | Some room => set_rooms (<[id room := room]> (rooms s)) s
      | None => s
      end
  | room_deleted =>
      match roomId e with
      | Some rid =>
          if Js.truthy rid then
            let s1 := set_rooms (delete rid (rooms s)) s in
            if bool_decide (currentRoom s1 = Some rid)
            then set_currentRoom None s1 else s1
          else s
      | None => s
      end
  | participant_joined | participant_updated =>
      match d_participant (data e), roomId e with
      | Some p, Some rid =>
          if Js.truthy rid then
            let s1 := set_participants (<[p_id p := p]> (st_participants s)) s in
            match rooms s1 !! rid with
            | Some room =>
                let updatedRoom :=
                  with_occupancy room
                    (Js.or_num (d_participantCount (data e)) (currentParticipants room))
                    (Js.or_obj (d_participants (data e)) (participants room)) in
                set_rooms (<[rid := updatedRoom]> (rooms s1)) s1
            | None => s1
            end
          else s
      | _, _ => s
      end
  | participant_left =>
      match participantId e, roomId e with
      | Some pid, Some rid =>
          if Js.truthy pid && Js.truthy rid then
            let s1 := set_participants (delete pid (st_participants s)) s in
            match rooms s1 !! rid with
            | Some room =>
                let updatedRoom :=
                  with_occupancy room
                    (Z.max 0 (currentParticipants room - 1))
                    (filter (λ p, re_id p ≠ pid) (participants room)) in
                set_rooms (<[rid := updatedRoom]> (rooms s1)) s1
            | None => s1
            end
          else s
      | _, _ => s
      end
  | auto_assignment_completed =>
      match d_assignments (data e) with
      | Some assignments => foldl assign_one s assignments
      | None => s
      end
  | room_status_changed =>
      match roomId e, d_status (data e) with
      | Some rid, Some st =>
          if Js.truthy rid then
            match rooms s !! rid with
            | Some room => set_rooms (<[rid := with_status room st]> (rooms s)) s
            | None => s
            end
          else s
      | _, _ => s
      end
  | message_received | moderation_action | recording_status_changed => s
  end.

(** The whole [setState] updater: the switch, then
    [newState.lastUpdate = event.timestamp].  The updater copies the
    state object and writes into the two maps it shares with the previous
    state; it runs once per event, and the previous state is not read
    again, so passing the state along is the same. *)
Definition reduce (e : SocketBreakoutEvent) (s : RealtimeBreakoutState)
  : RealtimeBreakoutState :=
  set_lastUpdate (timestamp e) (fold_event e s).

(** The cap on the deduplication memory and the number of oldest keys
    evicted when it is exceeded. *)
Definition dedup_cap : nat := 1000.
Definition dedup_evict : nat := 500.

(** [eventHandlers.current.set(eventKey, ...)] followed by the
    clean-up of old keys. *)
Definition remember (k : string) (m : KeyMap.t) : KeyMap.t :=
  let m1 := KeyMap.set k m in
  if bool_decide (dedup_cap < KeyMap.size m1)%nat
  then KeyMap.delete_all (take dedup_evict m1) m1
  else m1.

Definition count_received (e : SocketBreakoutEvent) (m : Metrics) : Metrics :=
  {| eventsReceived := eventsReceived m + 1; eventsSent := eventsSent m;
     reconnectCount := reconnectCount m; averageLatency := averageLatency m;
     lastEventTime := Some (timestamp e) |}.

Definition count_sent (m : Metrics) : Metrics :=
  {| eventsReceived := eventsReceived m; eventsSent := eventsSent m + 1;
     reconnectCount := reconnectCount m; averageLatency := averageLatency m;
     lastEventTime := lastEventTime m |}.

(** An argument typed [any] that is only passed through to the
    transport, as its JSON text. *)
Abbreviation Any := string.

(** What [enhancedSocketService.emit(name, payload)] is called with. *)
Inductive Outbound :=
| create_breakout_room (sessionId : string) (roomConfig : Any) (timestamp : string)
| join_breakout_room (sessionId roomId : string) (participantData : Any) (timestamp : string)
| leave_breakout_room (sessionId roomId : string) (timestamp : string)
| send_breakout_message (sessionId roomId : string) (message : Any) (timestamp : string)
| update_breakout_room (sessionId roomId : string) (updates : Any)
| delete_breakout_room (sessionId roomId : string)
| update_breakout_participant (sessionId roomId participantId : string) (updates : Any)
| moderate_breakout_participant (sessionId roomId : string) (action : Any)
| send_breakout_reaction (sessionId roomId : string) (reaction : Any).

(** How an operation's promise settles: rejected with an [Error], or
    resolved after these emits, leaving this hook. *)
Inductive Outcome :=
| Threw (message : string)
| Resolved (h : Hook) (sent : list Outbound).

Section WithOptions.

(** The hook's options that the modelled code reads. *)
Variable hook_sessionId : string.
Variable enableAnalytics : bool.

Definition processEvent (e : SocketBreakoutEvent) (h : Hook) : Hook :=
  if KeyMap.has (eventKey e) (eventHandlers h) then h
  else
    {| state := reduce e (state h);
       metrics := if enableAnalytics then count_received e (metrics h) else metrics h;
       eventHandlers := remember (eventKey e) (eventHandlers h);
       eventBuffer := eventBuffer h |}.

(** Feeding a sequence of events, in arrival order. *)
Definition processEvents (es : list SocketBreakoutEvent) (h : Hook) : Hook :=
  foldl (λ acc e, processEvent e acc) h es.

Definition clearCache (h : Hook) : Hook :=
  {| state :=
       {| rooms := ∅; st_participants := ∅;
          currentRoom := currentRoom (state h); lastUpdate := lastUpdate (state h);
          connectionStatus := connectionStatus (state h); messageQueue := [] |};
     metrics := metrics h;
     eventHandlers := KeyMap.clear (eventHandlers h);
     eventBuffer := [] |}.

(** *** Outbound operations

    The guarded operations are [useCallback]s whose dependency list
    is [sessionId, enableAnalytics]: the [state] they test is the one
    of the render that created the callback.  [captured] is that
    render's [state.connectionStatus]. *)

Definition sent_one (h : Hook) : Hook :=
  {| state := state h;
     metrics := if enableAnalytics then count_sent (metrics h) else metrics h;
     eventHandlers := eventHandlers h; eventBuffer := eventBuffer h |}.

Definition not_connected : string := "Socket not connected".

Definition createRoom (captured : ConnectionStatus) (config : Any) (now : string)
    (h : Hook) : Outcome :=
  if bool_decide (captured ≠ connected) then Threw not_connected
  else Resolved (sent_one h) [create_breakout_room hook_sessionId config now].

Definition joinRoom (captured : ConnectionStatus) (rid : string)
    (participantData : Any) (now : string) (h : Hook) : Outcome :=
  if bool_decide (captured ≠ connected) then Threw not_connected
  else Resolved (sent_one (set_state (set_currentRoom (Some rid)) h))
                [join_breakout_room hook_sessionId rid participantData now].

Definition leaveRoom (captured : ConnectionStatus) (rid : string) (now : string)
    (h : Hook) : Outcome :=
  if bool_decide (captured ≠ connected) then Threw not_connected
  else Resolved
         (sent_one
            (set_state
               (λ prev, set_currentRoom
                          (if bool_decide (currentRoom prev = Some rid)
                           then None else currentRoom prev) prev) h))
         [leave_breakout_room hook_sessionId rid now].

Definition sendMessage (captured : ConnectionStatus) (rid : string) (message : Any)
    (now : string) (h : Hook) : Outcome :=
  if bool_decide (captured ≠ connected) then Threw not_connected
  else Resolved (sent_one h) [send_breakout_message hook_sessionId rid message now].

(** The operations written inline in the returned object: a bare
    [emit], whatever the connection status. *)
Definition updateRoom (rid : string) (updates : Any) (h : Hook) : Outcome :=
  Resolved h [update_breakout_room hook_sessionId rid updates].

Definition deleteRoom (rid : string) (h : Hook) : Outcome :=
  Resolved h [delete_breakout_room hook_sessionId rid].

Definition updateParticipant (rid pid : string) (updates : Any) (h : Hook) : Outcome :=
  Resolved h [update_breakout_participant hook_sessionId rid pid updates].

Definition moderateParticipant (rid : string) (action : Any) (h : Hook) : Outcome :=
  Resolved h [moderate_breakout_participant hook_sessionId rid action].

Definition sendReaction (rid : string) (reaction : Any) (h : Hook) : Outcome :=
  Resolved h [send_breakout_reaction hook_sessionId rid reaction].

(** The hooks a mounted component can hold: the initial one, and
    what the reducer, [clearCache], a [setState] of the operations
    and the sent-counter make of it. *)
Inductive reachable : Hook → Prop :=
| reach_initial now : reachable (initial now)
| reach_event e h : reachable h → reachable (processEvent e h)
| reach_clear h : reachable h → reachable (clearCache h)
| reach_setState f h : reachable h → reachable (set_state f h)
| reach_sent h : reachable h → reachable (sent_one h).

End WithOptions.

(** The invariant of the deduplication memory: no key twice, and no
    more keys than the cap. *)
Definition bounded (h : Hook) : Prop :=
  NoDup (eventHandlers h) ∧ (length (eventHandlers h) ≤ dedup_cap)%nat.

(** Two hooks that differ at most in the current-room pointer, the
    last-update timestamp, the metrics and the event buffer. *)
Definition same_core (h1 h2 : Hook) : Prop :=
  eventHandlers h1 = eventHandlers h2 ∧
  rooms (state h1) = rooms (state h2) ∧
  st_participants (state h1) = st_participants (state h2) ∧
  connectionStatus (state h1) = connectionStatus (state h2) ∧
  messageQueue (state h1) = messageQueue (state h2).

(** *** Derived state

    [state.currentRoom ? state.rooms.get(state.currentRoom) || null : null];
    a room is an object, so [|| null] only turns [undefined] into
    [null]. *)
Definition returned_currentRoom (s : RealtimeBreakoutState) : option BreakoutRoom :=
  match currentRoom s with
  | Some rid => if Js.truthy rid then rooms s !! rid else None
  | None => None
  end.

End Socket.

(** ** The string functions the service calls *)
Module Str.

(** Characters are 8-bit code units.  The white space and line
    terminators that [String.prototype.trim] strips, among them:
    TAB, LF, VT, FF, CR, SPACE and NBSP. *)
Definition is_space (a : ascii) : bool :=
  let n := nat_of_ascii a in
  bool_decide (n = 9 ∨ n = 10 ∨ n = 11 ∨ n = 12 ∨ n = 13 ∨ n = 32 ∨ n = 160)%nat.

Fixpoint trim_start (s : string) : string :=
  match s with
  | String a s' => if is_space a then trim_start s' else s
  | EmptyString => EmptyString
  end.

Definition trim (s : string) : string :=
  String.rev (trim_start (String.rev (trim_start s))).

(** Case folding of the [i] flag, on the letters A-Z. *)
Definition fold_case (a : ascii) : ascii :=
  let n := nat_of_ascii a in
  if bool_decide (65 ≤ n ≤ 90)%nat then ascii_of_nat (n + 32) else a.

(** Does [s] start with [p], ignoring case?  [p] is given folded. *)
Fixpoint starts_with_ci (p s : string) : bool :=
  match p, s with
  | EmptyString, _ => true
  | String _ _, EmptyString => false
  | String a p', String b s' =>
      bool_decide (a = fold_case b) && starts_with_ci p' s'
  end.

Fixpoint includes_ci (p s : string) : bool :=
  starts_with_ci p s ||
  match s with
  | String _ s' => includes_ci p s'
  | EmptyString => false
  end.

(** [/404|Not Found/i.test(s)] *)
Definition test_404 (s : string) : bool :=
  includes_ci "404" s || includes_ci "not found" s.

End Str.

(** ** The class [FlagshipBreakoutService] *)
Module Service.

Inductive RoomStatus := active | waiting | ended.

(** [BreakoutRoom] as this file declares it; the roster and the
    settings object, which the modelled methods never read, are left
    out. *)
Record BreakoutRoom := {
  id : string;
  name : string;
  topic : option string;
  facilitatorId : string;
  facilitatorAlias : string;
  maxParticipants : Z;
  status : RoomStatus;
  createdAt : string;
  agoraChannelName : string
}.

Record CreateRoomConfig := {
  cfg_name : string;
  cfg_topic : option string;
  cfg_maxParticipants : Z;
  cfg_duration : Z;
  cfg_facilitatorId : string;
  allowTextChat : bool;
  allowVoiceChat : bool;
  allowScreenShare : bool;
  moderationEnabled : bool;
  recordingEnabled : bool;
  autoClose : bool;
  autoCloseAfterMinutes : Z
}.

(** [{ success, room?, error? }] *)
Record CreateResult := {
  success : bool;
  room : option BreakoutRoom;
  error : option string
}.

(** [{ success, rooms?, error? }] *)
Record ListResult := {
  l_success : bool;
  l_rooms : option (list BreakoutRoom);
  l_error : option string
}.

Definition succeeded (r : option BreakoutRoom) : CreateResult :=
  {| success := true; room := r; error := None |}.

Definition failed (msg : string) : CreateResult :=
  {| success := false; room := None; error := Some msg |}.

Record ConnectionMetrics := {
  roomsCreated : Z;
  roomsJoined : Z;
  messagesExchanged : Z;
  lastActivity : option string
}.

(** The instance's mutable fields. *)
Record Svc := {
  roomCache : gmap string BreakoutRoom;
  connectionMetrics : ConnectionMetrics
}.

Definition cache_set (r : BreakoutRoom) (s : Svc) : Svc :=
  {| roomCache := <[id r := r]> (roomCache s); connectionMetrics := connectionMetrics s |}.

Definition created_now (now : string) (s : Svc) : Svc :=
  {| roomCache := roomCache s;
     connectionMetrics :=
       {| roomsCreated := roomsCreated (connectionMetrics s) + 1;
          roomsJoined := roomsJoined (connectionMetrics s);
          messagesExchanged := messagesExchanged (connectionMetrics s);
          lastActivity := Some now |} |}.

(** *** The outside world *)

(** A message the transport delivers on one of the two channels the
    acknowledgment wait listens to. *)
Inductive Inbound :=
| breakout_room_created (data_sessionId : option string) (data_room : option BreakoutRoom)
| breakout_room_create_error (message : option string).

(** What an HTTP [fetch] of a room or a room list gives: a rejected
    promise, or a response with its decoded body. *)
Inductive Fetched (A : Type) :=
| Rejected (message : string)
| Response (ok : bool) (status : Z) (statusText : string) (body : A).
Arguments Rejected {A}.
Arguments Response {A}.

(** Everything [createBreakoutRoom] reads from its collaborators,
    none of which is part of this class.  A collaborator is taken to
    answer; only the two [fetch] calls the class makes itself can also
    reject. *)
Record World := {
  (** [validateSessionPermissions(sessionId, 'create_breakout_rooms')] *)
  permission_valid : bool;
  permission_error : option string;
  (** [enhancedSocketService.connected] *)
  socket_connected : bool;
  (** the deliveries that follow the create request, in the order the
      event loop dispatches them, each with the milliseconds elapsed
      since the timer was armed *)
  inbound : list (Z * Inbound);
  (** [getCurrentAuthToken()], [isTokenValid(token)] *)
  authToken : option string;
  tokenValid : bool;
  (** [flagshipBreakoutBackend.createBreakoutRoom] *)
  backendRes : CreateResult;
  (** [FlagshipSanctuaryApi.createBreakoutRoom], with [room] the value
      of [res.room || res.data?.room || res.data] *)
  apiRes : CreateResult;
  (** the legacy POST, with the value of
      [data.data?.room || data.room || data] *)
  legacyResp : Fetched (option BreakoutRoom);
  (** the n-th GET of the room list, with the value of
      [data.data?.rooms || data.rooms || []] *)
  listResp : nat → Fetched (list BreakoutRoom);
  (** [new Date().toISOString()] *)
  clock : string
}.

(** *** Effects: what the class does to the outside world *)
Inductive Action :=
| FetchDebugPermissions (sessionId : string)
| ValidateSessionPermissions (sessionId : string)
| DebugBreakoutRoomPermissions (sessionId : string)
| SetTimeout (ms : Z)
| ClearTimeout
| SocketOn (event : string)
| SocketOff (event : string)
| SocketCreateBreakoutRoom (sessionId : string) (roomConfig : CreateRoomConfig)
| BackendCreate (sessionId name : string)
| ApiCreate (sessionId name : string)
| LegacyPost (sessionId name : string)
| ListRooms (sessionId : string)
| Sleep (ms : Z).

(** The requests that [createBreakoutRoom] and the methods it calls
    put on the network themselves, over HTTP or over the socket.  What
    the external [debugBreakoutRoomPermissions] does is not part of this
    class. *)
Definition is_own_request (a : Action) : bool :=
  match a with
  | FetchDebugPermissions _ | ValidateSessionPermissions _
  | SocketCreateBreakoutRoom _ _
  | BackendCreate _ _ | ApiCreate _ _ | LegacyPost _ _ | ListRooms _ => true
  | _ => false
  end.

(** The requests of the REST path. *)
Definition is_rest (a : Action) : bool :=
  match a with
  | BackendCreate _ _ | ApiCreate _ _ | LegacyPost _ _ | ListRooms _ => true
  | _ => false
  end.

(** How an [async] method settles. *)
Inductive Settled (A : Type) :=
| Returned (a : A)
| Thrown (message : string).
Arguments Returned {A}.
Arguments Thrown {A}.

(** A method: from the instance's fields to how it settles, the
    fields it leaves and the actions it took, oldest first. *)
Definition M (A : Type) : Type := Svc → Settled A * Svc * list Action.

Definition ret {A} (a : A) : M A := λ s, (Returned a, s, []).
Definition throw {A} (msg : string) : M A := λ s, (Thrown msg, s, []).
Definition act (a : Action) : M unit := λ s, (Returned tt, s, [a]).
Definition update (f : Svc → Svc) : M unit := λ s, (Returned tt, f s, []).

(** The actions [t1] came first. *)
Definition after {A} (t1 : list Action) (x : Settled A * Svc * list Action)
  : Settled A * Svc * list Action :=
  match x with (r, s2, t2) => (r, s2, t1 ++ t2) end.

Definition bind {A B} (m : M A) (k : A → M B) : M B :=
  λ s, match m s with
       | (Returned a, s1, t1) => after t1 (k a s1)
       | (Thrown msg, s1, t1) => (Thrown msg, s1, t1)
       end.

(** [try { m } catch (e) { handler(e.message) }] *)
Definition try_catch {A} (m : M A) (handler : string → M A) : M A :=
  λ s, match m s with
       | (Returned a, s1, t1) => (Returned a, s1, t1)
       | (Thrown msg, s1, t1) => after t1 (handler msg s1)
       end.

Notation "x <~ m ;; k" := (bind m (λ x, k))
  (at level 100, m at next level, right associativity).
Notation "m ;;; k" := (bind m (λ _, k))
  (at level 100, right associativity).

Definition result_of {A} (x : Settled A * Svc * list Action) : Settled A := x.1.1.
Definition fields_of {A} (x : Settled A * Svc * list Action) : Svc := x.1.2.
Definition trace_of {A} (x : Settled A * Svc * list Action) : list Action := x.2.

(** *** The methods *)

Definition http_error (status : Z) (statusText : string) : string :=
  "HTTP " +:+ pretty status +:+ ": " +:+ statusText.

(** [getBreakoutRooms]; [n] counts the list requests made so far. *)
Definition getBreakoutRooms (w : World) (n : nat) (sessionId : string) : M ListResult :=
  try_catch
    (if Js.truthy_opt (authToken w) && tokenValid w then
       act (ListRooms sessionId) ;;;
       match listResp w n with
       | Rejected msg => throw msg
       | Response true _ _ rooms =>
           update (λ s, foldl (λ acc r, cache_set r acc) s rooms) ;;;
           ret {| l_success := true; l_rooms := Some rooms; l_error := None |}
       | Response false status statusText _ => throw (http_error status statusText)
       end
     else throw "No valid authentication token available")
    (λ msg, ret {| l_success := false; l_rooms := None; l_error := Some msg |}).

(** The body of the [for] loop of [pollForRoomByName], from attempt
    number [attempt], with [remaining] attempts left. *)
Fixpoint poll_from (w : World) (sessionId room_name : string) (intervalMs : Z)
    (attempt remaining : nat) : M (option BreakoutRoom) :=
  match remaining with
  | O => ret None
  | S remaining' =>
      found <~ try_catch
                 (resp <~ getBreakoutRooms w attempt sessionId ;;
                  ret (if l_success resp then
                         match l_rooms resp with
                         | Some rooms => List.find (λ r, bool_decide (name r = room_name)) rooms
                         | None => None
                         end
                       else None))
                 (λ _, ret None) ;;
      match found with
      | Some m => ret (Some m)
      | None =>
          act (Sleep intervalMs) ;;;
          poll_from w sessionId room_name intervalMs (S attempt) remaining'
      end
  end.

Definition pollForRoomByName (w : World) (sessionId room_name : string)
    (maxAttempts : nat) (intervalMs : Z) : M (option BreakoutRoom) :=
  poll_from w sessionId room_name intervalMs 0 maxAttempts.

(** [if (room?.id) this.roomCache.set(room.id, room)] *)
Definition cache_if_id (r : option BreakoutRoom) : M unit :=
  match r with
  | Some room => if Js.truthy (id room) then update (cache_set room) else ret tt
  | None => ret tt
  end.

(** The legacy route of [createRoomViaAPI], entered on a 404. *)
Definition legacy_create (w : World) (sessionId : string) (roomConfig : CreateRoomConfig)
  : M CreateResult :=
  act (LegacyPost sessionId (cfg_name roomConfig)) ;;;
  match legacyResp w with
  | Rejected msg => throw msg
  | Response true _ _ body => cache_if_id body ;;; ret (succeeded body)
  | Response false status statusText _ =>
      possiblyCreated <~ pollForRoomByName w sessionId (cfg_name roomConfig) 6 1000 ;;
      match possiblyCreated with
      | Some r => update (cache_set r) ;;; ret (succeeded (Some r))
      | None => throw (http_error status statusText)
      end
  end.

Definition createRoomViaAPI (w : World) (sessionId : string) (roomConfig : CreateRoomConfig)
  : M CreateResult :=
  if negb (Js.truthy_opt (authToken w)) then throw "No authentication token available"
  else if negb (tokenValid w) then throw "Authentication token is invalid or expired"
  else
    try_catch
      (act (BackendCreate sessionId (cfg_name roomConfig)) ;;;
       match success (backendRes w), room (backendRes w) with
       | true, Some r => update (cache_set r) ;;; ret (succeeded (Some r))
       | _, _ =>
           act (ApiCreate sessionId (cfg_name roomConfig)) ;;;
           if success (apiRes w) then
             cache_if_id (room (apiRes w)) ;;; ret (succeeded (room (apiRes w)))
           else
             match error (apiRes w) with
             | Some e =>
                 if Str.test_404 e then legacy_create w sessionId roomConfig
                 else throw (Js.or_str (Some e) "API returned failure creating room")
             | None => throw "API returned failure creating room"
             end
       end)
      (λ msg, throw msg).

(** The acknowledgment timeout of the socket path, in milliseconds. *)
Definition ack_timeout : Z := 8000.

Definition created_channel : string := "breakout_room_created".
Definition error_channel : string := "breakout_room_create_error".

(** [data?.sessionId === sessionId && data?.room?.name === roomConfig.name] *)
Definition matches (sessionId : string) (roomConfig : CreateRoomConfig)
    (data_sessionId : option string) (data_room : option BreakoutRoom) : bool :=
  bool_decide (data_sessionId = Some sessionId) &&
  bool_decide (name <$> data_room = Some (cfg_name roomConfig)).

Definition timed_out : string := "Timed out waiting for server acknowledgment".

Definition on_timeout : M CreateResult :=
  act (SocketOff created_channel) ;;;
  act (SocketOff error_channel) ;;;
  ret (failed timed_out).

Definition unlisten : M unit :=
  act ClearTimeout ;;;
  act (SocketOff created_channel) ;;;
  act (SocketOff error_channel).

(** The pending promise: [onCreated] and [onError] run on the
    deliveries that come before the timer, the timer's callback runs
    otherwise. *)
Fixpoint settle (sessionId : string) (roomConfig : CreateRoomConfig)
    (deliveries : list (Z * Inbound)) : M CreateResult :=
  match deliveries with
  | [] => on_timeout
  | (t, d) :: rest =>
      if bool_decide (ack_timeout ≤ t)%Z then on_timeout
      else
        match d with
        | breakout_room_created sid r =>
            if matches sessionId roomConfig sid r
            then unlisten ;;; ret (succeeded r)
            else settle sessionId roomConfig rest
        | breakout_room_create_error msg =>
            unlisten ;;; ret (failed (Js.or_str msg "Server reported creation error"))
        end
  end.

(** The promise executor, then the wait. *)
Definition awaitAck (w : World) (sessionId : string) (roomConfig : CreateRoomConfig)
  : M CreateResult :=
  act (SetTimeout ack_timeout) ;;;
  act (SocketOn created_channel) ;;;
  act (SocketOn error_channel) ;;;
  act (SocketCreateBreakoutRoom sessionId roomConfig) ;;;
  update (created_now (clock w)) ;;;
  settle sessionId roomConfig (inbound w).

Definition name_required : string := "Room name is required".
Definition out_of_range : string := "Max participants must be between 2 and 20".

(** The two checks at the head of [createBreakoutRoom]; [name] is
    declared a [string], so [?.] never short-circuits. *)
Definition validate (roomConfig : CreateRoomConfig) : M unit :=
  if negb (Js.truthy (Str.trim (cfg_name roomConfig))) then
    throw name_required
  else if bool_decide (cfg_maxParticipants roomConfig < 2)%Z
          || bool_decide (cfg_maxParticipants roomConfig > 20)%Z then
    throw out_of_range
  else ret tt.

(** The [try] block of [createBreakoutRoom]. *)
Definition createBreakoutRoom_try (w : World) (sessionId : string)
    (roomConfig : CreateRoomConfig) : M CreateResult :=
  validate roomConfig ;;;
  act (FetchDebugPermissions sessionId) ;;;
  act (ValidateSessionPermissions sessionId) ;;;
  if negb (permission_valid w) then
    act (DebugBreakoutRoomPermissions sessionId) ;;;
    ret (failed (Js.or_str (permission_error w)
                   "Insufficient permissions to create breakout rooms"))
  else if socket_connected w then
    result <~ awaitAck w sessionId roomConfig ;;
    if success result then ret (succeeded (room result))
    else createRoomViaAPI w sessionId roomConfig
  else createRoomViaAPI w sessionId roomConfig.

(** The [catch] block: the debug analysis, then the error result. *)
Definition createBreakoutRoom_catch (sessionId : string) (msg : string) : M CreateResult :=
  act (DebugBreakoutRoomPermissions sessionId) ;;;
  ret (failed msg).

Definition createBreakoutRoom (w : World) (sessionId : string)
    (roomConfig : CreateRoomConfig) : M CreateResult :=
  try_catch (createBreakoutRoom_try w sessionId roomConfig)
            (createBreakoutRoom_catch sessionId).

(** *** Vocabulary for the statements *)

(** A delivery that leaves the promise pending: it comes before the
    timer and is a [breakout_room_created] for another session or
    another room name. *)
Definition ignored (sessionId : string) (roomConfig : CreateRoomConfig)
    (d : Z * Inbound) : Prop :=
  (d.1 < ack_timeout)%Z ∧
  match d.2 with
  | breakout_room_created sid r => matches sessionId roomConfig sid r = false
  | breakout_room_create_error _ => False
  end.

(** The room called [room_name] in the answer to the n-th list
    request, if the request succeeds and lists one. *)
Definition found_at (w : World) (room_name : string) (n : nat) : option BreakoutRoom :=
  match listResp w n with
  | Response true _ _ rooms => List.find (λ r, bool_decide (name r = room_name)) rooms
  | _ => None
  end.

(** [k] rounds of the polling loop that found nothing. *)
Definition poll_trace (sessionId : string) (intervalMs : Z) (k : nat) : list Action :=
  concat (replicate k [ListRooms sessionId; Sleep intervalMs]).

(** What the socket path does before the promise settles. *)
Definition ack_opening (sessionId : string) (roomConfig : CreateRoomConfig) : list Action :=
  [SetTimeout ack_timeout; SocketOn created_channel; SocketOn error_channel;
   SocketCreateBreakoutRoom sessionId roomConfig].

(** What a handler that settles the promise does, and what the timer's
    callback does. *)
Definition ack_closing : list Action :=
  [ClearTimeout; SocketOff created_channel; SocketOff error_channel].

Definition timeout_closing : list Action :=
  [SocketOff created_channel; SocketOff error_channel].

(** What [createBreakoutRoom] does between validation and the socket
    path. *)
Definition preflight (sessionId : string) : list Action :=
  [FetchDebugPermissions sessionId; ValidateSessionPermissions sessionId].

End Service.

(** * Sample data

    Concrete rooms, events, hooks and worlds on which the statements
    below are instantiated. *)
Module Samples.

Definition alice_entry : Socket.RosterEntry :=
  {| Socket.re_id := "p1"; Socket.re_alias := "alice"; Socket.re_avatarIndex := 1;
     Socket.re_isConnected := true; Socket.re_isMuted := false;
     Socket.re_isVideoOn := false; Socket.re_joinedAt := "2024-01-01T00:00:00.000Z";
     Socket.re_role := Socket.role_participant |}.

Definition bob_entry : Socket.RosterEntry :=
  {| Socket.re_id := "p2"; Socket.re_alias := "bob"; Socket.re_avatarIndex := 2;
     Socket.re_isConnected := true; Socket.re_isMuted := true;
     Socket.re_isVideoOn := false; Socket.re_joinedAt := "2024-01-01T00:00:01.000Z";
     Socket.re_role := Socket.role_facilitator |}.

Definition alice : Socket.BreakoutParticipant :=
  {| Socket.p_id := "p1"; Socket.p_alias := "alice"; Socket.p_avatarIndex := 1;
     Socket.p_role := Socket.role_participant; Socket.p_permissions := [];
     Socket.p_status := Socket.ps_connected;
     Socket.p_joinedAt := "2024-01-01T00:00:00.000Z";
     Socket.p_lastActivity := "2024-01-01T00:00:05.000Z" |}.

(** A room with three occupants reported and two on its roster. *)
Definition lounge : Socket.BreakoutRoom :=
  {| Socket.id := "r1"; Socket.name := "Lounge"; Socket.topic := None;
     Socket.facilitatorId := "p2"; Socket.room_sessionId := "s1";
     Socket.participants := [alice_entry; bob_entry];
     Socket.maxParticipants := 6; Socket.currentParticipants := 3;
     Socket.status := Socket.active; Socket.isPrivate := false;
     Socket.requiresApproval := false; Socket.tags := []; Socket.canJoin := true |}.

Definition no_data : Socket.EventData :=
  {| Socket.d_room := None; Socket.d_participant := None;
     Socket.d_participantCount := None; Socket.d_participants := None;
     Socket.d_assignments := None; Socket.d_status := None |}.

Definition lounge_created : Socket.SocketBreakoutEvent :=
  {| Socket.type := Socket.room_created; Socket.sessionId := "s1";
     Socket.roomId := Some "r1"; Socket.participantId := None;
     Socket.data :=
       {| Socket.d_room := Some lounge; Socket.d_participant := None;
          Socket.d_participantCount := None; Socket.d_participants := None;
          Socket.d_assignments := None; Socket.d_status := None |};
     Socket.timestamp := "2024-01-01T00:00:10.000Z" |}.

Definition alice_left : Socket.SocketBreakoutEvent :=
  {| Socket.type := Socket.participant_left; Socket.sessionId := "s1";
     Socket.roomId := Some "r1"; Socket.participantId := Some "p1";
     Socket.data := no_data;
     Socket.timestamp := "2024-01-01T00:00:20.000Z" |}.

(** A participant update whose payload reports an occupancy of 0 and
    an empty roster. *)
Definition alice_updated_zero : Socket.SocketBreakoutEvent :=
  {| Socket.type := Socket.participant_updated; Socket.sessionId := "s1";
     Socket.roomId := Some "r1"; Socket.participantId := Some "p1";
     Socket.data :=
       {| Socket.d_room := None; Socket.d_participant := Some alice;
          Socket.d_participantCount := Some 0; Socket.d_participants := Some [];
          Socket.d_assignments := None; Socket.d_status := None |};
     Socket.timestamp := "2024-01-01T00:00:30.000Z" |}.

Definition mounted : Socket.Hook := Socket.initial "2024-01-01T00:00:00.000Z".

(** The mounted hook once it was told of the lounge. *)
Definition with_lounge : Socket.Hook := Socket.processEvent true lounge_created mounted.

(** The same hook after [joinRoom("r1", ...)] went through. *)
Definition in_lounge : Socket.Hook :=
  Socket.sent_one true (Socket.set_state (Socket.set_currentRoom (Some "r1")) with_lounge).

(** The n-th of a run of notifications, told apart by their
    timestamps alone. *)
Definition tick (n : nat) : Socket.SocketBreakoutEvent :=
  {| Socket.type := Socket.message_received; Socket.sessionId := "s1";
     Socket.roomId := None; Socket.participantId := None;
     Socket.data := no_data;
     Socket.timestamp := pretty n |}.

Definition ticks (n : nat) : list Socket.SocketBreakoutEvent := tick <$> seq 0 n.

Definition settings (room_name : string) (maxParticipants : Z) : Service.CreateRoomConfig :=
  {| Service.cfg_name := room_name; Service.cfg_topic := None;
     Service.cfg_maxParticipants := maxParticipants; Service.cfg_duration := 15;
     Service.cfg_facilitatorId := "p2";
     Service.allowTextChat := true; Service.allowVoiceChat := true;
     Service.allowScreenShare := false; Service.moderationEnabled := true;
     Service.recordingEnabled := false; Service.autoClose := true;
     Service.autoCloseAfterMinutes := 30 |}.

Definition served (room_name : string) : Service.BreakoutRoom :=
  {| Service.id := "r9"; Service.name := room_name; Service.topic := None;
     Service.facilitatorId := "p2"; Service.facilitatorAlias := "bob";
     Service.maxParticipants := 6; Service.status := Service.waiting;
     Service.createdAt := "2024-01-01T00:01:00.000Z";
     Service.agoraChannelName := "ch-r9" |}.

Definition fresh_service : Service.Svc :=
  {| Service.roomCache := ∅;
     Service.connectionMetrics :=
       {| Service.roomsCreated := 0; Service.roomsJoined := 0;
          Service.messagesExchanged := 0; Service.lastActivity := None |} |}.

(** A world with the socket up, a valid token, and a backend whose
    modern routes answer 404, whose legacy route answers 500, and whose
    room list shows the room from the third request on; [deliveries] is
    what the socket brings. *)
Definition flaky (deliveries : list (Z * Service.Inbound)) : Service.World :=
  {| Service.permission_valid := true; Service.permission_error := None;
     Service.socket_connected := true;
     Service.inbound := deliveries;
     Service.authToken := Some "token"; Service.tokenValid := true;
     Service.backendRes := Service.failed "HTTP 404: Not Found";
     Service.apiRes := Service.failed "Request failed with status code 404";
     Service.legacyResp := Service.Response false 500 "Internal Server Error" None;
     Service.listResp :=
       λ n, if bool_decide (n < 2)%nat
            then Service.Response true 200 "OK" []
            else Service.Response true 200 "OK" [served "Lounge"];
     Service.clock := "2024-01-01T00:00:59.000Z" |}.

(** The same world, but the session-permission check says no. *)
Definition denied : Service.World :=
  {| Service.permission_valid := false; Service.permission_error := None;
     Service.socket_connected := true;
     Service.inbound := [];
     Service.authToken := Some "token"; Service.tokenValid := true;
     Service.backendRes := Service.failed "HTTP 404: Not Found";
     Service.apiRes := Service.failed "Request failed with status code 404";
     Service.legacyResp := Service.Response false 500 "Internal Server Error" None;
     Service.listResp := λ _, Service.Response true 200 "OK" [];
     Service.clock := "2024-01-01T00:00:59.000Z" |}.

End Samples.

(** * The rest of the hook: connection management and metrics view *)
Module Conn.

Import Socket.

(** What the hook asks of [enhancedSocketService] outside the room
    operations, and the one pause it takes. *)
Inductive Transport :=
| socket_connect
| socket_disconnect
| emit_join_breakout_session (sessionId : string)
| emit_leave_breakout_session (sessionId : string)
| pause (ms : Z).

(** How [connect] and [reconnect] settle. *)
Inductive Settled :=
| Fulfilled (h : Hook) (did : list Transport)
| RejectedWith (message : string) (h : Hook) (did : list Transport).

Definition hook_of (r : Settled) : Hook :=
  match r with Fulfilled h _ | RejectedWith _ h _ => h end.

Definition did_of (r : Settled) : list Transport :=
  match r with Fulfilled _ t | RejectedWith _ _ t => t end.

(** The hook with its [isInitialized] ref. *)
Record Mounted := {
  hook : Hook;
  isInitialized : bool
}.

(** What [getRealtimeMetrics] returns. *)
Record RealtimeMetrics := {
  totalRooms : nat;
  totalParticipants : nat;
  activeConnections : Z;
  rm_averageLatency : Z;
  eventThroughput : Z
}.

(** [rooms.length] and [participants.length] are the sizes of the two
    maps, whose values the arrays list. *)
Definition getRealtimeMetrics (h : Hook) : RealtimeMetrics :=
  {| totalRooms := size (rooms (state h));
     totalParticipants := size (st_participants (state h));
     activeConnections :=
       if bool_decide (connectionStatus (state h) = connected) then 1 else 0;
     rm_averageLatency := averageLatency (metrics h);
     eventThroughput := eventsReceived (metrics h) |}.

(** What the hook has learnt from the event stream and from its own
    requests: the two maps, the pointer, the timestamp, the
    deduplication memory. *)
Definition learnt (h : Hook) :=
  (rooms (state h), st_participants (state h), currentRoom (state h),
   lastUpdate (state h), eventHandlers h).

Section WithSession.

Variable sessionId : string.

(** The imported service object is always there, so the early return
    is never taken; the listener list is built and not used. *)
Definition setupEventListeners (h : Hook) : Hook :=
  set_state (set_connectionStatus connected) h.

(** [answer] is how [enhancedSocketService.connect()] settles: [None]
    when it resolves, the error's message when it rejects. *)
Definition connect (answer : option string) (h : Hook) : Settled :=
  let h1 := set_state (set_connectionStatus connecting) h in
  match answer with
  | None =>
      Fulfilled (setupEventListeners h1)
                [socket_connect; emit_join_breakout_session sessionId]
  | Some msg =>
      RejectedWith msg (set_state (set_connectionStatus error) h1) [socket_connect]
  end.

(** [reconnectTimer] is never assigned, so its [clearTimeout] never
    runs. *)
Definition disconnect (h : Hook) : Hook * list Transport :=
  (set_state (set_connectionStatus disconnected) h,
   [emit_leave_breakout_session sessionId; socket_disconnect]).

Definition reconnect (answer : option string) (h : Hook) : Settled :=
  let '(h1, t1) := disconnect h in
  match connect answer h1 with
  | Fulfilled h2 t2 => Fulfilled h2 (t1 ++ [pause 1000] ++ t2)
  | RejectedWith msg h2 t2 => RejectedWith msg h2 (t1 ++ [pause 1000] ++ t2)
  end.

(** The body of the initialising effect; a rejected [connect] is
    logged and dropped. *)
Definition mount (answer : option string) (m : Mounted) : Mounted * list Transport :=
  if negb (isInitialized m) && Js.truthy sessionId then
    let r := connect answer (hook m) in
    ({| hook := hook_of r; isInitialized := true |}, did_of r)
  else (m, []).

End WithSession.

End Conn.

(** * What the service's methods keep and return *)
Module Laws.

Import Service.

(** Every cached room is filed under its own identifier. *)
Definition keyed (s : Svc) : Prop :=
  ∀ k r, roomCache s !! k = Some r → id r = k.

(** [m] keeps [I] on the instance's fields, however it settles, and
    what it returns is in [Q]. *)
Definition keeps {A} (I : Svc → Prop) (m : M A) (Q : A → Prop) : Prop :=
  ∀ s, I s → I (fields_of (m s)) ∧ ∀ a, result_of (m s) = Returned a → Q a.

Definition is_list_request (a : Action) : bool :=
  match a with ListRooms _ => true | _ => false end.

Definition is_sleep (a : Action) : bool :=
  match a with Sleep _ => true | _ => false end.

(** How many of the actions satisfy [f]. *)
Definition count (f : Action → bool) (t : list Action) : nat :=
  length (filter (λ a, f a = true) t).

(** Every action [m] takes is in [P]. *)
Definition emits {A} (P : Action → Prop) (m : M A) : Prop :=
  ∀ s, Forall P (trace_of (m s)).

(** The timer and the socket. *)
Definition is_socket_action (a : Action) : bool :=
  match a with
  | SetTimeout _ | ClearTimeout | SocketOn _ | SocketOff _
  | SocketCreateBreakoutRoom _ _ => true
  | _ => false
  end.

(** A result object as the service builds it: a failure carries an
    error text, a success carries none. *)
Definition well_formed (r : CreateResult) : Prop :=
  (success r = false → is_Some (error r) ∧ room r = None) ∧
  (success r = true → error r = None).

(** The characters of a string. *)
Fixpoint chars (s : string) : list ascii :=
  match s with
  | EmptyString => []
  | String a s' => a :: chars s'
  end.

End Laws.

(** * The rest of the service: join, leave, delete, auto-assign,
      listeners and the handlers installed by the constructor *)
Module Rest.

Import Service.

(** [s.split(sep)] for a one-character separator. *)
Fixpoint split (sep : ascii) (s : string) : list string :=
  match s with
  | EmptyString => [EmptyString]
  | String a s' =>
      if bool_decide (a = sep) then EmptyString :: split sep s'
      else match split sep s' with
           | seg :: segs => String a seg :: segs
           | [] => [String a EmptyString]
           end
  end.

(** A value that may be [undefined], as a template literal prints it. *)
Definition interpolate (o : option string) : string :=
  match o with
  | Some s => s
  | None => "undefined"
  end.

(** [roomId.split('_')[1]], as it appears in the URL. *)
Definition session_of (roomId : string) : string :=
  interpolate (split "_"%char roomId !! 1%nat).

Record ParticipantData := {
  alias : string;
  avatarIndex : Z
}.

(** What [fetch] is called with: the method, the URL, the token put in
    the three authorization headers, and the JSON body if any. *)
Record Request := {
  method : string;
  url : string;
  bearer : string;
  payload : option ParticipantData
}.

(** The parts of a decoded response body that the methods read:
    [data.data?.room || data.room], [data.data?.assignedCount] and
    [data.data?.totalRooms]. *)
Record Body := {
  b_room : option BreakoutRoom;
  b_assignedCount : option Z;
  b_totalRooms : option Z
}.

Record Browser := {
  localStorage : gmap string string;
  socket_up : bool;
  fetch : Request → Fetched Body;
  now : string
}.

Inductive Effect :=
| Fetch (r : Request)
| SocketJoinBreakoutRoom (roomId : string) (data : ParticipantData).

(** [{ success, error? }] *)
Record Ack := {
  ack_success : bool;
  ack_error : option string
}.

(** [{ success, assignedCount?, totalRooms?, error? }] *)
Record AssignResult := {
  as_success : bool;
  assignedCount : option Z;
  totalRooms : option Z;
  as_error : option string
}.

(** [a || b] on what [getItem] returns. *)
Definition or_item (a b : option string) : option string :=
  if Js.truthy_opt a then a else b.

(** [getItem('veilo-auth-token') || getItem('admin_token') || getItem('token')] *)
Definition storedToken (b : Browser) : option string :=
  or_item (localStorage b !! "veilo-auth-token")
    (or_item (localStorage b !! "admin_token") (localStorage b !! "token")).

Definition no_token : string := "No authentication token available".

(** None of the three keys holds a non-empty token. *)
Definition tokenless (b : Browser) : Prop :=
  Js.truthy_opt (localStorage b !! "veilo-auth-token") = false ∧
  Js.truthy_opt (localStorage b !! "admin_token") = false ∧
  Js.truthy_opt (localStorage b !! "token") = false.

Definition is_fetch (e : Effect) : bool :=
  match e with Fetch _ => true | SocketJoinBreakoutRoom _ _ => false end.

Definition base : string := "/api/flagship-sanctuary/".

Definition cache_delete (roomId : string) (s : Svc) : Svc :=
  {| roomCache := delete roomId (roomCache s); connectionMetrics := connectionMetrics s |}.

Definition joined_now (t : string) (s : Svc) : Svc :=
  {| roomCache := roomCache s;
     connectionMetrics :=
       {| roomsCreated := roomsCreated (connectionMetrics s);
          roomsJoined := roomsJoined (connectionMetrics s) + 1;
          messagesExchanged := messagesExchanged (connectionMetrics s);
          lastActivity := Some t |} |}.

Definition ack_failed (msg : string) : Ack :=
  {| ack_success := false; ack_error := Some msg |}.

Definition leave_request (sessionId roomId token : string) : Request :=
  {| method := "POST";
     url := base +:+ sessionId +:+ "/breakout-rooms/" +:+ roomId +:+ "/leave";
     bearer := token; payload := None |}.

Definition delete_request (sessionId roomId token : string) : Request :=
  {| method := "DELETE";
     url := base +:+ sessionId +:+ "/breakout-rooms/" +:+ roomId;
     bearer := token; payload := None |}.

Definition assign_request (sessionId token : string) : Request :=
  {| method := "POST";
     url := base +:+ sessionId +:+ "/breakout-rooms/auto-assign";
     bearer := token; payload := None |}.

Definition join_request (roomId token : string) (data : ParticipantData) : Request :=
  {| method := "POST";
     url := base +:+ session_of roomId +:+ "/breakout-rooms/" +:+ roomId +:+ "/join";
     bearer := token; payload := Some data |}.

(** The common shape of [leaveBreakoutRoom] and [deleteBreakoutRoom]:
    the token, one request, the room dropped from the cache on an ok
    answer; every error caught and turned into a result. *)
Definition drop_room (b : Browser) (req : string → Request) (roomId : string) (s : Svc)
  : Ack * Svc * list Effect :=
  match storedToken b with
  | Some token =>
      if Js.truthy token then
        match fetch b (req token) with
        | Rejected msg => (ack_failed msg, s, [Fetch (req token)])
        | Response true _ _ _ =>
            ({| ack_success := true; ack_error := None |}, cache_delete roomId s,
             [Fetch (req token)])
        | Response false status statusText _ =>
            (ack_failed (http_error status statusText), s, [Fetch (req token)])
        end
      else (ack_failed no_token, s, [])
  | None => (ack_failed no_token, s, [])
  end.

Definition leaveBreakoutRoom (b : Browser) (sessionId roomId : string) (s : Svc)
  : Ack * Svc * list Effect :=
  drop_room b (leave_request sessionId roomId) roomId s.

Definition deleteBreakoutRoom (b : Browser) (sessionId roomId : string) (s : Svc)
  : Ack * Svc * list Effect :=
  drop_room b (delete_request sessionId roomId) roomId s.

Definition assign_failed (msg : string) : AssignResult :=
  {| as_success := false; assignedCount := None; totalRooms := None;
     as_error := Some msg |}.

Definition autoAssignParticipants (b : Browser) (sessionId : string) (s : Svc)
  : AssignResult * Svc * list Effect :=
  match storedToken b with
  | Some token =>
      if Js.truthy token then
        let req := assign_request sessionId token in
        match fetch b req with
        | Rejected msg => (assign_failed msg, s, [Fetch req])
        | Response true _ _ body =>
            ({| as_success := true; assignedCount := b_assignedCount body;
                totalRooms := b_totalRooms body; as_error := None |}, s, [Fetch req])
        | Response false status statusText _ =>
            (assign_failed (http_error status statusText), s, [Fetch req])
        end
      else (assign_failed no_token, s, [])
  | None => (assign_failed no_token, s, [])
  end.

(** [joinRoomViaAPI]; a thrown error is [inl]. *)
Definition joinRoomViaAPI (b : Browser) (roomId : string) (data : ParticipantData) (s : Svc)
  : (string + CreateResult) * Svc * list Effect :=
  match storedToken b with
  | Some token =>
      if Js.truthy token then
        let req := join_request roomId token data in
        match fetch b req with
        | Rejected msg => (inl msg, s, [Fetch req])
        | Response true _ _ body =>
            (inr (succeeded (b_room body)),
             match b_room body with
             | Some room => cache_set room s
             | None => s
             end,
             [Fetch req])
        | Response false status statusText _ =>
            (inl (http_error status statusText), s, [Fetch req])
        end
      else (inl no_token, s, [])
  | None => (inl no_token, s, [])
  end.

Definition joinBreakoutRoom (b : Browser) (roomId : string) (data : ParticipantData) (s : Svc)
  : CreateResult * Svc * list Effect :=
  if socket_up b then
    (succeeded None, joined_now (now b) s, [SocketJoinBreakoutRoom roomId data])
  else
    match joinRoomViaAPI b roomId data s with
    | (inr r, s', t) => (r, s', t)
    | (inl msg, s', t) => (failed msg, s', t)
    end.

(** *** Listeners *)

(** A callback, by identity. *)
Abbreviation Callback := nat.

Inductive Wiring :=
| On (event : string) (cb : Callback)
| Off (event : string) (cb : Callback).

Definition addEventListener (event : string) (cb : Callback) (ls : gmap string Callback)
  : gmap string Callback * list Wiring :=
  (<[event := cb]> ls, [On event cb]).

Definition removeEventListener (event : string) (ls : gmap string Callback)
  : gmap string Callback * list Wiring :=
  match ls !! event with
  | Some cb => (delete event ls, [Off event cb])
  | None => (ls, [])
  end.

(** The callbacks still registered on the socket after a run of
    [on] and [off] calls, [off(event, cb)] removing that callback from
    that event. *)
Fixpoint registered (ws : list Wiring) (acc : list (string * Callback))
  : list (string * Callback) :=
  match ws with
  | [] => acc
  | On e cb :: ws' => registered ws' (acc ++ [(e, cb)])
  | Off e cb :: ws' => registered ws' (filter (λ x, x ≠ (e, cb)) acc)
  end.

(** *** The handlers of [setupEventListeners] *)

Inductive Incoming :=
| in_room_created (room : option BreakoutRoom)
| in_room_join_success (room : option BreakoutRoom)
| in_participant_joined (room : option BreakoutRoom)
| in_participant_left (room : option BreakoutRoom)
| in_room_closed (roomId : option string)
| in_room_create_error
| in_room_join_error.

Definition handle (i : Incoming) (s : Svc) : Svc :=
  match i with
  | in_room_created (Some room) | in_room_join_success (Some room)
  | in_participant_joined (Some room) | in_participant_left (Some room) =>
      cache_set room s
  | in_room_closed (Some roomId) =>
      if Js.truthy roomId then cache_delete roomId s else s
  | _ => s
  end.

End Rest.

(** * The backend adapter and the studio's handlers *)

(** [flagshipBreakoutBackend] wraps the imported [apiRequest] and turns
    every outcome into a result; [FlagshipBreakoutStudio] calls it and
    the hook from its handlers. *)
Module Backend.

(** What a [catch] block can be handed. *)
Inductive Thrown :=
| ErrorObject (message : string)
| OtherValue.

(** How [apiRequest] settles, with what the adapter reads of a
    response: [response.success], [response.data?.room] (or
    [?.assignments]) and [response.error]. *)
Inductive ApiOutcome (D : Type) :=
| ApiThrew (t : Thrown)
| ApiAnswered (success : bool) (item : option D) (error : option string).
Arguments ApiThrew {D}.
Arguments ApiAnswered {D}.

(** [{ success, room?, error? }] and [{ success, assignments?, error? }] *)
Record Result (D : Type) := {
  success : bool;
  item : option D;
  error : option string
}.
Arguments success {D}.
Arguments item {D}.
Arguments error {D}.

(** [error instanceof Error ? error.message : fallback] *)
Definition message_of (t : Thrown) (fallback : string) : string :=
  match t with
  | ErrorObject m => m
  | OtherValue => fallback
  end.

(** The body shared by the adapter's methods after the request. *)
Definition adapt {D} (fallback : string) (o : ApiOutcome D) : Result D :=
  match o with
  | ApiThrew t =>
      {| success := false; item := None;
         error := Some (message_of t "Unknown error occurred") |}
  | ApiAnswered true (Some d) _ =>
      {| success := true; item := Some d; error := None |}
  | ApiAnswered _ _ e =>
      {| success := false; item := None; error := Some (Js.or_str e fallback) |}
  end.

Definition baseUrl : string := "/api/flagship-sanctuary".

Definition rooms_url (sessionId : string) : string :=
  baseUrl +:+ "/" +:+ sessionId +:+ "/breakout-rooms".

Definition assign_url (sessionId : string) : string :=
  baseUrl +:+ "/" +:+ sessionId +:+ "/breakout-rooms/auto-assign".

Definition createBreakoutRoom {D} (answer : ApiOutcome D) : Result D :=
  adapt "Failed to create breakout room" answer.

Definition autoAssignParticipants {D} (answer : ApiOutcome D) : Result D :=
  adapt "Failed to auto-assign participants" answer.

End Backend.

Module Studio.

Import Socket.

Record RoomSettings := {
  allowTextChat : bool;
  allowVoiceChat : bool;
  allowScreenShare : bool;
  moderationEnabled : bool;
  recordingEnabled : bool;
  voiceModulationEnabled : bool;
  allowReactions : bool;
  allowPolls : bool
}.

(** [Partial<BreakoutRoomConfig>]: the fields of the form. *)
Record RoomForm := {
  form_name : option string;
  form_topic : option string;
  form_description : option string;
  form_maxParticipants : option Z;
  form_settings : option RoomSettings;
  form_duration : option Z;
  form_autoClose : option bool;
  form_isPrivate : option bool;
  form_requiresApproval : option bool;
  form_tags : option (list string)
}.

Record BreakoutRoomConfig := {
  conf_name : string;
  conf_topic : option string;
  conf_description : option string;
  conf_maxParticipants : Z;
  conf_facilitatorId : string;
  conf_settings : option RoomSettings;
  conf_duration : option Z;
  conf_autoClose : option bool;
  conf_isPrivate : option bool;
  conf_requiresApproval : option bool;
  conf_tags : list string
}.

Record CurrentUser := {
  user_id : string;
  user_alias : string;
  isHost : bool;
  isModerator : bool;
  user_avatarIndex : Z
}.

(** The part of the component's state the handlers write. *)
Record Ui := {
  roomForm : RoomForm;
  isCreateDialogOpen : bool;
  isCreating : bool;
  autoAssignInProgress : bool
}.

Inductive Variant := plain | destructive.

Record Toast := {
  title : string;
  description : string;
  variant : Variant
}.

Inductive Role := facilitator | participant.

(** What [handleJoinRoom] hands to the hook. *)
Record JoinData := {
  jd_id : string;
  jd_alias : string;
  jd_avatarIndex : Z;
  jd_role : Role
}.

(** What a handler does besides leaving a state: the state setters it
    calls in order, the toasts, the request to the backend adapter,
    what the hook emits, the [onParticipantAssigned] callback. *)
Inductive Effect (A : Type) :=
| ShowToast (t : Toast)
| SetIsCreating (b : bool)
| SetIsCreateDialogOpen (b : bool)
| SetRoomForm (f : RoomForm)
| SetAutoAssignInProgress (b : bool)
| PostRoom (url : string) (config : BreakoutRoomConfig)
| PostAutoAssign (url : string) (strategy : string)
| Emitted (o : Outbound)
| ParticipantAssigned (assignments : list A).
Arguments ShowToast {A}.
Arguments SetIsCreating {A}.
Arguments SetIsCreateDialogOpen {A}.
Arguments SetRoomForm {A}.
Arguments SetAutoAssignInProgress {A}.
Arguments PostRoom {A}.
Arguments PostAutoAssign {A}.
Arguments Emitted {A}.
Arguments ParticipantAssigned {A}.

Definition is_request {A} (e : Effect A) : bool :=
  match e with
  | PostRoom _ _ | PostAutoAssign _ _ => true
  | _ => false
  end.

Definition is_emit {A} (e : Effect A) : bool :=
  match e with
  | Emitted _ => true
  | _ => false
  end.

Definition is_toast {A} (e : Effect A) : bool :=
  match e with
  | ShowToast _ => true
  | _ => false
  end.

Definition initial_form : RoomForm :=
  {| form_name := Some ""; form_topic := Some ""; form_description := Some "";
     form_maxParticipants := Some 6;
     form_settings :=
       Some {| allowTextChat := true; allowVoiceChat := true; allowScreenShare := false;
               moderationEnabled := true; recordingEnabled := false;
               voiceModulationEnabled := false; allowReactions := true;
               allowPolls := false |};
     form_duration := Some 15; form_autoClose := Some true;
     form_isPrivate := Some false; form_requiresApproval := Some false;
     form_tags := Some [] |}.

Definition set_isCreating (v : bool) (ui : Ui) : Ui :=
  {| roomForm := roomForm ui; isCreateDialogOpen := isCreateDialogOpen ui;
     isCreating := v; autoAssignInProgress := autoAssignInProgress ui |}.

Definition set_autoAssignInProgress (v : bool) (ui : Ui) : Ui :=
  {| roomForm := roomForm ui; isCreateDialogOpen := isCreateDialogOpen ui;
     isCreating := isCreating ui; autoAssignInProgress := v |}.

(** [setIsCreateDialogOpen(false); resetRoomForm()] *)
Definition close_and_reset (ui : Ui) : Ui :=
  {| roomForm := initial_form; isCreateDialogOpen := false;
     isCreating := isCreating ui; autoAssignInProgress := autoAssignInProgress ui |}.

Definition name_required : Toast :=
  {| title := "Name Required"; description := "Please enter a room name";
     variant := destructive |}.

Definition name_too_short : Toast :=
  {| title := "Name Too Short"; description := "Room name must be at least 2 characters";
     variant := destructive |}.

Definition quoted (s : string) : string :=
  String "034"%char (s +:+ String "034"%char "").

Definition room_created (room_name : string) : Toast :=
  {| title := "Room Created";
     description := quoted room_name +:+ " is ready for participants";
     variant := plain |}.

Definition creation_failed (msg : string) : Toast :=
  {| title := "Creation Failed"; description := msg; variant := destructive |}.

Definition no_rooms : Toast :=
  {| title := "No Rooms Available"; description := "Create breakout rooms first";
     variant := destructive |}.

Definition assignment_complete (n : nat) : Toast :=
  {| title := "Auto-Assignment Complete";
     description := pretty n +:+ " participants assigned";
     variant := plain |}.

Definition assignment_failed (msg : string) : Toast :=
  {| title := "Assignment Failed"; description := msg; variant := destructive |}.

Definition joining : Toast :=
  {| title := "Joining Room"; description := "Connecting to breakout room...";
     variant := plain |}.

Definition join_failed : Toast :=
  {| title := "Join Failed"; description := "Could not join breakout room";
     variant := destructive |}.

Section WithProps.

(** The component's props, how a configuration and a participant are
    written on the wire, and the assignments' type. *)
Variable sessionId : string.
Variable currentUser : CurrentUser.
Variable A : Type.
Variable wire_config : BreakoutRoomConfig → Any.
Variable wire_participant : JoinData → Any.

(** The configuration built from a form whose name is [n]. *)
Definition config_of (f : RoomForm) (n : string) : BreakoutRoomConfig :=
  {| conf_name := Str.trim n;
     conf_topic := Str.trim <$> form_topic f;
     conf_description := Str.trim <$> form_description f;
     conf_maxParticipants := Js.or_num (form_maxParticipants f) 6;
     conf_facilitatorId := user_id currentUser;
     conf_settings := form_settings f;
     conf_duration := form_duration f;
     conf_autoClose := form_autoClose f;
     conf_isPrivate := form_isPrivate f;
     conf_requiresApproval := form_requiresApproval f;
     conf_tags := Js.or_obj (form_tags f) [] |}.

(** [handleCreateRoom]: [backend] is how [apiRequest] settles for the
    configuration, [captured] the connection status the hook's
    [createRoom] closure holds. *)
Definition handleCreateRoom {R} (backend : BreakoutRoomConfig → Backend.ApiOutcome R)
    (captured : ConnectionStatus) (now : string) (ui : Ui) (h : Hook)
  : Ui * Hook * list (Effect A) :=
  match form_name (roomForm ui) with
  | None => (ui, h, [ShowToast name_required])
  | Some n =>
      if negb (Js.truthy (Str.trim n)) then (ui, h, [ShowToast name_required])
      else if bool_decide (String.length (Str.trim n) < 2)%nat then
        (ui, h, [ShowToast name_too_short])
      else
        let config := config_of (roomForm ui) n in
        let result := Backend.createBreakoutRoom (backend config) in
        let asked := [SetIsCreating true; PostRoom (Backend.rooms_url sessionId) config] in
        if Backend.success result then
          match createRoom sessionId true captured (wire_config config) now h with
          | Resolved h' sent =>
              (set_isCreating false (close_and_reset ui), h',
               asked ++ (Emitted <$> sent) ++
               [SetIsCreateDialogOpen false; SetRoomForm initial_form;
                ShowToast (room_created (conf_name config)); SetIsCreating false])
          | Threw msg =>
              (set_isCreating false ui, h,
               asked ++ [ShowToast (creation_failed msg); SetIsCreating false])
          end
        else
          (set_isCreating false ui, h,
           asked ++
           [ShowToast (creation_failed (Js.or_str (Backend.error result) "Failed to create room"));
            SetIsCreating false])
  end.

(** [handleAutoAssign]: [callback] tells whether the optional
    [onParticipantAssigned] prop was given. *)
Definition handleAutoAssign (backend : Backend.ApiOutcome (list A)) (strategy : string)
    (callback : bool) (ui : Ui) (h : Hook) : Ui * list (Effect A) :=
  if bool_decide (size (rooms (state h)) = 0%nat) then (ui, [ShowToast no_rooms])
  else
    let result := Backend.autoAssignParticipants backend in
    let asked :=
      [SetAutoAssignInProgress true; PostAutoAssign (Backend.assign_url sessionId) strategy] in
    match Backend.success result, Backend.item result with
    | true, Some assignments =>
        (set_autoAssignInProgress false ui,
         asked ++ [ShowToast (assignment_complete (length assignments))] ++
         (if callback then [ParticipantAssigned assignments] else []) ++
         [SetAutoAssignInProgress false])
    | _, _ =>
        (set_autoAssignInProgress false ui,
         asked ++
         [ShowToast (assignment_failed (Js.or_str (Backend.error result) "Auto-assignment failed"));
          SetAutoAssignInProgress false])
    end.

Definition join_data : JoinData :=
  {| jd_id := user_id currentUser; jd_alias := user_alias currentUser;
     jd_avatarIndex := user_avatarIndex currentUser;
     jd_role := if isHost currentUser || isModerator currentUser
                then facilitator else participant |}.

Definition handleJoinRoom (captured : ConnectionStatus) (roomId : string) (now : string)
    (h : Hook) : Hook * list (Effect A) :=
  match joinRoom sessionId true captured roomId (wire_participant join_data) now h with
  | Resolved h' sent => (h', (Emitted <$> sent) ++ [ShowToast joining])
  | Threw _ => (h, [ShowToast join_failed])
  end.

End WithProps.

End Studio.

(** * More sample data *)

Module Fixtures.

Import Samples.

Definition bob : Socket.BreakoutParticipant :=
  {| Socket.p_id := "p2"; Socket.p_alias := "bob"; Socket.p_avatarIndex := 2;
     Socket.p_role := Socket.role_facilitator; Socket.p_permissions := [];
     Socket.p_status := Socket.ps_connected;
     Socket.p_joinedAt := "2024-01-01T00:00:01.000Z";
     Socket.p_lastActivity := "2024-01-01T00:00:06.000Z" |}.

Definition room_event (t : Socket.EventType) (d : Socket.EventData) (at_ : string)
  : Socket.SocketBreakoutEvent :=
  {| Socket.type := t; Socket.sessionId := "s1";
     Socket.roomId := Some "r1"; Socket.participantId := None;
     Socket.data := d; Socket.timestamp := at_ |}.

Definition lounge_deleted : Socket.SocketBreakoutEvent :=
  room_event Socket.room_deleted no_data "2024-01-01T00:00:40.000Z".

Definition lounge_paused : Socket.SocketBreakoutEvent :=
  room_event Socket.room_status_changed
    {| Socket.d_room := None; Socket.d_participant := None;
       Socket.d_participantCount := None; Socket.d_participants := None;
       Socket.d_assignments := None; Socket.d_status := Some Socket.paused |}
    "2024-01-01T00:00:50.000Z".

Definition lounge_updated : Socket.SocketBreakoutEvent :=
  room_event Socket.room_updated (Socket.data lounge_created) "2024-01-01T00:00:45.000Z".

(** Alice sent to the lounge, Bob to a room nobody announced. *)
Definition two_assignments : list Socket.Assignment :=
  [ {| Socket.a_roomId := "r1"; Socket.a_participant := Some alice |};
    {| Socket.a_roomId := "r7"; Socket.a_participant := Some bob |} ].

Definition assigned : Socket.SocketBreakoutEvent :=
  {| Socket.type := Socket.auto_assignment_completed; Socket.sessionId := "s1";
     Socket.roomId := None; Socket.participantId := None;
     Socket.data :=
       {| Socket.d_room := None; Socket.d_participant := None;
          Socket.d_participantCount := None; Socket.d_participants := None;
          Socket.d_assignments := Some two_assignments; Socket.d_status := None |};
     Socket.timestamp := "2024-01-01T00:01:00.000Z" |}.

Definition unmounted : Conn.Mounted :=
  {| Conn.hook := mounted; Conn.isInitialized := false |}.

(** A world whose room list is always empty and whose legacy route
    answers 500. *)
Definition world (socket : bool) (token : option string) (valid : bool)
    (backend api : Service.CreateResult) : Service.World :=
  {| Service.permission_valid := true; Service.permission_error := None;
     Service.socket_connected := socket;
     Service.inbound := [];
     Service.authToken := token; Service.tokenValid := valid;
     Service.backendRes := backend;
     Service.apiRes := api;
     Service.legacyResp := Service.Response false 500 "Internal Server Error" None;
     Service.listResp := λ _, Service.Response true 200 "OK" [];
     Service.clock := "2024-01-01T00:00:59.000Z" |}.

(** A world whose modern routes answer 404 and whose legacy request
    gets no response at all, while the room list shows the room from the
    first request on. *)
Definition unreachable_legacy : Service.World :=
  {| Service.permission_valid := true; Service.permission_error := None;
     Service.socket_connected := false;
     Service.inbound := [];
     Service.authToken := Some "token"; Service.tokenValid := true;
     Service.backendRes := Service.failed "HTTP 404: Not Found";
     Service.apiRes := Service.failed "Request failed with status code 404";
     Service.legacyResp := Service.Rejected "Failed to fetch";
     Service.listResp := λ _, Service.Response true 200 "OK" [served "Lounge"];
     Service.clock := "2024-01-01T00:00:59.000Z" |}.

Definition signed_out : Service.World :=
  world false None true (Service.failed "HTTP 500: Internal Server Error")
    (Service.failed "Request failed with status code 500").

Definition backend_up : Service.World :=
  world false (Some "token") true (Service.succeeded (Some (served "Lounge")))
    (Service.failed "Request failed with status code 500").

(** The service holding the served room in its cache. *)
Definition caching : Service.Svc := Service.cache_set (served "Lounge") fresh_service.

Definition anyone : Rest.ParticipantData :=
  {| Rest.alias := "alice"; Rest.avatarIndex := 1 |}.

Definition empty_body : Rest.Body :=
  {| Rest.b_room := None; Rest.b_assignedCount := None; Rest.b_totalRooms := None |}.

(** A browser with the given storage and socket whose every request
    is answered 200 with the served room. *)
Definition browser (storage : gmap string string) (socket : bool) : Rest.Browser :=
  {| Rest.localStorage := storage; Rest.socket_up := socket;
     Rest.fetch :=
       λ _, Service.Response true 200 "OK"
              {| Rest.b_room := Some (served "Lounge"); Rest.b_assignedCount := Some 4;
                 Rest.b_totalRooms := Some 2 |};
     Rest.now := "2024-01-01T00:02:00.000Z" |}.

(** An empty [veilo-auth-token] and a token under [token]. *)
Definition storage : gmap string string :=
  <["veilo-auth-token" := ""]> (<["token" := "tok"]> ∅).

Definition host : Studio.CurrentUser :=
  {| Studio.user_id := "p2"; Studio.user_alias := "bob"; Studio.isHost := true;
     Studio.isModerator := false; Studio.user_avatarIndex := 2 |}.

(** The create dialog open on a form named [n]. *)
Definition dialog (n : string) : Studio.Ui :=
  {| Studio.roomForm :=
       {| Studio.form_name := Some n;
          Studio.form_topic := Studio.form_topic Studio.initial_form;
          Studio.form_description := Studio.form_description Studio.initial_form;
          Studio.form_maxParticipants := Some 0;
          Studio.form_settings := Studio.form_settings Studio.initial_form;
          Studio.form_duration := Studio.form_duration Studio.initial_form;
          Studio.form_autoClose := Studio.form_autoClose Studio.initial_form;
          Studio.form_isPrivate := Studio.form_isPrivate Studio.initial_form;
          Studio.form_requiresApproval := Studio.form_requiresApproval Studio.initial_form;
          Studio.form_tags := Studio.form_tags Studio.initial_form |};
     Studio.isCreateDialogOpen := true; Studio.isCreating := false;
     Studio.autoAssignInProgress := false |}.

(** A backend that creates every room it is asked for. *)
Definition creating (c : Studio.BreakoutRoomConfig) : Backend.ApiOutcome string :=
  Backend.ApiAnswered true (Some (Studio.conf_name c)) None.

Definition on_wire (c : Studio.BreakoutRoomConfig) : Socket.Any := Studio.conf_name c.

End Fixtures.

(** * Properties of the deduplication memory *)
Section KeyMapFacts.

Implicit Types (k x : string) (m ks : list string).

Lemma has_true k m : KeyMap.has k m = true ↔ k ∈ m.
Proof. unfold KeyMap.has. by rewrite bool_decide_eq_true. Qed.

Lemma has_false k m : KeyMap.has k m = false ↔ k ∉ m.
Proof. unfold KeyMap.has. by rewrite bool_decide_eq_false. Qed.

Lemma set_fresh k m : k ∉ m → KeyMap.set k m = m ++ [k].
Proof. intros Hk. unfold KeyMap.set. apply has_false in Hk. by rewrite Hk. Qed.

Lemma elem_of_delete x k m : x ∈ KeyMap.delete k m ↔ x ∈ m ∧ x ≠ k.
Proof. unfold KeyMap.delete. rewrite list_elem_of_filter. tauto. Qed.

Lemma elem_of_delete_all x ks m :
  x ∈ KeyMap.delete_all ks m ↔ x ∈ m ∧ x ∉ ks.
Proof.
  unfold KeyMap.delete_all. revert m.
  induction ks as [|k ks IH]; intros m; simpl.
  - split; [intros H; split; [done | by apply not_elem_of_nil] | tauto].
  - rewrite IH, elem_of_delete, not_elem_of_cons. tauto.
Qed.

Lemma delete_absent k m : k ∉ m → KeyMap.delete k m = m.
Proof.
  intros Hk. unfold KeyMap.delete.
  induction m as [|y m IH]; [done|].
  apply not_elem_of_cons in Hk as [Hne Hk].
  rewrite filter_cons_True by congruence. by rewrite IH.
Qed.

Lemma delete_head k m : k ∉ m → KeyMap.delete k (k :: m) = m.
Proof.
  intros Hk. unfold KeyMap.delete.
  rewrite filter_cons_False by (intros H; by apply H).
  by apply delete_absent.
Qed.

(** Deleting the keys of a prefix of a duplicate-free map leaves the
    rest of the map. *)
Lemma delete_all_prefix ks m :
  NoDup (ks ++ m) → KeyMap.delete_all ks (ks ++ m) = m.
Proof.
  unfold KeyMap.delete_all.
  induction ks as [|k ks IH]; intros Hnd; simpl; [done|].
  simpl in Hnd. apply NoDup_cons in Hnd as [Hk Hnd].
  fold (KeyMap.delete k (k :: ks ++ m)).
  rewrite delete_head by done. by apply IH.
Qed.

Lemma delete_all_take n m :
  NoDup m → KeyMap.delete_all (take n m) m = drop n m.
Proof.
  intros Hnd. rewrite <- (take_drop n m) at 2.
  apply delete_all_prefix. by rewrite take_drop.
Qed.

(** A key that was just remembered is in the memory, eviction or not. *)
Lemma remember_has k m : k ∉ m → k ∈ Socket.remember k m.
Proof.
  intros Hk. unfold Socket.remember. rewrite set_fresh by done.
  case_bool_decide as Hsz.
  - apply elem_of_delete_all. split; [set_solver|].
    unfold KeyMap.size, Socket.dedup_cap, Socket.dedup_evict in *.
    rewrite length_app in Hsz. simpl in Hsz.
    rewrite take_app_le by lia.
    intros Hin. apply Hk. revert Hin. apply subseteq_take.
  - set_solver.
Qed.

(** On a duplicate-free memory the eviction drops the oldest keys. *)
Lemma remember_fresh k m :
  NoDup m → k ∉ m →
  Socket.remember k m =
    if bool_decide (Socket.dedup_cap < length m + 1)%nat
    then drop Socket.dedup_evict (m ++ [k]) else m ++ [k].
Proof.
  intros Hnd Hk. unfold Socket.remember. rewrite set_fresh by done.
  unfold KeyMap.size. rewrite length_app. simpl.
  case_bool_decide; [|done].
  apply delete_all_take. apply NoDup_app. repeat split; [done| |apply NoDup_singleton].
  intros x Hx Hx'. apply list_elem_of_singleton in Hx'. by subst.
Qed.

Lemma remember_NoDup k m : NoDup m → k ∉ m → NoDup (Socket.remember k m).
Proof.
  intros Hnd Hk. rewrite remember_fresh by done.
  assert (NoDup (m ++ [k])) as Hnd'.
  { apply NoDup_app. repeat split; [done| |apply NoDup_singleton].
    intros x Hx Hx'. apply list_elem_of_singleton in Hx'. by subst. }
  case_bool_decide; [|done].
  rewrite <- (take_drop Socket.dedup_evict (m ++ [k])) in Hnd'.
  by apply NoDup_app in Hnd' as (_ & _ & ?).
Qed.

Lemma remember_length k m :
  NoDup m → k ∉ m → (length m ≤ Socket.dedup_cap)%nat →
  (length (Socket.remember k m) ≤ Socket.dedup_cap)%nat.
Proof.
  intros Hnd Hk Hlen. rewrite remember_fresh by done.
  unfold Socket.dedup_cap, Socket.dedup_evict in *.
  case_bool_decide.
  - rewrite length_drop, length_app. simpl. lia.
  - rewrite length_app. simpl. lia.
Qed.

End KeyMapFacts.

(** * Properties of the reducer *)
Section ReducerFacts.

Variable analytics : bool.

Abbreviation processEvent := (Socket.processEvent analytics).
Abbreviation processEvents := (Socket.processEvents analytics).

Implicit Types (e : Socket.SocketBreakoutEvent) (h : Socket.Hook).

Lemma processEvent_seen e h :
  Socket.eventKey e ∈ Socket.eventHandlers h → processEvent e h = h.
Proof.
  intros Hin. unfold Socket.processEvent.
  apply has_true in Hin. by rewrite Hin.
Qed.

Lemma processEvent_fresh e h :
  Socket.eventKey e ∉ Socket.eventHandlers h →
  processEvent e h =
    {| Socket.state := Socket.reduce e (Socket.state h);
       Socket.metrics :=
         if analytics then Socket.count_received e (Socket.metrics h)
         else Socket.metrics h;
       Socket.eventHandlers := Socket.remember (Socket.eventKey e) (Socket.eventHandlers h);
       Socket.eventBuffer := Socket.eventBuffer h |}.
Proof.
  intros Hin. unfold Socket.processEvent.
  apply has_false in Hin. by rewrite Hin.
Qed.

(** Once an event went through the reducer its key is in the memory. *)
Lemma processEvent_remembers e h :
  Socket.eventKey e ∈ Socket.eventHandlers (processEvent e h).
Proof.
  destruct (decide (Socket.eventKey e ∈ Socket.eventHandlers h)) as [Hin|Hout].
  - by rewrite processEvent_seen.
  - rewrite processEvent_fresh by done. simpl. by apply remember_has.
Qed.

(** The key is a function of the kind, the room identifier (or
    "global") and the timestamp. *)
Lemma eventKey_triple e e' :
  Socket.type e' = Socket.type e →
  Js.or_str (Socket.roomId e') "global" = Js.or_str (Socket.roomId e) "global" →
  Socket.timestamp e' = Socket.timestamp e →
  Socket.eventKey e' = Socket.eventKey e.
Proof. unfold Socket.eventKey. by intros -> -> ->. Qed.

(** C1.  Feeding an event a second time changes nothing: neither the
    rooms map, the participants map, the current-room pointer and the
    last-update timestamp, nor anything else the hook holds.  More
    generally an event whose key -- kind, room identifier or "global",
    timestamp -- is in the deduplication memory is dropped, and the key
    of an event is in the memory once the event was fed. *)
Theorem C1_duplicate_delivery_is_dropped :
  (∀ e h, processEvent e (processEvent e h) = processEvent e h) ∧
  (∀ e h, Socket.eventKey e ∈ Socket.eventHandlers h → processEvent e h = h) ∧
  (∀ e e' h,
     Socket.type e' = Socket.type e →
     Js.or_str (Socket.roomId e') "global" = Js.or_str (Socket.roomId e) "global" →
     Socket.timestamp e' = Socket.timestamp e →
     processEvent e' (processEvent e h) = processEvent e h).
Proof.
  split; [|split].
  - intros e h. apply processEvent_seen, processEvent_remembers.
  - intros e h. apply processEvent_seen.
  - intros e e' h Hty Hrid Hts. apply processEvent_seen.
    rewrite (eventKey_triple e e') by done. apply processEvent_remembers.
Qed.

(** *** Folding one participant event *)

Lemma truthy_true s : s ≠ "" → Js.truthy s = true.
Proof. intros H. unfold Js.truthy. by rewrite bool_decide_eq_true. Qed.

(** C2.  A first-seen [participant_left] event that carries a room
    identifier and a participant identifier (both truthy, as the code
    tests them), for a room the projection holds with occupancy n:
    after folding, the room's occupancy is max(0, n - 1), its roster is
    the old one without the entries of that participant, and the
    participant is gone from the participants map. *)
Theorem C2_participant_left_decrements_and_removes
    e h (rid pid : string) (room : Socket.BreakoutRoom) :
  Socket.type e = Socket.participant_left →
  Socket.roomId e = Some rid → rid ≠ "" →
  Socket.participantId e = Some pid → pid ≠ "" →
  Socket.eventKey e ∉ Socket.eventHandlers h →
  Socket.rooms (Socket.state h) !! rid = Some room →
  ∃ room',
    Socket.rooms (Socket.state (processEvent e h)) !! rid = Some room' ∧
    Socket.currentParticipants room' = Z.max 0 (Socket.currentParticipants room - 1) ∧
    Socket.participants room' =
      filter (λ p, Socket.re_id p ≠ pid) (Socket.participants room) ∧
    (∀ p, p ∈ Socket.participants room' → Socket.re_id p ≠ pid) ∧
    Socket.st_participants (Socket.state (processEvent e h)) !! pid = None.
Proof.
  intros Hty Hrid Hrid' Hpid Hpid' Hfresh Hroom.
  rewrite processEvent_fresh by done. simpl.
  unfold Socket.fold_event. rewrite Hty, Hpid, Hrid.
  rewrite !truthy_true by done. simpl. rewrite Hroom. simpl.
  eexists. split; [apply lookup_insert_eq|]. simpl.
  repeat split.
  - intros p Hp. by apply list_elem_of_filter in Hp as [? _].
  - apply lookup_delete_eq.
Qed.

(** What a first-seen [participant_joined] or [participant_updated]
    event does to the participant and to its room. *)
Lemma participant_event_folds
    e h (rid : string) (p : Socket.BreakoutParticipant) (room : Socket.BreakoutRoom) :
  Socket.type e = Socket.participant_joined ∨
    Socket.type e = Socket.participant_updated →
  Socket.d_participant (Socket.data e) = Some p →
  Socket.roomId e = Some rid → rid ≠ "" →
  Socket.eventKey e ∉ Socket.eventHandlers h →
  Socket.rooms (Socket.state h) !! rid = Some room →
  Socket.st_participants (Socket.state (processEvent e h)) !! Socket.p_id p = Some p ∧
  Socket.rooms (Socket.state (processEvent e h)) !! rid =
    Some (Socket.with_occupancy room
            (Js.or_num (Socket.d_participantCount (Socket.data e))
                       (Socket.currentParticipants room))
            (Js.or_obj (Socket.d_participants (Socket.data e))
                       (Socket.participants room))).
Proof.
  intros Hty Hp Hrid Hrid' Hfresh Hroom.
  rewrite processEvent_fresh by done. simpl.
  unfold Socket.fold_event.
  destruct Hty as [-> | ->]; rewrite Hp, Hrid, truthy_true by done;
    simpl; rewrite Hroom; simpl;
    (split; [apply lookup_insert_eq | apply lookup_insert_eq]).
Qed.

(** The part of C3 that the code does: a supplied count other than 0
    and a supplied roster, empty or not, replace what the room held. *)
Lemma participant_event_overwrites
    e h (rid : string) (p : Socket.BreakoutParticipant) (room : Socket.BreakoutRoom) :
  Socket.type e = Socket.participant_joined ∨
    Socket.type e = Socket.participant_updated →
  Socket.d_participant (Socket.data e) = Some p →
  Socket.roomId e = Some rid → rid ≠ "" →
  Socket.eventKey e ∉ Socket.eventHandlers h →
  Socket.rooms (Socket.state h) !! rid = Some room →
  ∃ room',
    Socket.rooms (Socket.state (processEvent e h)) !! rid = Some room' ∧
    (∀ c, Socket.d_participantCount (Socket.data e) = Some c → c ≠ 0 →
          Socket.currentParticipants room' = c) ∧
    (∀ r, Socket.d_participants (Socket.data e) = Some r →
          Socket.participants room' = r).
Proof.
  intros Hty Hp Hrid Hrid' Hfresh Hroom.
  destruct (participant_event_folds e h rid p room) as [_ Hr]; try done.
  eexists. split; [exact Hr|]. simpl. split.
  - intros c -> Hc. simpl. by rewrite bool_decide_eq_false_2.
  - by intros r ->.
Qed.

(** C3.  A [participant_joined] or [participant_updated] event that
    supplies the count 0 for its room does not overwrite the room's
    occupancy: the locally held count stays. *)
Theorem C3_zero_count_keeps_local_occupancy
    e h (rid : string) (p : Socket.BreakoutParticipant) (room : Socket.BreakoutRoom) :
  Socket.type e = Socket.participant_joined ∨
    Socket.type e = Socket.participant_updated →
  Socket.d_participant (Socket.data e) = Some p →
  Socket.roomId e = Some rid → rid ≠ "" →
  Socket.eventKey e ∉ Socket.eventHandlers h →
  Socket.rooms (Socket.state h) !! rid = Some room →
  Socket.d_participantCount (Socket.data e) = Some 0 →
  Socket.currentParticipants room ≠ 0 →
  ∃ room',
    Socket.rooms (Socket.state (processEvent e h)) !! rid = Some room' ∧
    Socket.currentParticipants room' = Socket.currentParticipants room ∧
    Socket.currentParticipants room' ≠ 0.
Proof.
  intros Hty Hp Hrid Hrid' Hfresh Hroom Hzero Hocc.
  destruct (participant_event_folds e h rid p room) as [_ Hr]; try done.
  eexists. split; [exact Hr|]. rewrite Hzero. simpl. done.
Qed.

End ReducerFacts.

(** * The bound on the deduplication memory *)
Section DedupBound.

Variable analytics : bool.

Abbreviation processEvent := (Socket.processEvent analytics).
Abbreviation processEvents := (Socket.processEvents analytics).

Implicit Types (e : Socket.SocketBreakoutEvent) (h : Socket.Hook).

Lemma bounded_processEvent e h : Socket.bounded h → Socket.bounded (processEvent e h).
Proof.
  intros [Hnd Hlen].
  destruct (decide (Socket.eventKey e ∈ Socket.eventHandlers h)) as [Hin|Hout].
  - by rewrite processEvent_seen.
  - rewrite processEvent_fresh by done. split; simpl.
    + by apply remember_NoDup.
    + by apply remember_length.
Qed.

Lemma reachable_bounded h : Socket.reachable analytics h → Socket.bounded h.
Proof.
  induction 1 as [now|e h _ IH|h _ IH|f h _ IH|h _ IH]; try exact IH.
  - split; simpl; [apply NoDup_nil_2 | unfold Socket.dedup_cap; lia].
  - by apply bounded_processEvent.
  - split; simpl; [apply NoDup_nil_2 | unfold Socket.dedup_cap; lia].
Qed.

Lemma processEvents_snoc es e h :
  processEvents (es ++ [e]) h = processEvent e (processEvents es h).
Proof. unfold Socket.processEvents. by rewrite foldl_app. Qed.

(** While the cap is not exceeded, events with distinct unseen keys
    are all remembered, in arrival order. *)
Lemma processEvents_distinct es : ∀ h,
  NoDup (Socket.eventHandlers h ++ (Socket.eventKey <$> es)) →
  (length (Socket.eventHandlers h) + length es ≤ Socket.dedup_cap)%nat →
  Socket.eventHandlers (processEvents es h) =
    Socket.eventHandlers h ++ (Socket.eventKey <$> es).
Proof.
  induction es as [|e es IH]; intros h Hnd Hlen; simpl.
  - by rewrite app_nil_r.
  - simpl in Hlen.
    assert (Socket.eventKey e ∉ Socket.eventHandlers h) as Hout.
    { apply NoDup_app in Hnd as (_ & Hdisj & _).
      intros Hin. apply (Hdisj _ Hin). left. }
    assert (NoDup (Socket.eventHandlers h)) as Hnd0
      by (by apply NoDup_app in Hnd as (? & _ & _)).
    assert (Socket.eventHandlers (processEvent e h)
            = Socket.eventHandlers h ++ [Socket.eventKey e]) as Hstep.
    { rewrite processEvent_fresh by done. simpl.
      rewrite remember_fresh by done.
      rewrite bool_decide_eq_false_2; [done | lia]. }
    unfold Socket.processEvents in *. simpl.
    rewrite IH; rewrite Hstep.
    + by rewrite <- app_assoc.
    + by rewrite <- app_assoc.
    + rewrite length_app. simpl. lia.
Qed.

(** C4.  The deduplication memory of a hook never holds more than
    1000 keys.  When a new key makes it 1001, the 500 oldest keys, by
    insertion order, are evicted.  Feeding 1001 events with pairwise
    distinct keys to a fresh hook leaves the 501 most recent keys. *)
Theorem C4_dedup_memory_is_capped :
  (∀ h, Socket.reachable analytics h →
        (length (Socket.eventHandlers h) ≤ 1000)%nat) ∧
  (∀ h e, Socket.reachable analytics h →
          Socket.eventKey e ∉ Socket.eventHandlers h →
          length (Socket.eventHandlers h) = 1000%nat →
          Socket.eventHandlers (processEvent e h)
            = drop 500 (Socket.eventHandlers h ++ [Socket.eventKey e])) ∧
  (∀ es now,
     NoDup (Socket.eventKey <$> es) → length es = 1001%nat →
     Socket.eventHandlers (processEvents es (Socket.initial now))
       = drop 500 (Socket.eventKey <$> es) ∧
     length (Socket.eventHandlers (processEvents es (Socket.initial now))) = 501%nat).
Proof.
  split; [|split].
  - intros h Hr. by apply reachable_bounded in Hr as [_ ?].
  - intros h e Hr Hout Hlen.
    apply reachable_bounded in Hr as [Hnd _].
    rewrite processEvent_fresh by done. simpl.
    rewrite remember_fresh by done.
    rewrite bool_decide_eq_true_2; [done|].
    unfold Socket.dedup_cap. lia.
  - intros es now Hnd Hlen.
    destruct es as [|e0 es0] using rev_ind; [done|]. clear IHes0.
    rewrite length_app in Hlen. simpl in Hlen.
    rewrite fmap_app in Hnd |- *. simpl in *.
    assert (Socket.eventHandlers (processEvents es0 (Socket.initial now))
            = Socket.eventKey <$> es0) as Hpre.
    { rewrite processEvents_distinct; simpl; [done| |unfold Socket.dedup_cap; lia].
      by apply NoDup_app in Hnd as (? & _ & _). }
    assert (Socket.eventHandlers
              (processEvents (es0 ++ [e0]) (Socket.initial now))
            = drop 500 ((Socket.eventKey <$> es0) ++ [Socket.eventKey e0])) as Hall.
    { rewrite processEvents_snoc.
      apply NoDup_app in Hnd as (Hnd0 & Hdisj & _).
      rewrite processEvent_fresh; rewrite Hpre.
      - simpl. rewrite remember_fresh; [|done|].
        + rewrite length_fmap. rewrite bool_decide_eq_true_2; [done|].
          unfold Socket.dedup_cap. lia.
        + intros Hin. apply (Hdisj _ Hin). left.
      - intros Hin. apply (Hdisj _ Hin). left. }
    split; [exact Hall|].
    rewrite Hall, length_drop, length_app, length_fmap. simpl. lia.
Qed.

End DedupBound.

(** * Replaying an event sequence after [clearCache] *)
Section Replay.

Variable analytics : bool.

Abbreviation processEvent := (Socket.processEvent analytics).
Abbreviation processEvents := (Socket.processEvents analytics).

Implicit Types (e : Socket.SocketBreakoutEvent) (h : Socket.Hook)
  (s : Socket.RealtimeBreakoutState).

Lemma state_ext s1 s2 :
  Socket.rooms s1 = Socket.rooms s2 →
  Socket.st_participants s1 = Socket.st_participants s2 →
  Socket.currentRoom s1 = Socket.currentRoom s2 →
  Socket.lastUpdate s1 = Socket.lastUpdate s2 →
  Socket.connectionStatus s1 = Socket.connectionStatus s2 →
  Socket.messageQueue s1 = Socket.messageQueue s2 →
  s1 = s2.
Proof. destruct s1, s2. simpl. by intros -> -> -> -> -> ->. Qed.

(** The assignments only write the participants map. *)
Lemma assign_all_frame (l : list Socket.Assignment) : ∀ s,
  Socket.rooms (foldl Socket.assign_one s l) = Socket.rooms s ∧
  Socket.currentRoom (foldl Socket.assign_one s l) = Socket.currentRoom s ∧
  Socket.connectionStatus (foldl Socket.assign_one s l) = Socket.connectionStatus s ∧
  Socket.messageQueue (foldl Socket.assign_one s l) = Socket.messageQueue s.
Proof.
  induction l as [|a l IH]; intros s; simpl; [done|].
  destruct (IH (Socket.assign_one s a)) as (-> & -> & -> & ->).
  unfold Socket.assign_one. by repeat case_match.
Qed.

Lemma assign_all_participants (l : list Socket.Assignment) : ∀ s1 s2,
  Socket.rooms s1 = Socket.rooms s2 →
  Socket.st_participants s1 = Socket.st_participants s2 →
  Socket.st_participants (foldl Socket.assign_one s1 l)
    = Socket.st_participants (foldl Socket.assign_one s2 l).
Proof.
  induction l as [|a l IH]; intros s1 s2 Hr Hp; simpl; [done|].
  apply IH; unfold Socket.assign_one; rewrite Hr;
    repeat case_match; simpl; congruence.
Qed.

Ltac fold_cases e :=
  unfold Socket.fold_event;
  destruct (Socket.type e); simpl;
  repeat case_match; simpl in *; simplify_eq; try done.

(** The reducer leaves the connection status and the message queue. *)
Lemma fold_event_frame e s :
  Socket.connectionStatus (Socket.fold_event e s) = Socket.connectionStatus s ∧
  Socket.messageQueue (Socket.fold_event e s) = Socket.messageQueue s.
Proof.
  fold_cases e.
  match goal with
  | |- context [foldl Socket.assign_one s ?l] =>
      by destruct (assign_all_frame l s) as (_ & _ & -> & ->)
  end.
Qed.

(** The reducer keeps the current-room pointer or clears it. *)
Lemma fold_event_currentRoom e s :
  Socket.currentRoom (Socket.fold_event e s) = Socket.currentRoom s ∨
  Socket.currentRoom (Socket.fold_event e s) = None.
Proof.
  fold_cases e; try (by left); try (by right).
  match goal with
  | |- context [foldl Socket.assign_one s ?l] =>
      left; by destruct (assign_all_frame l s) as (_ & -> & _)
  end.
Qed.

(** The maps after a fold are a function of the maps before it; so is
    the pointer, of the pointer before it. *)
Lemma fold_event_sim e s1 s2 :
  Socket.rooms s1 = Socket.rooms s2 →
  Socket.st_participants s1 = Socket.st_participants s2 →
  Socket.rooms (Socket.fold_event e s1) = Socket.rooms (Socket.fold_event e s2) ∧
  Socket.st_participants (Socket.fold_event e s1)
    = Socket.st_participants (Socket.fold_event e s2) ∧
  (Socket.currentRoom s1 = Socket.currentRoom s2 →
   Socket.currentRoom (Socket.fold_event e s1)
     = Socket.currentRoom (Socket.fold_event e s2)).
Proof.
  intros Hr Hp. unfold Socket.fold_event.
  destruct (Socket.type e); simpl; rewrite ?Hr, ?Hp;
    repeat case_match; simpl in *; simplify_eq; try done;
    repeat match goal with
           | H : bool_decide _ = true |- _ => apply bool_decide_eq_true in H
           | H : bool_decide _ = false |- _ => apply bool_decide_eq_false in H
           end;
    try (repeat split; congruence).
  match goal with
  | |- context [foldl Socket.assign_one s1 ?l] =>
      destruct (assign_all_frame l s1) as (-> & -> & _);
      destruct (assign_all_frame l s2) as (-> & -> & _);
      repeat split; try done; by apply assign_all_participants
  end.
Qed.

(** One step of the reducer on two hooks with the same core. *)
Lemma processEvent_sim e h1 h2 :
  Socket.same_core h1 h2 →
  Socket.same_core (processEvent e h1) (processEvent e h2) ∧
  (Socket.currentRoom (Socket.state h1) = Socket.currentRoom (Socket.state h2) →
   Socket.currentRoom (Socket.state (processEvent e h1))
     = Socket.currentRoom (Socket.state (processEvent e h2))) ∧
  ((Socket.lastUpdate (Socket.state (processEvent e h1)) = Socket.lastUpdate (Socket.state h1) ∧
    Socket.lastUpdate (Socket.state (processEvent e h2)) = Socket.lastUpdate (Socket.state h2)) ∨
   Socket.lastUpdate (Socket.state (processEvent e h1))
     = Socket.lastUpdate (Socket.state (processEvent e h2))).
Proof.
  intros (Hk & Hr & Hp & Hc & Hq).
  destruct (decide (Socket.eventKey e ∈ Socket.eventHandlers h1)) as [Hin|Hout].
  - rewrite (processEvent_seen _ e h1) by done.
    rewrite (processEvent_seen _ e h2) by (by rewrite <- Hk).
    repeat split; try done; by left.
  - rewrite (processEvent_fresh _ e h1) by done.
    rewrite (processEvent_fresh _ e h2) by (by rewrite <- Hk).
    destruct (fold_event_sim e _ _ Hr Hp) as (Hr' & Hp' & Hcr').
    destruct (fold_event_frame e (Socket.state h1)) as [Hc1 Hq1].
    destruct (fold_event_frame e (Socket.state h2)) as [Hc2 Hq2].
    unfold Socket.same_core. simpl. rewrite Hk.
    repeat split; try done; try congruence; by right.
Qed.

Lemma processEvent_currentRoom e h :
  Socket.currentRoom (Socket.state (processEvent e h)) = Socket.currentRoom (Socket.state h) ∨
  Socket.currentRoom (Socket.state (processEvent e h)) = None.
Proof.
  destruct (decide (Socket.eventKey e ∈ Socket.eventHandlers h)) as [Hin|Hout].
  - rewrite processEvent_seen by done. by left.
  - rewrite processEvent_fresh by done. simpl. apply fold_event_currentRoom.
Qed.

Lemma processEvent_frame e h :
  Socket.connectionStatus (Socket.state (processEvent e h))
    = Socket.connectionStatus (Socket.state h) ∧
  Socket.messageQueue (Socket.state (processEvent e h))
    = Socket.messageQueue (Socket.state h).
Proof.
  destruct (decide (Socket.eventKey e ∈ Socket.eventHandlers h)) as [Hin|Hout].
  - by rewrite processEvent_seen.
  - rewrite processEvent_fresh by done. simpl. apply fold_event_frame.
Qed.

(** The same three facts for a whole sequence. *)
Lemma processEvents_sim es : ∀ h1 h2,
  Socket.same_core h1 h2 →
  Socket.same_core (processEvents es h1) (processEvents es h2) ∧
  (Socket.currentRoom (Socket.state h1) = Socket.currentRoom (Socket.state h2) →
   Socket.currentRoom (Socket.state (processEvents es h1))
     = Socket.currentRoom (Socket.state (processEvents es h2))) ∧
  ((Socket.lastUpdate (Socket.state (processEvents es h1)) = Socket.lastUpdate (Socket.state h1) ∧
    Socket.lastUpdate (Socket.state (processEvents es h2)) = Socket.lastUpdate (Socket.state h2)) ∨
   Socket.lastUpdate (Socket.state (processEvents es h1))
     = Socket.lastUpdate (Socket.state (processEvents es h2))).
Proof.
  induction es as [|e es IH]; intros h1 h2 Hsim.
  - split; [exact Hsim|]. split; [done | by left].
  - destruct (processEvent_sim e h1 h2 Hsim) as (Hsim' & Hcr & Hlu).
    destruct (IH _ _ Hsim') as (Hsim'' & Hcr' & Hlu').
    unfold Socket.processEvents in *. simpl.
    split; [done|]. split; [tauto|].
    destruct Hlu' as [[Ha Hb]|Hb]; [|by right].
    destruct Hlu as [[Hc Hd]|Hd]; [left; split|right]; congruence.
Qed.

Lemma processEvents_currentRoom es : ∀ h,
  Socket.currentRoom (Socket.state (processEvents es h)) = Socket.currentRoom (Socket.state h) ∨
  Socket.currentRoom (Socket.state (processEvents es h)) = None.
Proof.
  induction es as [|e es IH]; intros h; [by left|].
  unfold Socket.processEvents in *. simpl.
  destruct (IH (processEvent e h)) as [Hk|Hn]; [|by right].
  rewrite Hk. apply processEvent_currentRoom.
Qed.

Lemma processEvents_frame es : ∀ h,
  Socket.connectionStatus (Socket.state (processEvents es h))
    = Socket.connectionStatus (Socket.state h) ∧
  Socket.messageQueue (Socket.state (processEvents es h))
    = Socket.messageQueue (Socket.state h).
Proof.
  induction es as [|e es IH]; intros h; [done|].
  unfold Socket.processEvents in *. simpl.
  destruct (IH (processEvent e h)) as [-> ->]. apply processEvent_frame.
Qed.

(** C9.  [clearCache] empties the rooms map, the participants map,
    the message queue, the event buffer and the deduplication memory; it
    keeps the current-room pointer, the last-update timestamp, the
    connection status and the metrics.  Start from a hook whose maps,
    message queue and deduplication memory are empty, as the initial
    hook's are.  Feed a sequence of events, call [clearCache], feed the
    same sequence again: the projection and the deduplication memory are
    those the first run produced. *)
Theorem C9_replay_after_clearCache_reproduces_projection es h0 :
  Socket.rooms (Socket.state h0) = ∅ →
  Socket.st_participants (Socket.state h0) = ∅ →
  Socket.messageQueue (Socket.state h0) = [] →
  Socket.eventHandlers h0 = [] →
  Socket.state (processEvents es (Socket.clearCache (processEvents es h0)))
    = Socket.state (processEvents es h0) ∧
  Socket.eventHandlers (processEvents es (Socket.clearCache (processEvents es h0)))
    = Socket.eventHandlers (processEvents es h0) ∧
  (∀ h,
     Socket.rooms (Socket.state (Socket.clearCache h)) = ∅ ∧
     Socket.st_participants (Socket.state (Socket.clearCache h)) = ∅ ∧
     Socket.messageQueue (Socket.state (Socket.clearCache h)) = [] ∧
     Socket.eventHandlers (Socket.clearCache h) = [] ∧
     Socket.eventBuffer (Socket.clearCache h) = [] ∧
     Socket.currentRoom (Socket.state (Socket.clearCache h))
       = Socket.currentRoom (Socket.state h) ∧
     Socket.lastUpdate (Socket.state (Socket.clearCache h))
       = Socket.lastUpdate (Socket.state h) ∧
     Socket.connectionStatus (Socket.state (Socket.clearCache h))
       = Socket.connectionStatus (Socket.state h) ∧
     Socket.metrics (Socket.clearCache h) = Socket.metrics h).
Proof.
  intros Hr Hp Hq Hk.
  set (f := processEvents es h0).
  destruct (processEvents_frame es h0) as [Hst Hqu]. fold f in Hst, Hqu.
  assert (Socket.same_core (Socket.clearCache f) h0) as Hsim.
  { unfold Socket.same_core. simpl. rewrite Hr, Hp, Hq, Hk, Hst. done. }
  destruct (processEvents_sim es _ _ Hsim) as ((Hk' & Hr' & Hp' & Hc' & Hq') & Hcr & Hlu).
  fold f in Hk', Hr', Hp', Hc', Hq', Hcr, Hlu. simpl in Hcr, Hlu.
  split; [|split; [done | by intros h]].
  apply state_ext; try done.
  - destruct (processEvents_currentRoom es h0) as [Hsame|Hnone];
      [fold f in Hsame | fold f in Hnone].
    + by apply Hcr.
    + destruct (processEvents_currentRoom es (Socket.clearCache f)) as [Hs|Hn].
      * rewrite Hs. done.
      * by rewrite Hn, Hnone.
  - destruct Hlu as [[Ha _]|Hb]; [|done]. by rewrite Ha.
Qed.

End Replay.

(** * The hook's operations and derived state *)
Section Operations.

Variable sessionId : string.
Variable analytics : bool.

Implicit Types (h : Socket.Hook) (s : Socket.RealtimeBreakoutState)
  (captured : Socket.ConnectionStatus).

(** The four guarded operations reject with "Socket not connected"
    when the status their closure holds is not [connected]. *)
Lemma guarded_operations_throw captured (rid x now : string) h :
  captured ≠ Socket.connected →
  Socket.createRoom sessionId analytics captured x now h = Socket.Threw Socket.not_connected ∧
  Socket.joinRoom sessionId analytics captured rid x now h = Socket.Threw Socket.not_connected ∧
  Socket.leaveRoom sessionId analytics captured rid now h = Socket.Threw Socket.not_connected ∧
  Socket.sendMessage sessionId analytics captured rid x now h = Socket.Threw Socket.not_connected.
Proof.
  intros Hc.
  unfold Socket.createRoom, Socket.joinRoom, Socket.leaveRoom, Socket.sendMessage.
  by rewrite !bool_decide_eq_true_2.
Qed.

(** C8.  On a hook whose connection status is [disconnected], the
    five operations written inline in the returned object --
    [updateRoom], [deleteRoom], [updateParticipant],
    [moderateParticipant], [sendReaction] -- do not reject: each hands
    its message to the transport and resolves. *)
Theorem C8_inline_operations_emit_while_disconnected h (rid pid x : string) :
  let h' := Socket.set_state (Socket.set_connectionStatus Socket.disconnected) h in
  Socket.connectionStatus (Socket.state h') = Socket.disconnected ∧
  Socket.updateRoom sessionId rid x h'
    = Socket.Resolved h' [Socket.update_breakout_room sessionId rid x] ∧
  Socket.deleteRoom sessionId rid h'
    = Socket.Resolved h' [Socket.delete_breakout_room sessionId rid] ∧
  Socket.updateParticipant sessionId rid pid x h'
    = Socket.Resolved h' [Socket.update_breakout_participant sessionId rid pid x] ∧
  Socket.moderateParticipant sessionId rid x h'
    = Socket.Resolved h' [Socket.moderate_breakout_participant sessionId rid x] ∧
  Socket.sendReaction sessionId rid x h'
    = Socket.Resolved h' [Socket.send_breakout_reaction sessionId rid x].
Proof. by repeat split. Qed.

Lemma returned_currentRoom_set s (rid : string) :
  Socket.currentRoom s = Some rid → rid ≠ "" →
  Socket.returned_currentRoom s = Socket.rooms s !! rid.
Proof.
  intros Hc Hne. unfold Socket.returned_currentRoom.
  by rewrite Hc, truthy_true.
Qed.

Lemma returned_currentRoom_absent s (rid : string) :
  Socket.currentRoom s = Some rid → Socket.rooms s !! rid = None →
  Socket.returned_currentRoom s = None.
Proof.
  intros Hc Hr. unfold Socket.returned_currentRoom. rewrite Hc.
  by destruct (Js.truthy rid).
Qed.

(** C10.  The returned [currentRoom] is the entry of the rooms map
    under the current-room identifier; it is null when the identifier is
    unset (null, or the empty string, which the code treats alike) and
    when the map has no room under it.  After a [joinRoom] that went
    through for a room the map does not hold, the identifier is that
    room's and the returned [currentRoom] is null. *)
Theorem C10_returned_currentRoom_is_lookup_or_null :
  (∀ s (rid : string),
     Socket.currentRoom s = Some rid → rid ≠ "" →
     Socket.returned_currentRoom s = Socket.rooms s !! rid) ∧
  (∀ s,
     Socket.currentRoom s = None ∨ Socket.currentRoom s = Some "" →
     Socket.returned_currentRoom s = None) ∧
  (∀ s (rid : string),
     Socket.currentRoom s = Some rid → Socket.rooms s !! rid = None →
     Socket.returned_currentRoom s = None) ∧
  (∀ captured (rid x now : string) h h' sent,
     Socket.joinRoom sessionId analytics captured rid x now h = Socket.Resolved h' sent →
     Socket.rooms (Socket.state h) !! rid = None →
     Socket.currentRoom (Socket.state h') = Some rid ∧
     Socket.rooms (Socket.state h') = Socket.rooms (Socket.state h) ∧
     Socket.returned_currentRoom (Socket.state h') = None).
Proof.
  split; [exact returned_currentRoom_set|].
  split; [|split; [exact returned_currentRoom_absent|]].
  - intros s [Hc|Hc]; unfold Socket.returned_currentRoom; by rewrite Hc.
  - intros captured rid x now h h' sent Hjoin Hroom.
    unfold Socket.joinRoom in Hjoin. case_bool_decide; [done|].
    injection Hjoin as <- _. simpl.
    split; [done|]. split; [done|].
    by apply (returned_currentRoom_absent _ rid).
Qed.

End Operations.

(** * Properties of the service *)
Section MonadFacts.

Import Service.

Implicit Types (s : Svc) (t : list Action).

Lemma after_nil {C} (x : Settled C * Svc * list Action) : after [] x = x.
Proof. by destruct x as [[? ?] ?]. Qed.

Lemma after_after t1 t2 {C} (x : Settled C * Svc * list Action) :
  after t1 (after t2 x) = after (t1 ++ t2) x.
Proof. destruct x as [[? ?] ?]. simpl. by rewrite app_assoc. Qed.

Lemma result_of_after t {C} (x : Settled C * Svc * list Action) :
  result_of (after t x) = result_of x.
Proof. by destruct x as [[? ?] ?]. Qed.

Lemma fields_of_after t {C} (x : Settled C * Svc * list Action) :
  fields_of (after t x) = fields_of x.
Proof. by destruct x as [[? ?] ?]. Qed.

Lemma trace_of_after t {C} (x : Settled C * Svc * list Action) :
  trace_of (after t x) = t ++ trace_of x.
Proof. by destruct x as [[? ?] ?]. Qed.

Context {A B : Type}.

Lemma bind_returned (m : M A) (k : A → M B) s a s1 t1 :
  m s = (Returned a, s1, t1) → bind m k s = after t1 (k a s1).
Proof. intros Hm. unfold bind. by rewrite Hm. Qed.

Lemma bind_thrown (m : M A) (k : A → M B) s msg s1 t1 :
  m s = (Thrown msg, s1, t1) → bind m k s = (Thrown msg, s1, t1).
Proof. intros Hm. unfold bind. by rewrite Hm. Qed.

Lemma bind_act (a : Action) (k : M B) s :
  bind (act a) (λ _, k) s = after [a] (k s).
Proof. done. Qed.

Lemma bind_update (f : Svc → Svc) (k : M B) s :
  bind (update f) (λ _, k) s = k (f s).
Proof. unfold bind, update. cbn. apply after_nil. Qed.

(** A [try] block whose first statement returns: the handler guards
    the rest. *)
Lemma try_catch_bind (m : M A) (k : A → M B) (handler : string → M B) s a s1 t1 :
  m s = (Returned a, s1, t1) →
  try_catch (bind m k) handler s = after t1 (try_catch (k a) handler s1).
Proof.
  intros Hm. unfold try_catch, bind. rewrite Hm.
  destruct (k a s1) as [[[b|msg] s2] t2]; simpl; [done|].
  by rewrite after_after.
Qed.

Lemma try_catch_after (m : M B) (handler : string → M B) s t (k : M B) :
  m s = after t (k s) →
  try_catch m handler s = after t (try_catch k handler s).
Proof.
  intros Hm. unfold try_catch. rewrite Hm.
  destruct (k s) as [[[b|msg] s2] t2]; simpl; [done|].
  by rewrite after_after.
Qed.

End MonadFacts.

Section CreateRoom.

Import Service.

Implicit Types (w : World) (s : Svc) (roomConfig : CreateRoomConfig)
  (sessionId : string).

Lemma truthy_false_iff (x : string) : Js.truthy x = false ↔ x = "".
Proof.
  unfold Js.truthy. rewrite bool_decide_eq_false. split.
  - intros H. destruct (decide (x = "")); [done | contradiction].
  - intros -> H. by apply H.
Qed.

Lemma validate_blank roomConfig s :
  Str.trim (cfg_name roomConfig) = "" →
  validate roomConfig s = (Thrown name_required, s, []).
Proof.
  intros Hb. unfold validate.
  apply truthy_false_iff in Hb. by rewrite Hb.
Qed.

Lemma validate_range roomConfig s :
  Str.trim (cfg_name roomConfig) ≠ "" →
  cfg_maxParticipants roomConfig < 2 ∨ 20 < cfg_maxParticipants roomConfig →
  validate roomConfig s = (Thrown out_of_range, s, []).
Proof.
  intros Hb Hr. unfold validate.
  rewrite truthy_true by done. simpl.
  destruct Hr.
  - by rewrite (bool_decide_eq_true_2 (_ < 2)).
  - rewrite (bool_decide_eq_true_2 (_ > 20)) by lia. by rewrite orb_true_r.
Qed.

Lemma validate_passes roomConfig s :
  Str.trim (cfg_name roomConfig) ≠ "" →
  2 ≤ cfg_maxParticipants roomConfig ≤ 20 →
  validate roomConfig s = (Returned tt, s, []).
Proof.
  intros Hb Hr. unfold validate.
  rewrite truthy_true by done. simpl.
  rewrite (bool_decide_eq_false_2 (_ < 2)) by lia.
  by rewrite (bool_decide_eq_false_2 (_ > 20)) by lia.
Qed.

(** A configuration that fails validation: nothing but the [catch]
    block runs. *)
Lemma createBreakoutRoom_invalid w sessionId roomConfig s msg :
  validate roomConfig s = (Thrown msg, s, []) →
  createBreakoutRoom w sessionId roomConfig s
    = (Returned (failed msg), s, [DebugBreakoutRoomPermissions sessionId]).
Proof.
  intros Hv. unfold createBreakoutRoom, try_catch, createBreakoutRoom_try.
  by rewrite (bind_thrown _ _ _ _ _ _ Hv).
Qed.

(** A configuration that passes it: the first thing done is the
    preflight. *)
Lemma createBreakoutRoom_valid w sessionId roomConfig s :
  validate roomConfig s = (Returned tt, s, []) →
  ∃ rest, trace_of (createBreakoutRoom w sessionId roomConfig s)
          = preflight sessionId ++ rest.
Proof.
  intros Hv. unfold createBreakoutRoom, createBreakoutRoom_try.
  rewrite (try_catch_bind _ _ _ _ _ _ _ Hv), after_nil.
  match goal with
  | |- context [try_catch (bind (act ?a) (λ _, bind (act ?b) (λ _, ?k))) ?hd s] =>
      rewrite (try_catch_after (bind (act a) (λ _, bind (act b) (λ _, k))) hd s
                 [a; b] k)
  end.
  - rewrite trace_of_after. by eexists.
  - rewrite !bind_act, after_after. done.
Qed.

(** C5.  [createBreakoutRoom] checks the configuration before it does
    anything else.  A name that is blank (empty once trimmed) or a
    capacity outside 2..20 ends the call with a validation error as its
    result, the method having sent nothing itself: no debug fetch, no
    permission check, no socket message, no REST request; only the
    [catch] block's debug analysis runs.  A non-blank name with a capacity in 2..20 passes, and
    the preflight requests follow.  So capacity 1 and capacity 21 fail,
    capacity 6 with a non-blank name passes. *)
Theorem C5_validation_comes_before_any_request w sessionId roomConfig s :
  (Str.trim (cfg_name roomConfig) = "" ∨
   cfg_maxParticipants roomConfig < 2 ∨ 20 < cfg_maxParticipants roomConfig →
   ∃ msg,
     (msg = name_required ∨ msg = out_of_range) ∧
     createBreakoutRoom w sessionId roomConfig s
       = (Returned (failed msg), s, [DebugBreakoutRoomPermissions sessionId]) ∧
     Forall (λ a, is_own_request a = false)
            (trace_of (createBreakoutRoom w sessionId roomConfig s))) ∧
  (cfg_maxParticipants roomConfig = 1 ∨ cfg_maxParticipants roomConfig = 21 →
   ∃ msg,
     createBreakoutRoom w sessionId roomConfig s
       = (Returned (failed msg), s, [DebugBreakoutRoomPermissions sessionId])) ∧
  (Str.trim (cfg_name roomConfig) ≠ "" →
   2 ≤ cfg_maxParticipants roomConfig ≤ 20 →
   validate roomConfig s = (Returned tt, s, []) ∧
   ∃ rest, trace_of (createBreakoutRoom w sessionId roomConfig s)
           = preflight sessionId ++ rest) ∧
  (Str.trim (cfg_name roomConfig) ≠ "" → cfg_maxParticipants roomConfig = 6 →
   validate roomConfig s = (Returned tt, s, [])).
Proof.
  assert (Str.trim (cfg_name roomConfig) = "" ∨
          cfg_maxParticipants roomConfig < 2 ∨ 20 < cfg_maxParticipants roomConfig →
          ∃ msg, (msg = name_required ∨ msg = out_of_range) ∧
                 validate roomConfig s = (Thrown msg, s, [])) as Hfail.
  { intros Hbad.
    destruct (decide (Str.trim (cfg_name roomConfig) = "")) as [Hb|Hb].
    - exists name_required. split; [by left | by apply validate_blank].
    - exists out_of_range. split; [by right|].
      apply validate_range; [done|]. destruct Hbad as [?|?]; [done | tauto]. }
  split; [|split; [|split]].
  - intros Hbad. destruct (Hfail Hbad) as (msg & Hmsg & Hv).
    exists msg. split; [done|].
    rewrite (createBreakoutRoom_invalid w sessionId roomConfig s msg Hv).
    split; [done|]. unfold trace_of. simpl. by repeat constructor.
  - intros Hcap.
    destruct Hfail as (msg & _ & Hv); [right; lia|].
    exists msg. by apply createBreakoutRoom_invalid.
  - intros Hb Hr. split; [by apply validate_passes|].
    apply createBreakoutRoom_valid. by apply validate_passes.
  - intros Hb Hr. apply validate_passes; [done | lia].
Qed.
(** *** The acknowledgment wait *)

Lemma settle_skip sessionId roomConfig pre rest :
  Forall (ignored sessionId roomConfig) pre →
  settle sessionId roomConfig (pre ++ rest) = settle sessionId roomConfig rest.
Proof.
  induction 1 as [|[t d] pre [Ht Hd] _ IH]; [done|].
  simpl in *. rewrite bool_decide_eq_false_2 by lia.
  destruct d as [sid r|msg]; [|done]. by rewrite Hd.
Qed.

Lemma settle_created sessionId roomConfig t r rest s :
  t < ack_timeout → name r = cfg_name roomConfig →
  settle sessionId roomConfig
    ((t, breakout_room_created (Some sessionId) (Some r)) :: rest) s
  = (Returned (succeeded (Some r)), s, ack_closing).
Proof.
  intros Ht Hn. simpl. rewrite bool_decide_eq_false_2 by lia.
  unfold matches. simpl. rewrite Hn.
  by rewrite !bool_decide_eq_true_2.
Qed.

Lemma settle_error sessionId roomConfig t msg rest s :
  t < ack_timeout →
  settle sessionId roomConfig ((t, breakout_room_create_error msg) :: rest) s
  = (Returned (failed (Js.or_str msg "Server reported creation error")), s, ack_closing).
Proof. intros Ht. simpl. by rewrite bool_decide_eq_false_2 by lia. Qed.

Lemma settle_timeout sessionId roomConfig post s :
  post = [] ∨ (∃ t d post', post = (t, d) :: post' ∧ ack_timeout ≤ t) →
  settle sessionId roomConfig post s = (Returned (failed timed_out), s, timeout_closing).
Proof.
  intros [->|(t & d & post' & -> & Ht)]; [done|].
  simpl. by rewrite bool_decide_eq_true_2.
Qed.

(** With a valid configuration, the permission granted and the socket
    up, [createBreakoutRoom] is the preflight, the opening of the wait,
    and then whatever the settled promise leads to. *)
Lemma createBreakoutRoom_socket_path w sessionId roomConfig s :
  Str.trim (cfg_name roomConfig) ≠ "" →
  2 ≤ cfg_maxParticipants roomConfig ≤ 20 →
  permission_valid w = true → socket_connected w = true →
  createBreakoutRoom w sessionId roomConfig s
  = after (preflight sessionId ++ ack_opening sessionId roomConfig)
      (try_catch
         (result <~ settle sessionId roomConfig (inbound w) ;;
          if success result then ret (succeeded (room result))
          else createRoomViaAPI w sessionId roomConfig)
         (createBreakoutRoom_catch sessionId)
         (created_now (clock w) s)).
Proof.
  intros Hb Hr Hperm Hconn.
  unfold createBreakoutRoom, createBreakoutRoom_try.
  rewrite (try_catch_bind _ _ _ _ _ _ _ (validate_passes roomConfig s Hb Hr)), after_nil.
  rewrite Hperm, Hconn. simpl negb. cbv iota.
  unfold awaitAck.
  generalize (createRoomViaAPI w sessionId roomConfig) as rest_path.
  generalize (settle sessionId roomConfig (inbound w)) as pending.
  intros pending rest_path.
  unfold try_catch, bind, act, update. cbn.
  destruct (pending (created_now (clock w) s)) as [[[res|msg] s1] t1]; cbn; [|done].
  destruct (success res); cbn; [done|].
  destruct (rest_path s1) as [[[res'|msg'] s2] t2]; cbn; [|done].
  by rewrite ?app_nil_r.
Qed.

(** The REST path begins with the backend adapter's request when the
    token is there and valid. *)
Lemma rest_path_begins w sessionId roomConfig s :
  Js.truthy_opt (authToken w) = true → tokenValid w = true →
  ∃ rest,
    trace_of (try_catch (createRoomViaAPI w sessionId roomConfig)
                (createBreakoutRoom_catch sessionId) s)
    = BackendCreate sessionId (cfg_name roomConfig) :: rest.
Proof.
  intros Htok Hval. unfold createRoomViaAPI. rewrite Htok, Hval. simpl negb. cbv iota.
  match goal with
  | |- context [try_catch (bind (act ?a) (λ _, ?k)) ?hd] =>
      generalize k as continue; intros continue
  end.
  unfold try_catch, bind, act. cbn.
  destruct (continue s) as [[[res|msg] s1] t1]; cbn; by eexists.
Qed.

(** C6.  With a valid configuration, the permission granted and the
    socket connected, [createBreakoutRoom] arms an 8000 ms timer, listens on
    the two channels and sends the create request.  The deliveries that come
    before the timer and are neither an error nor a [breakout_room_created]
    for this session and this room name leave it waiting.  Then:
    - a [breakout_room_created] for this session and this room name, before
      the timer, makes the result a success with the room the server sent, and
      no REST request was made;
    - an error event before the timer, or the timer firing first, makes the
      call go on with the REST path: its result is the REST path's (a thrown
      error turned into an error result by the [catch] block), and with a valid
      token the first thing the REST path does is the backend adapter's
      request. *)
Theorem C6_socket_ack_then_rest_fallback w sessionId roomConfig s pre post :
  Str.trim (cfg_name roomConfig) ≠ "" →
  2 ≤ cfg_maxParticipants roomConfig ≤ 20 →
  permission_valid w = true → socket_connected w = true →
  inbound w = pre ++ post →
  Forall (ignored sessionId roomConfig) pre →
  ack_timeout = 8000 ∧
  (∀ t r post',
     post = (t, breakout_room_created (Some sessionId) (Some r)) :: post' →
     t < ack_timeout → name r = cfg_name roomConfig →
     createBreakoutRoom w sessionId roomConfig s
       = (Returned (succeeded (Some r)), created_now (clock w) s,
          preflight sessionId ++ ack_opening sessionId roomConfig ++ ack_closing) ∧
     Forall (λ a, is_rest a = false)
            (trace_of (createBreakoutRoom w sessionId roomConfig s))) ∧
  (∀ t msg post',
     post = (t, breakout_room_create_error msg) :: post' →
     t < ack_timeout →
     createBreakoutRoom w sessionId roomConfig s
       = after (preflight sessionId ++ ack_opening sessionId roomConfig ++ ack_closing)
           (try_catch (createRoomViaAPI w sessionId roomConfig)
              (createBreakoutRoom_catch sessionId) (created_now (clock w) s))) ∧
  (post = [] ∨ (∃ t d post', post = (t, d) :: post' ∧ ack_timeout ≤ t) →
     createBreakoutRoom w sessionId roomConfig s
       = after (preflight sessionId ++ ack_opening sessionId roomConfig ++ timeout_closing)
           (try_catch (createRoomViaAPI w sessionId roomConfig)
              (createBreakoutRoom_catch sessionId) (created_now (clock w) s))) ∧
  (Js.truthy_opt (authToken w) = true → tokenValid w = true →
   ∃ rest,
     trace_of (try_catch (createRoomViaAPI w sessionId roomConfig)
                 (createBreakoutRoom_catch sessionId) (created_now (clock w) s))
     = BackendCreate sessionId (cfg_name roomConfig) :: rest).
Proof.
  intros Hb Hr Hperm Hconn Hin Hpre.
  pose proof (createBreakoutRoom_socket_path w sessionId roomConfig s Hb Hr Hperm Hconn) as Hpath.
  rewrite Hin, (settle_skip _ _ _ _ Hpre) in Hpath.
  split; [done|]. split; [|split; [|split]].
  - intros t r post' -> Ht Hn.
    assert (createBreakoutRoom w sessionId roomConfig s
            = (Returned (succeeded (Some r)), created_now (clock w) s,
               preflight sessionId ++ ack_opening sessionId roomConfig ++ ack_closing)) as Heq.
    { rewrite Hpath.
      rewrite (try_catch_bind _ _ _ _ _ _ _
                 (settle_created sessionId roomConfig t r post' _ Ht Hn)).
      done. }
    split; [done|]. rewrite Heq. unfold trace_of. simpl. by repeat constructor.
  - intros t msg post' -> Ht. rewrite Hpath.
    rewrite (try_catch_bind _ _ _ _ _ _ _
               (settle_error sessionId roomConfig t msg post' _ Ht)).
    simpl success. cbv iota. by rewrite after_after, <- app_assoc.
  - intros Hto. rewrite Hpath.
    rewrite (try_catch_bind _ _ _ _ _ _ _
               (settle_timeout sessionId roomConfig post _ Hto)).
    simpl success. cbv iota. by rewrite after_after, <- app_assoc.
  - apply rest_path_begins.
Qed.

(** *** The REST path *)

Lemma try_catch_rethrow {A} (m : M A) s : try_catch m (λ msg, throw msg) s = m s.
Proof.
  unfold try_catch, throw. destruct (m s) as [[[a|msg] s1] t1]; [done|].
  simpl. by rewrite app_nil_r.
Qed.

(** One round of the polling loop, the token being valid: a list
    request, then either the match or a pause and the next round. *)
Lemma poll_round w sessionId room_name ms a rem s :
  Js.truthy_opt (authToken w) = true → tokenValid w = true →
  ∃ s1,
    (∀ r, found_at w room_name a = Some r →
          poll_from w sessionId room_name ms a (S rem) s
          = (Returned (Some r), s1, [ListRooms sessionId])) ∧
    (found_at w room_name a = None →
     poll_from w sessionId room_name ms a (S rem) s
     = after [ListRooms sessionId; Sleep ms]
         (poll_from w sessionId room_name ms (S a) rem s1)).
Proof.
  intros Htok Hval. simpl. unfold getBreakoutRooms, found_at.
  rewrite Htok, Hval. simpl andb. cbv iota.
  generalize (poll_from w sessionId room_name ms (S a) rem) as next. intros next.
  destruct (listResp w a) as [msg|[|] st tx rooms];
    unfold try_catch, bind, act, update, throw, ret; cbn.
  - exists s. split; [done|]. intros _.
    by destruct (next s) as [[? ?] ?].
  - exists (foldl (λ acc r, cache_set r acc) s rooms). split.
    + by intros r ->.
    + intros ->. by destruct (next _) as [[? ?] ?].
  - exists s. split; [done|]. intros _.
    by destruct (next s) as [[? ?] ?].
Qed.

Lemma poll_hit w sessionId room_name ms r (k : nat) : ∀ (a rem : nat) s,
  Js.truthy_opt (authToken w) = true → tokenValid w = true →
  (k < rem)%nat →
  (∀ j, (j < k)%nat → found_at w room_name (a + j) = None) →
  found_at w room_name (a + k) = Some r →
  ∃ s', poll_from w sessionId room_name ms a rem s
        = (Returned (Some r), s', poll_trace sessionId ms k ++ [ListRooms sessionId]).
Proof.
  induction k as [|k IH]; intros a rem s Htok Hval Hlt Hnone Hsome;
    (destruct rem as [|rem]; [lia|]);
    destruct (poll_round w sessionId room_name ms a rem s Htok Hval) as (s1 & Hhit & Hmiss).
  - rewrite Nat.add_0_r in Hsome. exists s1. by apply Hhit.
  - rewrite Hmiss by (rewrite <- (Nat.add_0_r a); apply Hnone; lia).
    destruct (IH (S a) rem s1 Htok Hval) as (s' & ->); [lia| | |].
    + intros j Hj. replace (S a + j)%nat with (a + S j)%nat by lia. apply Hnone. lia.
    + by replace (S a + k)%nat with (a + S k)%nat by lia.
    + by exists s'.
Qed.

Lemma poll_miss w sessionId room_name ms (rem : nat) : ∀ (a : nat) s,
  Js.truthy_opt (authToken w) = true → tokenValid w = true →
  (∀ j, (j < rem)%nat → found_at w room_name (a + j) = None) →
  ∃ s', poll_from w sessionId room_name ms a rem s
        = (Returned None, s', poll_trace sessionId ms rem).
Proof.
  induction rem as [|rem IH]; intros a s Htok Hval Hnone.
  - by exists s.
  - destruct (poll_round w sessionId room_name ms a rem s Htok Hval) as (s1 & _ & Hmiss).
    rewrite Hmiss by (rewrite <- (Nat.add_0_r a); apply Hnone; lia).
    destruct (IH (S a) s1 Htok Hval) as (s' & ->).
    + intros j Hj. replace (S a + j)%nat with (a + S j)%nat by lia. apply Hnone. lia.
    + by exists s'.
Qed.

(** When the backend adapter fails and the API service fails with an
    error that mentions 404, the REST path is the two requests and then
    the legacy route. *)
Lemma createRoomViaAPI_404 w sessionId roomConfig s e :
  Js.truthy_opt (authToken w) = true → tokenValid w = true →
  success (backendRes w) = false ∨ room (backendRes w) = None →
  success (apiRes w) = false →
  error (apiRes w) = Some e → Str.test_404 e = true →
  createRoomViaAPI w sessionId roomConfig s
  = after [BackendCreate sessionId (cfg_name roomConfig);
           ApiCreate sessionId (cfg_name roomConfig)]
      (legacy_create w sessionId roomConfig s).
Proof.
  intros Htok Hval Hback Hapi Herr H404. unfold createRoomViaAPI.
  rewrite Htok, Hval. change (negb true) with false. cbv iota.
  rewrite try_catch_rethrow, bind_act.
  destruct (success (backendRes w)) eqn:Hs, (room (backendRes w)) eqn:Hr;
    try (destruct Hback; congruence);
    rewrite bind_act, Hapi, Herr, H404, after_after; done.
Qed.

(** C7.  On the REST path, with a valid token, when the backend
    adapter's request fails and the API service's request fails with an
    error that mentions 404 (or "Not Found"):
    - the legacy POST is made before any error comes out of the path;
    - if it answers ok, the result is a success with the room of its body;
    - if it answers with an error status, the room list is requested up to 6
      times, with a 1000 ms pause after each request that does not show a room
      of the wanted name; the first such room makes the result a success with
      that room, which is also put in the cache;
    - if none of the 6 requests shows one, the path throws the legacy
      answer's HTTP error;
    - if the legacy request gets no response (the fetch itself is
      rejected), that error is thrown at once: the room list is not
      requested and the instance is left as it was. *)
Theorem C7_legacy_route_then_poll_for_room w sessionId roomConfig s e :
  Js.truthy_opt (authToken w) = true → tokenValid w = true →
  success (backendRes w) = false ∨ room (backendRes w) = None →
  success (apiRes w) = false →
  error (apiRes w) = Some e → Str.test_404 e = true →
  let opening := [BackendCreate sessionId (cfg_name roomConfig);
                  ApiCreate sessionId (cfg_name roomConfig);
                  LegacyPost sessionId (cfg_name roomConfig)] in
  (∃ rest, trace_of (createRoomViaAPI w sessionId roomConfig s) = opening ++ rest) ∧
  (∀ st tx body,
     legacyResp w = Response true st tx body →
     result_of (createRoomViaAPI w sessionId roomConfig s) = Returned (succeeded body) ∧
     trace_of (createRoomViaAPI w sessionId roomConfig s) = opening) ∧
  (∀ st tx body (k : nat) r,
     legacyResp w = Response false st tx body →
     (k < 6)%nat →
     (∀ j, (j < k)%nat → found_at w (cfg_name roomConfig) j = None) →
     found_at w (cfg_name roomConfig) k = Some r →
     result_of (createRoomViaAPI w sessionId roomConfig s) = Returned (succeeded (Some r)) ∧
     trace_of (createRoomViaAPI w sessionId roomConfig s)
       = opening ++ poll_trace sessionId 1000 k ++ [ListRooms sessionId] ∧
     roomCache (fields_of (createRoomViaAPI w sessionId roomConfig s)) !! id r = Some r) ∧
  (∀ st tx body,
     legacyResp w = Response false st tx body →
     (∀ j, (j < 6)%nat → found_at w (cfg_name roomConfig) j = None) →
     result_of (createRoomViaAPI w sessionId roomConfig s) = Thrown (http_error st tx) ∧
     trace_of (createRoomViaAPI w sessionId roomConfig s)
       = opening ++ poll_trace sessionId 1000 6) ∧
  (∀ msg,
     legacyResp w = Rejected msg →
     createRoomViaAPI w sessionId roomConfig s = (Thrown msg, s, opening)).
Proof.
  intros Htok Hval Hback Hapi Herr H404 opening.
  rewrite (createRoomViaAPI_404 w sessionId roomConfig s e) by done.
  unfold legacy_create. rewrite bind_act, after_after.
  change ([BackendCreate sessionId (cfg_name roomConfig);
           ApiCreate sessionId (cfg_name roomConfig)]
          ++ [LegacyPost sessionId (cfg_name roomConfig)]) with opening.
  split; [|split; [|split; [|split]]].
  - rewrite trace_of_after. by eexists.
  - intros st tx body ->. rewrite result_of_after, trace_of_after.
    unfold cache_if_id.
    destruct body as [r|]; [destruct (Js.truthy (id r))|];
      cbn; by rewrite ?app_nil_r.
  - intros st tx body k r -> Hk Hnone Hsome.
    destruct (poll_hit w sessionId (cfg_name roomConfig) 1000 r k 0 6 s)
      as (s' & Hpoll); try done.
    rewrite result_of_after, trace_of_after, fields_of_after.
    unfold pollForRoomByName.
    rewrite (bind_returned _ _ _ _ _ _ Hpoll).
    rewrite result_of_after, trace_of_after, fields_of_after.
    cbn. rewrite ?app_nil_r. repeat split; try done.
    apply lookup_insert_eq.
  - intros st tx body -> Hnone.
    destruct (poll_miss w sessionId (cfg_name roomConfig) 1000 6 0 s)
      as (s' & Hpoll); try done.
    rewrite result_of_after, trace_of_after.
    unfold pollForRoomByName.
    rewrite (bind_returned _ _ _ _ _ _ Hpoll).
    rewrite result_of_after, trace_of_after.
    cbn. by rewrite ?app_nil_r.
  - intros msg ->. unfold after, throw. by rewrite app_nil_r.
Qed.

End CreateRoom.

(** * The statements on the sample data *)
Section Instances.

Import Samples.

(** The keys of the sample notifications are pairwise distinct. *)
Lemma ticks_distinct n : NoDup (Socket.eventKey <$> ticks n).
Proof.
  unfold ticks. rewrite <- list_fmap_compose.
  apply NoDup_fmap_2; [|apply NoDup_seq].
  intros i j Heq. unfold compose, Socket.eventKey, tick in Heq. simpl in Heq.
  simplify_eq. by apply (inj pretty).
Qed.

Lemma C1_duplicate_delivery_witness :
  Socket.processEvent true alice_left (Socket.processEvent true alice_left with_lounge)
    = Socket.processEvent true alice_left with_lounge ∧
  Socket.processEvent true lounge_created with_lounge = with_lounge.
Proof.
  destruct (C1_duplicate_delivery_is_dropped true) as (Htwice & Hseen & _).
  split; [apply Htwice|].
  apply Hseen. vm_compute. left.
Defined.

Lemma C2_participant_left_witness :
  ∃ room',
    Socket.rooms (Socket.state (Socket.processEvent true alice_left with_lounge)) !! "r1"
      = Some room' ∧
    Socket.currentParticipants room' = 2 ∧
    Socket.participants room' = [bob_entry] ∧
    Socket.st_participants (Socket.state (Socket.processEvent true alice_left with_lounge))
      !! "p1" = None.
Proof.
  destruct (C2_participant_left_decrements_and_removes true alice_left with_lounge
              "r1" "p1" lounge)
    as (room' & Hroom & Hocc & Hroster & _ & Hgone).
  - reflexivity.
  - reflexivity.
  - discriminate.
  - reflexivity.
  - discriminate.
  - compute_done.
  - vm_compute. reflexivity.
  - exists room'. split; [exact Hroom|]. split; [rewrite Hocc; reflexivity|].
    split; [rewrite Hroster; reflexivity | exact Hgone].
Defined.

Lemma C3_zero_count_witness :
  ∃ room',
    Socket.rooms (Socket.state (Socket.processEvent true alice_updated_zero with_lounge)) !! "r1"
      = Some room' ∧
    Socket.currentParticipants room' = 3.
Proof.
  destruct (C3_zero_count_keeps_local_occupancy true alice_updated_zero with_lounge
              "r1" alice lounge)
    as (room' & Hroom & Hocc & _).
  - right. reflexivity.
  - reflexivity.
  - reflexivity.
  - discriminate.
  - compute_done.
  - vm_compute. reflexivity.
  - reflexivity.
  - discriminate.
  - exists room'. split; [exact Hroom|]. rewrite Hocc. reflexivity.
Defined.

Lemma C4_dedup_memory_witness :
  (length (Socket.eventHandlers with_lounge) ≤ 1000)%nat ∧
  length (Socket.eventHandlers (Socket.processEvents true (ticks 1001) mounted)) = 501%nat.
Proof.
  destruct (C4_dedup_memory_is_capped true) as (Hcap & _ & Hscenario).
  split.
  - apply Hcap. apply Socket.reach_event, Socket.reach_initial.
  - apply (Hscenario (ticks 1001) "2024-01-01T00:00:00.000Z").
    + apply ticks_distinct.
    + unfold ticks. rewrite length_fmap, length_seq. reflexivity.
Defined.

Lemma C9_replay_witness :
  Socket.state
    (Socket.processEvents true [lounge_created; alice_left; lounge_created]
       (Socket.clearCache
          (Socket.processEvents true [lounge_created; alice_left; lounge_created] mounted)))
  = Socket.state
      (Socket.processEvents true [lounge_created; alice_left; lounge_created] mounted).
Proof.
  destruct (C9_replay_after_clearCache_reproduces_projection true
              [lounge_created; alice_left; lounge_created] mounted)
    as (Hstate & _); [reflexivity | reflexivity | reflexivity | reflexivity |].
  exact Hstate.
Defined.

(** After a join request and an event, [clearCache] leaves the hook
    pointing at the room and dated by the event: the projection is not
    the empty one the hook started with. *)
Lemma C9_clearCache_keeps_pointer_and_timestamp :
  Socket.currentRoom (Socket.state (Socket.clearCache in_lounge)) = Some "r1" ∧
  Socket.lastUpdate (Socket.state (Socket.clearCache in_lounge))
    = "2024-01-01T00:00:10.000Z" ∧
  Socket.state (Socket.clearCache in_lounge) ≠ Socket.state mounted.
Proof. split; [reflexivity|]. split; [reflexivity|]. discriminate. Qed.

Lemma C10_returned_currentRoom_witness :
  Socket.returned_currentRoom
    (Socket.state
       (Socket.sent_one true
          (Socket.set_state (Socket.set_currentRoom (Some "r1")) mounted)))
  = None.
Proof.
  destruct (C10_returned_currentRoom_is_lookup_or_null "s1" true) as (_ & _ & _ & Hjoin).
  apply (Hjoin Socket.connected "r1" "{}" "2024-01-01T00:00:40.000Z" mounted _ _ eq_refl).
  reflexivity.
Defined.

(** A name of one space is not empty, the capacity is 6, and yet
    validation fails: the name is blank. *)
Lemma C5_nonempty_blank_name_is_rejected :
  Service.cfg_name (settings " " 6) ≠ "" ∧
  Service.cfg_maxParticipants (settings " " 6) = 6 ∧
  Service.validate (settings " " 6) fresh_service
    = (Service.Thrown Service.name_required, fresh_service, []) ∧
  Service.createBreakoutRoom (flaky []) "s1" (settings " " 6) fresh_service
    = (Service.Returned (Service.failed Service.name_required), fresh_service,
       [Service.DebugBreakoutRoomPermissions "s1"]).
Proof.
  split; [discriminate|]. split; [reflexivity|].
  assert (Service.validate (settings " " 6) fresh_service
          = (Service.Thrown Service.name_required, fresh_service, [])) as Hv
    by (apply validate_blank; reflexivity).
  split; [exact Hv|]. by apply createBreakoutRoom_invalid.
Qed.

Lemma C5_validation_witness :
  (∃ msg,
     Service.createBreakoutRoom (flaky []) "s1" (settings "Lounge" 1) fresh_service
     = (Service.Returned (Service.failed msg), fresh_service,
        [Service.DebugBreakoutRoomPermissions "s1"])) ∧
  (∃ msg,
     Service.createBreakoutRoom (flaky []) "s1" (settings "Lounge" 21) fresh_service
     = (Service.Returned (Service.failed msg), fresh_service,
        [Service.DebugBreakoutRoomPermissions "s1"])) ∧
  Service.validate (settings "Lounge" 6) fresh_service
    = (Service.Returned tt, fresh_service, []).
Proof.
  split; [|split].
  - destruct (C5_validation_comes_before_any_request (flaky []) "s1"
                (settings "Lounge" 1) fresh_service) as (Hbad & _).
    destruct Hbad as (msg & _ & Heq & _); [right; left; reflexivity|].
    by exists msg.
  - destruct (C5_validation_comes_before_any_request (flaky []) "s1"
                (settings "Lounge" 21) fresh_service) as (Hbad & _).
    destruct Hbad as (msg & _ & Heq & _); [right; right; reflexivity|].
    by exists msg.
  - destruct (C5_validation_comes_before_any_request (flaky []) "s1"
                (settings "Lounge" 6) fresh_service) as (_ & _ & _ & Hsix).
    apply Hsix; [discriminate | reflexivity].
Defined.

(** The socket is connected and the configuration valid, but the
    permission check fails: the call ends there, with no create request
    on the socket and no REST request. *)
Lemma C6_permission_gate_ends_the_call :
  Service.socket_connected denied = true ∧
  Service.validate (settings "Lounge" 6) fresh_service
    = (Service.Returned tt, fresh_service, []) ∧
  Service.createBreakoutRoom denied "s1" (settings "Lounge" 6) fresh_service
    = (Service.Returned
         (Service.failed "Insufficient permissions to create breakout rooms"),
       fresh_service,
       [Service.FetchDebugPermissions "s1"; Service.ValidateSessionPermissions "s1";
        Service.DebugBreakoutRoomPermissions "s1"]).
Proof. split; [reflexivity|]. split; vm_compute; reflexivity. Qed.

Lemma C6_socket_ack_witness :
  Service.result_of
    (Service.createBreakoutRoom
       (flaky [(100, Service.breakout_room_created (Some "s1") (Some (served "Lounge")))])
       "s1" (settings "Lounge" 6) fresh_service)
  = Service.Returned (Service.succeeded (Some (served "Lounge"))) ∧
  Service.createBreakoutRoom (flaky []) "s1" (settings "Lounge" 6) fresh_service
  = Service.after
      (Service.preflight "s1" ++ Service.ack_opening "s1" (settings "Lounge" 6)
         ++ Service.timeout_closing)
      (Service.try_catch (Service.createRoomViaAPI (flaky []) "s1" (settings "Lounge" 6))
         (Service.createBreakoutRoom_catch "s1")
         (Service.created_now (Service.clock (flaky [])) fresh_service)).
Proof.
  split.
  - destruct (C6_socket_ack_then_rest_fallback
                (flaky [(100, Service.breakout_room_created (Some "s1")
                                (Some (served "Lounge")))])
                "s1" (settings "Lounge" 6) fresh_service []
                [(100, Service.breakout_room_created (Some "s1") (Some (served "Lounge")))])
      as (_ & Hcreated & _).
    + discriminate.
    + split; discriminate.
    + reflexivity.
    + reflexivity.
    + reflexivity.
    + constructor.
    + destruct (Hcreated 100 (served "Lounge") [] eq_refl) as [Heq _];
        [reflexivity | reflexivity |].
      rewrite Heq. reflexivity.
  - destruct (C6_socket_ack_then_rest_fallback (flaky []) "s1" (settings "Lounge" 6)
                fresh_service [] [])
      as (_ & _ & _ & Htimeout & _).
    + discriminate.
    + split; discriminate.
    + reflexivity.
    + reflexivity.
    + reflexivity.
    + constructor.
    + apply Htimeout. by left.
Defined.

Lemma C7_legacy_route_witness :
  Service.result_of
    (Service.createRoomViaAPI (flaky []) "s1" (settings "Lounge" 6) fresh_service)
  = Service.Returned (Service.succeeded (Some (served "Lounge"))) ∧
  Service.trace_of
    (Service.createRoomViaAPI (flaky []) "s1" (settings "Lounge" 6) fresh_service)
  = [Service.BackendCreate "s1" "Lounge"; Service.ApiCreate "s1" "Lounge";
     Service.LegacyPost "s1" "Lounge";
     Service.ListRooms "s1"; Service.Sleep 1000;
     Service.ListRooms "s1"; Service.Sleep 1000;
     Service.ListRooms "s1"].
Proof.
  destruct (C7_legacy_route_then_poll_for_room (flaky []) "s1" (settings "Lounge" 6)
              fresh_service "Request failed with status code 404")
    as (_ & _ & Hpoll & _).
  - reflexivity.
  - reflexivity.
  - left. reflexivity.
  - reflexivity.
  - reflexivity.
  - vm_compute. reflexivity.
  - destruct (Hpoll 500 "Internal Server Error" None 2%nat (served "Lounge") eq_refl)
      as (Hres & Htrace & _).
    + lia.
    + intros j Hj. destruct j as [|[|j]]; [reflexivity | reflexivity | lia].
    + vm_compute. reflexivity.
    + split; [exact Hres | exact Htrace].
Defined.

(** The primary endpoint reports 404 and the legacy attempt fails, the
    request getting no response; a room of the wanted name is on the
    room list from the first request on.  The path throws the request's
    error after the legacy POST: the room list is never requested and
    the room's presence is not turned into a success. *)
Lemma C7_rejected_legacy_request_is_not_polled :
  Str.test_404 "Request failed with status code 404" = true ∧
  Service.legacyResp Fixtures.unreachable_legacy = Service.Rejected "Failed to fetch" ∧
  Service.found_at Fixtures.unreachable_legacy "Lounge" 0 = Some (served "Lounge") ∧
  Service.createRoomViaAPI Fixtures.unreachable_legacy "s1" (settings "Lounge" 6) fresh_service
  = (Service.Thrown "Failed to fetch", fresh_service,
     [Service.BackendCreate "s1" "Lounge"; Service.ApiCreate "s1" "Lounge";
      Service.LegacyPost "s1" "Lounge"]) ∧
  Service.ListRooms "s1"
  ∉ Service.trace_of
      (Service.createRoomViaAPI Fixtures.unreachable_legacy "s1" (settings "Lounge" 6)
         fresh_service).
Proof.
  assert (Service.createRoomViaAPI Fixtures.unreachable_legacy "s1" (settings "Lounge" 6)
            fresh_service
          = (Service.Thrown "Failed to fetch", fresh_service,
             [Service.BackendCreate "s1" "Lounge"; Service.ApiCreate "s1" "Lounge";
              Service.LegacyPost "s1" "Lounge"])) as Hrun
    by (vm_compute; reflexivity).
  split; [vm_compute; reflexivity|]. split; [reflexivity|].
  split; [vm_compute; reflexivity|]. split; [exact Hrun|].
  rewrite Hrun. simpl. intros Hin.
  repeat (apply elem_of_cons in Hin as [Hin|Hin]; [discriminate|]).
  by apply elem_of_nil in Hin.
Qed.

End Instances.

(** * More on the reducer *)
Section ReducerKinds.

Variable analytics : bool.

Abbreviation processEvent := (Socket.processEvent analytics).
Abbreviation processEvents := (Socket.processEvents analytics).

Implicit Types (e : Socket.SocketBreakoutEvent) (h : Socket.Hook)
  (es : list Socket.SocketBreakoutEvent).

Lemma elem_of_remember (x k : string) (m : list string) :
  x ∈ Socket.remember k m → x ∈ m ∨ x = k.
Proof.
  unfold Socket.remember, KeyMap.set. intros Hx.
  assert (x ∈ (if KeyMap.has k m then m else m ++ [k])) as Hin.
  { case_bool_decide; [|done]. by apply elem_of_delete_all in Hx as [? _]. }
  destruct (KeyMap.has k m); [by left|].
  apply elem_of_app in Hin as [?|Hin]; [by left|].
  right. by apply list_elem_of_singleton in Hin.
Qed.

(** The memory only ever gains the key of the event it is given. *)
Lemma unseen_stays_unseen (k : string) e h :
  k ∉ Socket.eventHandlers h → k ≠ Socket.eventKey e →
  k ∉ Socket.eventHandlers (processEvent e h).
Proof.
  intros Hk Hne.
  destruct (decide (Socket.eventKey e ∈ Socket.eventHandlers h)) as [Hin|Hout].
  - by rewrite processEvent_seen.
  - rewrite processEvent_fresh by done. simpl.
    intros Hin. by apply elem_of_remember in Hin as [?|?].
Qed.

Lemma unseen_after_others (k : string) es : ∀ h,
  k ∉ Socket.eventHandlers h → k ∉ (Socket.eventKey <$> es) →
  k ∉ Socket.eventHandlers (processEvents es h).
Proof.
  induction es as [|e es IH]; intros h Hk Hes; [done|].
  rewrite fmap_cons in Hes. apply not_elem_of_cons in Hes as [Hne Hes].
  unfold Socket.processEvents in *. simpl.
  apply IH; [|done]. by apply unseen_stays_unseen.
Qed.

(** Whatever was fed before, a room event whose key was not yet seen
    makes its payload the entry of that room: the last write wins. *)
Theorem room_event_last_write_wins es e h (room : Socket.BreakoutRoom) :
  Socket.type e = Socket.room_created ∨ Socket.type e = Socket.room_updated →
  Socket.d_room (Socket.data e) = Some room →
  Socket.eventKey e ∉ Socket.eventHandlers h →
  Socket.eventKey e ∉ (Socket.eventKey <$> es) →
  Socket.rooms (Socket.state (processEvents (es ++ [e]) h)) !! Socket.id room = Some room ∧
  (∀ rid, rid ≠ Socket.id room →
     Socket.rooms (Socket.state (processEvents (es ++ [e]) h)) !! rid
     = Socket.rooms (Socket.state (processEvents es h)) !! rid) ∧
  Socket.st_participants (Socket.state (processEvents (es ++ [e]) h))
    = Socket.st_participants (Socket.state (processEvents es h)) ∧
  Socket.lastUpdate (Socket.state (processEvents (es ++ [e]) h)) = Socket.timestamp e.
Proof.
  intros Hty Hroom Hh Hes.
  rewrite processEvents_snoc.
  rewrite processEvent_fresh by (by apply unseen_after_others).
  simpl. unfold Socket.fold_event.
  destruct Hty as [-> | ->]; rewrite Hroom; simpl;
    (split; [apply lookup_insert_eq|]);
    (split; [intros rid Hne; by apply lookup_insert_ne|done]).
Qed.

(** A first-seen [room_deleted] event removes the room and nothing
    else: the other rooms stay, the pointer is cleared exactly when it
    pointed at that room, and the participants map keeps every entry,
    those of the deleted room's occupants included. *)
Theorem room_deleted_removes_only_the_room e h (rid : string) :
  Socket.type e = Socket.room_deleted →
  Socket.roomId e = Some rid → rid ≠ "" →
  Socket.eventKey e ∉ Socket.eventHandlers h →
  Socket.rooms (Socket.state (processEvent e h)) = delete rid (Socket.rooms (Socket.state h)) ∧
  Socket.st_participants (Socket.state (processEvent e h))
    = Socket.st_participants (Socket.state h) ∧
  Socket.currentRoom (Socket.state (processEvent e h))
    = (if decide (Socket.currentRoom (Socket.state h) = Some rid)
       then None else Socket.currentRoom (Socket.state h)).
Proof.
  intros Hty Hrid Hne Hfresh.
  rewrite processEvent_fresh by done. simpl.
  unfold Socket.fold_event. rewrite Hty, Hrid, truthy_true by done. simpl.
  destruct (decide (Socket.currentRoom (Socket.state h) = Some rid)) as [Heq|Hneq].
  - by rewrite bool_decide_eq_true_2.
  - by rewrite bool_decide_eq_false_2.
Qed.

(** The three notification kinds only move the last-update timestamp. *)
Theorem notification_events_only_touch_lastUpdate e h :
  Socket.type e = Socket.message_received ∨
  Socket.type e = Socket.moderation_action ∨
  Socket.type e = Socket.recording_status_changed →
  Socket.eventKey e ∉ Socket.eventHandlers h →
  Socket.state (processEvent e h)
    = Socket.set_lastUpdate (Socket.timestamp e) (Socket.state h).
Proof.
  intros Hty Hfresh. rewrite processEvent_fresh by done. simpl.
  unfold Socket.reduce, Socket.fold_event.
  by destruct Hty as [-> | [-> | ->]].
Qed.

(** A first-seen [room_status_changed] event rewrites the status of a
    room the projection holds and nothing else of it; for a room the
    projection does not hold it creates nothing. *)
Theorem room_status_changed_touches_status_only e h (rid : string) (st : Socket.RoomStatus) :
  Socket.type e = Socket.room_status_changed →
  Socket.roomId e = Some rid → rid ≠ "" →
  Socket.d_status (Socket.data e) = Some st →
  Socket.eventKey e ∉ Socket.eventHandlers h →
  (∀ room, Socket.rooms (Socket.state h) !! rid = Some room →
     Socket.rooms (Socket.state (processEvent e h))
       = <[rid := Socket.with_status room st]> (Socket.rooms (Socket.state h)) ∧
     Socket.currentParticipants (Socket.with_status room st) = Socket.currentParticipants room ∧
     Socket.participants (Socket.with_status room st) = Socket.participants room ∧
     Socket.name (Socket.with_status room st) = Socket.name room ∧
     Socket.status (Socket.with_status room st) = st) ∧
  (Socket.rooms (Socket.state h) !! rid = None →
     Socket.rooms (Socket.state (processEvent e h)) = Socket.rooms (Socket.state h)) ∧
  Socket.st_participants (Socket.state (processEvent e h))
    = Socket.st_participants (Socket.state h) ∧
  Socket.currentRoom (Socket.state (processEvent e h)) = Socket.currentRoom (Socket.state h).
Proof.
  intros Hty Hrid Hne Hst Hfresh.
  rewrite processEvent_fresh by done. simpl.
  unfold Socket.fold_event. rewrite Hty, Hrid, Hst, truthy_true by done.
  split; [|split].
  - intros room Hroom. by rewrite Hroom.
  - intros Hroom. by rewrite Hroom.
  - by destruct (Socket.rooms (Socket.state h) !! rid).
Qed.

(** Only [room_created] and [room_updated] add a room to the
    projection.  In particular a participant event for a room the
    projection does not hold records the participant and leaves the
    rooms map as it was. *)
Theorem only_room_events_add_rooms e h :
  Socket.type e ≠ Socket.room_created → Socket.type e ≠ Socket.room_updated →
  (∀ rid, is_Some (Socket.rooms (Socket.state (processEvent e h)) !! rid) →
          is_Some (Socket.rooms (Socket.state h) !! rid)) ∧
  (∀ (rid : string) (p : Socket.BreakoutParticipant),
     Socket.type e = Socket.participant_joined ∨ Socket.type e = Socket.participant_updated →
     Socket.d_participant (Socket.data e) = Some p →
     Socket.roomId e = Some rid → rid ≠ "" →
     Socket.eventKey e ∉ Socket.eventHandlers h →
     Socket.rooms (Socket.state h) !! rid = None →
     Socket.rooms (Socket.state (processEvent e h)) = Socket.rooms (Socket.state h) ∧
     Socket.st_participants (Socket.state (processEvent e h)) !! Socket.p_id p = Some p).
Proof.
  intros Hc Hu. split.
  - intros rid.
    destruct (decide (Socket.eventKey e ∈ Socket.eventHandlers h)) as [Hin|Hout].
    { by rewrite processEvent_seen. }
    rewrite processEvent_fresh by done. simpl.
    unfold Socket.fold_event.
    destruct (Socket.type e); try done; simpl;
      repeat case_match; simpl; try done;
      try (rewrite lookup_insert; case_decide; simplify_eq; by eauto).
    + rewrite lookup_delete. destruct (decide _); [by intros [? ?] | done].
    + rewrite lookup_delete. destruct (decide _); [by intros [? ?] | done].
    + match goal with
      | |- context [foldl Socket.assign_one ?s0 ?l] =>
          by destruct (assign_all_frame l s0) as (-> & _)
      end.
  - intros rid p Hty Hp Hrid Hne Hfresh Hroom.
    rewrite processEvent_fresh by done. simpl. unfold Socket.fold_event.
    destruct Hty as [-> | ->]; rewrite Hp, Hrid, truthy_true by done;
      simpl; rewrite Hroom; simpl; (split; [done | apply lookup_insert_eq]).
Qed.

(** The reducer never touches the connection status or the message
    queue, and it never points the hook at a room: after any sequence of
    events the current-room pointer is what it was, or null. *)
Theorem reducer_keeps_status_and_never_sets_pointer es h :
  Socket.connectionStatus (Socket.state (processEvents es h))
    = Socket.connectionStatus (Socket.state h) ∧
  Socket.messageQueue (Socket.state (processEvents es h))
    = Socket.messageQueue (Socket.state h) ∧
  Socket.eventBuffer (processEvents es h) = Socket.eventBuffer h ∧
  (Socket.currentRoom (Socket.state (processEvents es h)) = Socket.currentRoom (Socket.state h) ∨
   Socket.currentRoom (Socket.state (processEvents es h)) = None).
Proof.
  destruct (processEvents_frame analytics es h) as [Hc Hq].
  split; [done|]. split; [done|]. split; [|apply processEvents_currentRoom].
  revert h Hc Hq. induction es as [|e es IH]; intros h _ _; [done|].
  unfold Socket.processEvents in *. simpl.
  destruct (processEvents_frame analytics es (processEvent e h)) as [Hc Hq].
  rewrite (IH _ Hc Hq). unfold Socket.processEvent. by case_match.
Qed.

(** [auto_assignment_completed] leaves the rooms map alone, and every
    participant it records comes from an assignment whose room the
    projection holds. *)
Theorem auto_assignment_records_participants_of_known_rooms
    e h (assignments : list Socket.Assignment) :
  Socket.type e = Socket.auto_assignment_completed →
  Socket.d_assignments (Socket.data e) = Some assignments →
  Socket.eventKey e ∉ Socket.eventHandlers h →
  Socket.rooms (Socket.state (processEvent e h)) = Socket.rooms (Socket.state h) ∧
  (∀ k p,
     Socket.st_participants (Socket.state (processEvent e h)) !! k = Some p →
     Socket.st_participants (Socket.state h) !! k = Some p ∨
     ∃ a, a ∈ assignments ∧ Socket.a_participant a = Some p ∧ Socket.p_id p = k ∧
          is_Some (Socket.rooms (Socket.state h) !! Socket.a_roomId a)) ∧
  ((∀ a, a ∈ assignments → Socket.rooms (Socket.state h) !! Socket.a_roomId a = None) →
   Socket.st_participants (Socket.state (processEvent e h))
     = Socket.st_participants (Socket.state h)).
Proof.
  intros Hty Has Hfresh.
  rewrite processEvent_fresh by done. simpl.
  unfold Socket.fold_event. rewrite Hty, Has.
  generalize (Socket.state h) as s. clear. intros s.
  destruct (assign_all_frame assignments s) as (Hr & _).
  split; [done|]. clear Hr.
  revert s. induction assignments as [|a l IH]; intros s.
  { split; [by left | done]. }
  simpl. destruct (IH (Socket.assign_one s a)) as [IH1 IH2]. split.
  - intros k p Hk. destruct (IH1 k p Hk) as [Hold|(a' & Ha' & Hp & Hid & Hroom)].
    + unfold Socket.assign_one in Hold.
      destruct (Socket.rooms s !! Socket.a_roomId a) eqn:Hra;
        [destruct (Socket.a_participant a) as [q|] eqn:Hpa|]; simpl in Hold;
        try (by left).
      rewrite lookup_insert in Hold. case_decide; [|by left].
      simplify_eq. right. exists a. rewrite Hra. repeat split; [left|done|by eauto].
    + right. exists a'. repeat split; [by right|done..|].
      unfold Socket.assign_one in Hroom. by repeat case_match.
  - intros Hnone. rewrite IH2.
    + unfold Socket.assign_one. rewrite (Hnone a) by left. done.
    + intros a' Ha'. unfold Socket.assign_one.
      rewrite (Hnone a) by left. apply Hnone. by right.
Qed.

Lemma eventsReceived_step e h :
  Socket.eventsReceived (Socket.metrics (processEvent e h))
  = Socket.eventsReceived (Socket.metrics h)
    + (if analytics && negb (KeyMap.has (Socket.eventKey e) (Socket.eventHandlers h))
       then 1 else 0).
Proof.
  unfold Socket.processEvent.
  destruct (KeyMap.has _ _); simpl; [rewrite andb_false_r; lia|].
  destruct analytics; simpl; lia.
Qed.

(** The received-events counter counts the events that were folded,
    not the deliveries: it never moves by more than one per delivery,
    it does not move on a duplicate, it moves by exactly the number of
    events when their keys are new and pairwise distinct, and with
    analytics off the metrics never change. *)
Theorem eventsReceived_counts_folded_events es h :
  Socket.eventsReceived (Socket.metrics h)
    ≤ Socket.eventsReceived (Socket.metrics (processEvents es h))
    ≤ Socket.eventsReceived (Socket.metrics h) + Z.of_nat (length es) ∧
  (∀ e, Socket.eventsReceived (Socket.metrics (processEvent e (processEvent e h)))
        = Socket.eventsReceived (Socket.metrics (processEvent e h))) ∧
  (analytics = true →
   NoDup (Socket.eventKey <$> es) →
   (∀ e, e ∈ es → Socket.eventKey e ∉ Socket.eventHandlers h) →
   Socket.eventsReceived (Socket.metrics (processEvents es h))
   = Socket.eventsReceived (Socket.metrics h) + Z.of_nat (length es)) ∧
  (analytics = false → Socket.metrics (processEvents es h) = Socket.metrics h).
Proof.
  split; [|split; [|split]].
  - revert h. induction es as [|e es IH]; intros h; [simpl; lia|].
    unfold Socket.processEvents in *. simpl.
    specialize (IH (processEvent e h)). rewrite eventsReceived_step in IH.
    destruct (_ && _); lia.
  - intros e. rewrite eventsReceived_step.
    pose proof (processEvent_remembers analytics e h) as Hin.
    apply has_true in Hin. rewrite Hin, andb_false_r. lia.
  - intros Ha Hnd Hfresh. revert h Hfresh.
    induction es as [|e es IH]; intros h Hfresh; [simpl; lia|].
    rewrite fmap_cons in Hnd. apply NoDup_cons in Hnd as [Hne Hnd].
    unfold Socket.processEvents in *. simpl.
    rewrite IH; [|done|].
    + rewrite eventsReceived_step.
      assert (KeyMap.has (Socket.eventKey e) (Socket.eventHandlers h) = false) as ->
        by (apply has_false, Hfresh; left).
      rewrite Ha. simpl. lia.
    + intros e' He'. apply unseen_stays_unseen; [apply Hfresh; by right|].
      intros Heq. apply Hne. rewrite <- Heq. by apply list_elem_of_fmap_2.
  - intros Ha. revert h. induction es as [|e es IH]; intros h; [done|].
    unfold Socket.processEvents in *. simpl. rewrite IH.
    unfold Socket.processEvent. rewrite Ha. by case_match.
Qed.

(** What a fresh hook remembers after 1001 events with pairwise
    distinct keys. *)
Lemma memory_after_overflow es now :
  NoDup (Socket.eventKey <$> es) → length es = 1001%nat →
  Socket.eventHandlers (processEvents es (Socket.initial now))
  = drop 500 (Socket.eventKey <$> es).
Proof.
  intros Hnd Hlen.
  destruct es as [|e0 es0] using rev_ind; [done|]. clear IHes0.
  rewrite length_app in Hlen. simpl in Hlen.
  rewrite fmap_app in Hnd |- *. simpl in *.
  apply NoDup_app in Hnd as (Hnd0 & Hdisj & _).
  assert (Socket.eventHandlers (processEvents es0 (Socket.initial now))
          = Socket.eventKey <$> es0) as Hpre.
  { rewrite processEvents_distinct; simpl; [done..|unfold Socket.dedup_cap; lia]. }
  rewrite processEvents_snoc, processEvent_fresh; rewrite Hpre.
  - simpl. rewrite remember_fresh; [|done|].
    + rewrite length_fmap, bool_decide_eq_true_2; [done|].
      unfold Socket.dedup_cap. lia.
    + intros Hin. apply (Hdisj _ Hin). left.
  - intros Hin. apply (Hdisj _ Hin). left.
Qed.

(** The eviction makes the hook forget: after 1001 events with
    pairwise distinct keys, a second delivery of any of the 500 oldest
    is folded again, while a second delivery of any of the 501 newest is
    dropped. *)
Theorem evicted_events_are_folded_again es now e :
  NoDup (Socket.eventKey <$> es) → length es = 1001%nat →
  (e ∈ take 500 es →
   Socket.state (processEvent e (processEvents es (Socket.initial now)))
   = Socket.reduce e (Socket.state (processEvents es (Socket.initial now)))) ∧
  (e ∈ drop 500 es →
   processEvent e (processEvents es (Socket.initial now))
   = processEvents es (Socket.initial now)).
Proof.
  intros Hnd Hlen.
  pose proof (memory_after_overflow es now Hnd Hlen) as Hmem.
  split; intros He.
  - rewrite processEvent_fresh; [done|]. rewrite Hmem.
    rewrite <- (take_drop 500 es), fmap_app in Hnd.
    apply NoDup_app in Hnd as (_ & Hdisj & _).
    rewrite <- fmap_drop. apply Hdisj. by apply list_elem_of_fmap_2.
  - apply processEvent_seen. rewrite Hmem, <- fmap_drop.
    by apply list_elem_of_fmap_2.
Qed.

End ReducerKinds.

(** * Connection management *)
Section Connection.

Variable sessionId : string.

Implicit Types (h : Socket.Hook) (answer : option string).

(** [reconnect] ends in [connected] when the transport connects and in
    [error] when it does not, whatever the status was; either way the
    session is left and the socket closed before the 1000 ms pause, the
    session is joined only after a connect that succeeded, and nothing
    the hook has learnt is lost. *)
Theorem reconnect_outcome_and_order answer h :
  Conn.learnt (Conn.hook_of (Conn.reconnect sessionId answer h)) = Conn.learnt h ∧
  (answer = None →
   Conn.reconnect sessionId answer h
   = Conn.Fulfilled (Conn.hook_of (Conn.reconnect sessionId answer h))
       [Conn.emit_leave_breakout_session sessionId; Conn.socket_disconnect;
        Conn.pause 1000; Conn.socket_connect;
        Conn.emit_join_breakout_session sessionId] ∧
   Socket.connectionStatus (Socket.state (Conn.hook_of (Conn.reconnect sessionId answer h)))
     = Socket.connected) ∧
  (∀ msg, answer = Some msg →
   Conn.reconnect sessionId answer h
   = Conn.RejectedWith msg (Conn.hook_of (Conn.reconnect sessionId answer h))
       [Conn.emit_leave_breakout_session sessionId; Conn.socket_disconnect;
        Conn.pause 1000; Conn.socket_connect] ∧
   Socket.connectionStatus (Socket.state (Conn.hook_of (Conn.reconnect sessionId answer h)))
     = Socket.error).
Proof.
  split; [by destruct answer|]. split.
  - by intros ->.
  - by intros msg ->.
Qed.

(** The initialising effect connects at most once: with an empty
    session identifier it never touches the transport, and once it has
    run with a session identifier a later run does nothing, even if the
    first connect failed. *)
Theorem mount_connects_at_most_once answer answer' (m : Conn.Mounted) :
  (sessionId = "" → Conn.mount sessionId answer m = (m, [])) ∧
  Conn.mount sessionId answer' (Conn.mount sessionId answer m).1
    = ((Conn.mount sessionId answer m).1, []) ∧
  (sessionId ≠ "" → Conn.isInitialized m = false →
   Conn.isInitialized (Conn.mount sessionId answer m).1 = true ∧
   (Conn.mount sessionId answer m).2
     = Conn.did_of (Conn.connect sessionId answer (Conn.hook m)) ∧
   ∃ rest, (Conn.mount sessionId answer m).2 = Conn.socket_connect :: rest).
Proof.
  split; [|split].
  - intros ->. unfold Conn.mount. by rewrite andb_false_r.
  - unfold Conn.mount.
    destruct (Conn.isInitialized m) eqn:Hi, (Js.truthy sessionId) eqn:Ht;
      simpl; rewrite ?Hi, ?Ht; simpl; done.
  - intros Hne Hi. unfold Conn.mount. rewrite Hi, truthy_true by done. simpl.
    split; [done|]. split; [done|]. destruct answer; by eexists.
Qed.

End Connection.

(** * Join, leave and the metrics view *)
Section OperationsMore.

Variable sessionId : string.
Variable analytics : bool.

Implicit Types (h : Socket.Hook) (e : Socket.SocketBreakoutEvent)
  (captured : Socket.ConnectionStatus).

(** Leaving after joining: the pointer is cleared when the room left
    is the room joined and stays on the joined room otherwise.  Neither
    request changes the rooms map, the participants map or the
    deduplication memory; each sends one message. *)
Theorem leave_after_join_clears_pointer_only_on_match
    captured captured' (rid rid' x now now' : string) h h1 h2 sent1 sent2 :
  Socket.joinRoom sessionId analytics captured rid x now h = Socket.Resolved h1 sent1 →
  Socket.leaveRoom sessionId analytics captured' rid' now' h1 = Socket.Resolved h2 sent2 →
  Socket.currentRoom (Socket.state h2) = (if decide (rid' = rid) then None else Some rid) ∧
  Socket.rooms (Socket.state h2) = Socket.rooms (Socket.state h) ∧
  Socket.st_participants (Socket.state h2) = Socket.st_participants (Socket.state h) ∧
  Socket.eventHandlers h2 = Socket.eventHandlers h ∧
  sent1 = [Socket.join_breakout_room sessionId rid x now] ∧
  sent2 = [Socket.leave_breakout_room sessionId rid' now'] ∧
  Socket.eventsSent (Socket.metrics h2)
    = Socket.eventsSent (Socket.metrics h) + (if analytics then 2 else 0).
Proof.
  unfold Socket.joinRoom, Socket.leaveRoom.
  case_bool_decide; [done|]. case_bool_decide; [done|].
  intros [= <- <-] [= <- <-]. simpl.
  split.
  - destruct (decide (rid' = rid)) as [->|Hne].
    + by rewrite bool_decide_eq_true_2.
    + rewrite bool_decide_eq_false_2; [done|]. congruence.
  - repeat split. destruct analytics; simpl; lia.
Qed.

(** The totals of the metrics view follow the maps: a first-seen room
    event for a room the projection already holds leaves the room total
    as it is, one for a new room raises it by one; [clearCache] brings
    both totals to zero and leaves the event throughput and the
    connection count alone; the connection count is 1 exactly when the
    status is [connected]. *)
Theorem metrics_view_follows_the_maps e h (room : Socket.BreakoutRoom) :
  Socket.type e = Socket.room_created ∨ Socket.type e = Socket.room_updated →
  Socket.d_room (Socket.data e) = Some room →
  Socket.eventKey e ∉ Socket.eventHandlers h →
  Conn.totalRooms (Conn.getRealtimeMetrics (Socket.processEvent analytics e h))
    = (match Socket.rooms (Socket.state h) !! Socket.id room with
       | Some _ => Conn.totalRooms (Conn.getRealtimeMetrics h)
       | None => S (Conn.totalRooms (Conn.getRealtimeMetrics h))
       end) ∧
  Conn.totalParticipants (Conn.getRealtimeMetrics (Socket.processEvent analytics e h))
    = Conn.totalParticipants (Conn.getRealtimeMetrics h) ∧
  Conn.totalRooms (Conn.getRealtimeMetrics (Socket.clearCache h)) = 0%nat ∧
  Conn.totalParticipants (Conn.getRealtimeMetrics (Socket.clearCache h)) = 0%nat ∧
  Conn.eventThroughput (Conn.getRealtimeMetrics (Socket.clearCache h))
    = Conn.eventThroughput (Conn.getRealtimeMetrics h) ∧
  Conn.activeConnections (Conn.getRealtimeMetrics (Socket.clearCache h))
    = Conn.activeConnections (Conn.getRealtimeMetrics h) ∧
  (Conn.activeConnections (Conn.getRealtimeMetrics h) = 1 ↔
   Socket.connectionStatus (Socket.state h) = Socket.connected) ∧
  (Conn.activeConnections (Conn.getRealtimeMetrics h) = 0 ∨
   Conn.activeConnections (Conn.getRealtimeMetrics h) = 1).
Proof.
  intros Hty Hroom Hfresh.
  rewrite processEvent_fresh by done.
  unfold Conn.getRealtimeMetrics. simpl.
  unfold Socket.fold_event.
  split; [|split].
  - destruct Hty as [-> | ->]; rewrite Hroom; simpl;
      destruct (Socket.rooms (Socket.state h) !! Socket.id room) eqn:Hl;
      by rewrite ?(map_size_insert_Some _ _ _ (mk_is_Some _ _ Hl)),
                 ?(map_size_insert_None _ _ _ Hl).
  - by destruct Hty as [-> | ->]; rewrite Hroom.
  - rewrite !map_size_empty. repeat split; try done.
    + case_bool_decide; [done | intros; lia].
    + intros Hc. by rewrite bool_decide_eq_true_2.
    + case_bool_decide; [by right | by left].
Qed.

End OperationsMore.

(** * What the service keeps and returns *)
Section ServiceLaws.

Import Service Laws.

Implicit Types (w : World) (s : Svc) (roomConfig : CreateRoomConfig)
  (sessionId : string).

Lemma keeps_ret {A} (I : Svc → Prop) (a : A) (Q : A → Prop) : Q a → keeps I (ret a) Q.
Proof. intros Ha s Hs. split; [done|]. by intros a' [= <-]. Qed.

Lemma keeps_throw {A} (I : Svc → Prop) msg (Q : A → Prop) : keeps I (throw msg) Q.
Proof. intros s Hs. by split. Qed.

Lemma keeps_act (I : Svc → Prop) a (Q : unit → Prop) : Q tt → keeps I (act a) Q.
Proof. intros HQ s Hs. split; [done|]. by intros [] _. Qed.

Lemma keeps_update (I : Svc → Prop) f (Q : unit → Prop) :
  (∀ s, I s → I (f s)) → Q tt → keeps I (update f) Q.
Proof. intros Hf HQ s Hs. split; [by apply Hf|]. by intros [] _. Qed.

Lemma keeps_bind {A B} (I : Svc → Prop) (m : M A) (k : A → M B) P Q :
  keeps I m P → (∀ a, P a → keeps I (k a) Q) → keeps I (bind m k) Q.
Proof.
  intros Hm Hk s Hs. destruct (Hm s Hs) as [HI HP]. unfold bind.
  destruct (m s) as [[[a|msg] s1] t1]; simpl in *; [|by split].
  destruct (Hk a (HP a eq_refl) s1 HI) as [HI' HQ].
  rewrite fields_of_after, result_of_after. by split.
Qed.

Lemma keeps_try_catch {A} (I : Svc → Prop) (m : M A) (hd : string → M A) Q :
  keeps I m Q → (∀ msg, keeps I (hd msg) Q) → keeps I (try_catch m hd) Q.
Proof.
  intros Hm Hh s Hs. destruct (Hm s Hs) as [HI HQ]. unfold try_catch.
  destruct (m s) as [[[a|msg] s1] t1]; simpl in *; [by split|].
  destruct (Hh msg s1 HI) as [HI' HQ'].
  rewrite fields_of_after, result_of_after. by split.
Qed.

Lemma keeps_weaken {A} (I : Svc → Prop) (m : M A) (P Q : A → Prop) :
  keeps I m P → (∀ a, P a → Q a) → keeps I m Q.
Proof. intros Hm HPQ s Hs. destruct (Hm s Hs) as [HI HP]. split; eauto. Qed.

Lemma keyed_cache_set r s : keyed s → keyed (cache_set r s).
Proof.
  intros Hs k r'. unfold cache_set. simpl. rewrite lookup_insert.
  destruct (decide _); [by intros [= <-] | apply Hs].
Qed.

Lemma keyed_created_now now s : keyed s → keyed (created_now now s).
Proof. done. Qed.

(** The methods that write the cache only through [cache_set], and the
    metrics only through [created_now], keep whatever those two keep. *)
Section Kept.

Variable I : Svc → Prop.
Hypothesis I_cache_set : ∀ r s, I s → I (cache_set r s).
Hypothesis I_created_now : ∀ now s, I s → I (created_now now s).

Lemma kept_cache_all rooms : ∀ s, I s → I (foldl (λ acc r, cache_set r acc) s rooms).
Proof.
  induction rooms as [|r rooms IH]; intros s Hs; [done|].
  simpl. by apply IH, I_cache_set.
Qed.

Lemma getBreakoutRooms_keeps w n sessionId :
  keeps I (getBreakoutRooms w n sessionId) (λ _, True).
Proof.
  unfold getBreakoutRooms. apply keeps_try_catch; [|intros; by apply keeps_ret].
  destruct (_ && _); [|apply keeps_throw].
  eapply keeps_bind; [by apply (keeps_act _ _ (λ _, True))|]. intros _ _.
  destruct (listResp w n) as [msg|[|] st tx rooms]; try apply keeps_throw.
  eapply keeps_bind; [|intros; by apply keeps_ret].
  apply (keeps_update _ _ (λ _, True)); [apply kept_cache_all | done].
Qed.

Lemma poll_from_keeps w sessionId room_name ms (rem : nat) : ∀ a : nat,
  keeps I (poll_from w sessionId room_name ms a rem)
    (λ o, ∀ r, o = Some r → name r = room_name).
Proof.
  induction rem as [|rem IH]; intros a; [by apply keeps_ret|].
  simpl. eapply (keeps_bind _ _ _ (λ o, ∀ r, o = Some r → name r = room_name)).
  - apply keeps_try_catch; [|intros; by apply keeps_ret].
    eapply keeps_bind; [apply getBreakoutRooms_keeps|]. intros resp _.
    apply keeps_ret. intros r Hr.
    destruct (l_success resp); [|done]. destruct (l_rooms resp) as [rooms|]; [|done].
    apply find_some in Hr as [_ Hr]. by apply bool_decide_eq_true in Hr.
  - intros [m|] Hm; [by apply keeps_ret|].
    eapply keeps_bind; [by apply (keeps_act _ _ (λ _, True))|]. intros _ _. apply IH.
Qed.

Lemma cache_if_id_keeps r : keeps I (cache_if_id r) (λ _, True).
Proof.
  destruct r as [r|]; simpl; [|by apply keeps_ret].
  destruct (Js.truthy _); [|by apply keeps_ret].
  apply (keeps_update _ _ (λ _, True)); [apply I_cache_set | done].
Qed.

Lemma legacy_create_keeps w sessionId roomConfig :
  keeps I (legacy_create w sessionId roomConfig) (λ r, ∃ rm, r = succeeded rm).
Proof.
  unfold legacy_create.
  eapply keeps_bind; [by apply (keeps_act _ _ (λ _, True))|]. intros _ _.
  destruct (legacyResp w) as [msg|[|] st tx body]; [apply keeps_throw| |].
  - eapply keeps_bind; [apply cache_if_id_keeps|]. intros _ _.
    apply keeps_ret. by eexists.
  - eapply keeps_bind; [apply poll_from_keeps|]. intros [r|] _; [|apply keeps_throw].
    eapply keeps_bind; [|intros; apply keeps_ret; by eexists].
    apply (keeps_update _ _ (λ _, True)); [apply I_cache_set | done].
Qed.

Lemma createRoomViaAPI_keeps w sessionId roomConfig :
  keeps I (createRoomViaAPI w sessionId roomConfig) (λ r, ∃ rm, r = succeeded rm).
Proof.
  unfold createRoomViaAPI.
  destruct (negb _); [apply keeps_throw|]. destruct (negb _); [apply keeps_throw|].
  apply keeps_try_catch; [|intros; apply keeps_throw].
  eapply keeps_bind; [by apply (keeps_act _ _ (λ _, True))|]. intros _ _.
  assert (keeps I
            (act (ApiCreate sessionId (cfg_name roomConfig)) ;;;
             (if success (apiRes w)
              then cache_if_id (room (apiRes w)) ;;; ret (succeeded (room (apiRes w)))
              else match error (apiRes w) with
                   | Some e =>
                       if Str.test_404 e then legacy_create w sessionId roomConfig
                       else throw (Js.or_str (Some e) "API returned failure creating room")
                   | None => throw "API returned failure creating room"
                   end))
            (λ r, ∃ rm, r = succeeded rm)) as Hapi.
  { eapply keeps_bind; [by apply (keeps_act _ _ (λ _, True))|]. intros _ _.
    destruct (success (apiRes w)).
    - eapply keeps_bind; [apply cache_if_id_keeps|]. intros _ _.
      apply keeps_ret. by eexists.
    - destruct (error (apiRes w)) as [e|]; [|apply keeps_throw].
      destruct (Str.test_404 e); [apply legacy_create_keeps | apply keeps_throw]. }
  destruct (success (backendRes w)), (room (backendRes w)) as [r|]; try exact Hapi.
  eapply keeps_bind; [|intros; apply keeps_ret; by eexists].
  apply (keeps_update _ _ (λ _, True)); [apply I_cache_set | done].
Qed.

Lemma settle_keeps sessionId roomConfig deliveries :
  keeps I (settle sessionId roomConfig deliveries)
    (λ r, well_formed r ∧
          (success r = true →
           ∃ rm, room r = Some rm ∧ name rm = cfg_name roomConfig)).
Proof.
  assert (∀ msg, keeps I (ret (failed msg))
            (λ r, well_formed r ∧
                  (success r = true →
                   ∃ rm, room r = Some rm ∧ name rm = cfg_name roomConfig))) as Hfail.
  { intros msg. apply keeps_ret. by repeat split; eauto. }
  assert (∀ a (k : M CreateResult) Q, keeps I k Q → keeps I (act a ;;; k) Q) as Hact.
  { intros a k Q Hk. eapply keeps_bind; [by apply (keeps_act _ _ (λ _, True))|]. done. }
  induction deliveries as [|[t d] rest IH]; simpl.
  { unfold on_timeout. by do 2 apply Hact. }
  case_bool_decide.
  { unfold on_timeout. by do 2 apply Hact. }
  destruct d as [sid r|msg].
  - destruct (matches sessionId roomConfig sid r) eqn:Hm; [|exact IH].
    eapply keeps_bind.
    { unfold unlisten.
      eapply keeps_bind; [by apply (keeps_act _ _ (λ _, True))|]. intros _ _.
      eapply keeps_bind; [by apply (keeps_act _ _ (λ _, True))|]. intros _ _.
      by apply (keeps_act _ _ (λ _, True)). }
    intros _ _. apply keeps_ret.
    unfold matches in Hm. apply andb_true_iff in Hm as [_ Hn].
    apply bool_decide_eq_true in Hn.
    destruct r as [rm|]; simplify_eq/=. repeat split; eauto; done.
  - eapply keeps_bind; [|intros _ _; apply Hfail].
    unfold unlisten.
    eapply keeps_bind; [by apply (keeps_act _ _ (λ _, True))|]. intros _ _.
    eapply keeps_bind; [by apply (keeps_act _ _ (λ _, True))|]. intros _ _.
    by apply (keeps_act _ _ (λ _, True)).
Qed.

Lemma awaitAck_keeps w sessionId roomConfig :
  keeps I (awaitAck w sessionId roomConfig)
    (λ r, well_formed r ∧
          (success r = true →
           ∃ rm, room r = Some rm ∧ name rm = cfg_name roomConfig)).
Proof.
  unfold awaitAck.
  do 4 (eapply keeps_bind; [by apply (keeps_act _ _ (λ _, True))|]; intros _ _).
  eapply keeps_bind; [|intros _ _; apply settle_keeps].
  apply (keeps_update _ _ (λ _, True)); [apply I_created_now | done].
Qed.

Lemma createBreakoutRoom_keeps w sessionId roomConfig :
  keeps I (createBreakoutRoom w sessionId roomConfig) well_formed.
Proof.
  assert (keeps I (createRoomViaAPI w sessionId roomConfig) well_formed) as Hrest.
  { eapply keeps_weaken; [apply createRoomViaAPI_keeps|]. by intros r [rm ->]. }
  apply keeps_try_catch.
  - unfold createBreakoutRoom_try.
    eapply (keeps_bind _ _ _ (λ _, True)).
    { unfold validate. repeat case_match; try apply keeps_throw. by apply keeps_ret. }
    intros _ _.
    eapply keeps_bind; [by apply (keeps_act _ _ (λ _, True))|]. intros _ _.
    eapply keeps_bind; [by apply (keeps_act _ _ (λ _, True))|]. intros _ _.
    destruct (negb (permission_valid w)).
    { eapply keeps_bind; [by apply (keeps_act _ _ (λ _, True))|]. intros _ _.
      apply keeps_ret. by repeat split; eauto. }
    destruct (socket_connected w); [|exact Hrest].
    eapply keeps_bind; [apply awaitAck_keeps|].
    intros r [Hwf _]. destruct (success r) eqn:Hs; [|exact Hrest].
    apply keeps_ret. by split.
  - intros msg. unfold createBreakoutRoom_catch.
    eapply keeps_bind; [by apply (keeps_act _ _ (λ _, True))|]. intros _ _.
    apply keeps_ret. by repeat split; eauto.
Qed.

End Kept.

(** [createBreakoutRoom] never rejects: whatever the collaborators
    answer, it returns a result object, a failure with an error text and
    no room or a success without an error text; and it leaves every
    cached room filed under its own identifier. *)
Theorem createBreakoutRoom_always_returns_a_result w sessionId roomConfig s :
  (∃ r, result_of (createBreakoutRoom w sessionId roomConfig s) = Returned r ∧
        well_formed r) ∧
  (keyed s → keyed (fields_of (createBreakoutRoom w sessionId roomConfig s))).
Proof.
  split.
  - assert (∃ r, result_of (createBreakoutRoom w sessionId roomConfig s) = Returned r)
      as [r Hr].
    { unfold createBreakoutRoom, try_catch, createBreakoutRoom_catch.
      destruct (createBreakoutRoom_try w sessionId roomConfig s) as [[[r|msg] s1] t1];
        by eexists. }
    exists r. split; [done|].
    by apply (createBreakoutRoom_keeps (λ _, True) (λ _ _ _, I) (λ _ _ _, I)
                w sessionId roomConfig s I).
  - intros Hs.
    by apply (createBreakoutRoom_keeps keyed keyed_cache_set keyed_created_now
                w sessionId roomConfig s Hs).
Qed.

(** [getBreakoutRooms] never rejects and makes one request, or none
    when there is no valid token. *)
Lemma getBreakoutRooms_settles w n sessionId s :
  ∃ r s' t, getBreakoutRooms w n sessionId s = (Returned r, s', t) ∧
            (t = [] ∧ s' = s ∧ l_success r = false ∨ t = [ListRooms sessionId]).
Proof.
  unfold getBreakoutRooms, try_catch, bind, act, update, throw, ret.
  destruct (_ && _); cbn; [|by eauto 10].
  destruct (listResp w n) as [msg|[|] st tx rooms]; cbn; eauto 10.
Qed.

Lemma count_app f (t1 t2 : list Action) : count f (t1 ++ t2) = (count f t1 + count f t2)%nat.
Proof. unfold count. by rewrite filter_app, length_app. Qed.

Lemma poll_from_bounded w sessionId room_name ms (rem : nat) : ∀ (a : nat) s,
  ∃ o s' t,
    poll_from w sessionId room_name ms a rem s = (Returned o, s', t) ∧
    (count is_list_request t ≤ rem)%nat ∧
    (count is_sleep t ≤ rem)%nat ∧
    (o = None → count is_sleep t = rem) ∧
    (∀ x, x ∈ t → x = ListRooms sessionId ∨ x = Sleep ms).
Proof.
  induction rem as [|rem IH]; intros a s.
  { exists None, s, []. repeat split; try done. intros x Hx. by apply elem_of_nil in Hx. }
  destruct (getBreakoutRooms_settles w a sessionId s) as (r & s1 & t1 & Hg & Ht1).
  simpl. unfold try_catch at 1, bind at 1 2. rewrite Hg. cbn.
  assert ((count is_list_request t1 ≤ 1)%nat ∧ count is_sleep t1 = 0%nat ∧
          ∀ x, x ∈ t1 → x = ListRooms sessionId) as (Hl1 & Hs1 & Hin1).
  { destruct Ht1 as [(-> & _)| ->].
    - repeat split; [unfold count; simpl; lia|]. intros x Hx. by apply elem_of_nil in Hx.
    - repeat split; [vm_compute; lia|].
      intros x Hx. by apply list_elem_of_singleton in Hx. }
  match goal with
  | |- context [if l_success r then ?x else None] =>
      destruct (if l_success r then x else None) as [m|]
  end; cbn.
  - exists (Some m), s1, t1. split; [by rewrite ?app_nil_r|].
    repeat split; try done; [lia|lia|]. intros x Hx. left. by apply Hin1.
  - destruct (IH (S a) s1) as (o & s2 & t2 & -> & Hl & Hs & Hnone & Hin). cbn.
    exists o, s2, (t1 ++ Sleep ms :: t2). split; [by rewrite app_nil_r|].
    assert (count is_list_request (Sleep ms :: t2) = count is_list_request t2) as Hc1.
    { unfold count. by rewrite filter_cons_False. }
    assert (count is_sleep (Sleep ms :: t2) = S (count is_sleep t2)) as Hc2.
    { unfold count. by rewrite filter_cons_True. }
    rewrite !count_app, Hc1, Hc2. repeat split; try lia.
    + intros Ho. specialize (Hnone Ho). lia.
    + intros x Hx. apply elem_of_app in Hx as [Hx|Hx]; [left; by apply Hin1|].
      apply elem_of_cons in Hx as [->|Hx]; [by right | by apply Hin].
Qed.

(** [pollForRoomByName] never rejects.  It makes at most [maxAttempts]
    list requests and nothing but list requests and pauses of
    [intervalMs]; a room it returns has the name asked for; when it
    returns null it has paused [maxAttempts] times, once after every
    attempt, the last included; with no attempts allowed it returns null
    at once. *)
Theorem pollForRoomByName_is_bounded w sessionId room_name (maxAttempts : nat) ms s :
  (∃ o s' t,
     pollForRoomByName w sessionId room_name maxAttempts ms s = (Returned o, s', t) ∧
     (count is_list_request t ≤ maxAttempts)%nat ∧
     (o = None → count is_sleep t = maxAttempts) ∧
     (∀ x, x ∈ t → x = ListRooms sessionId ∨ x = Sleep ms) ∧
     (∀ r, o = Some r → name r = room_name) ∧
     (keyed s → keyed s')) ∧
  pollForRoomByName w sessionId room_name 0 ms s = (Returned None, s, []).
Proof.
  split; [|done]. unfold pollForRoomByName.
  destruct (poll_from_bounded w sessionId room_name ms maxAttempts 0%nat s)
    as (o & s' & t & Heq & Hl & _ & Hnone & Hin).
  exists o, s', t. repeat split; try done.
  - intros r Hr.
    destruct (poll_from_keeps (λ _, True) (λ _ _ _, I) w sessionId room_name ms
                maxAttempts 0%nat s I) as [_ HQ].
    rewrite Heq in HQ. by apply (HQ o).
  - intros Hs.
    destruct (poll_from_keeps keyed keyed_cache_set w sessionId room_name ms
                maxAttempts 0%nat s Hs) as [Hk _].
    by rewrite Heq in Hk.
Qed.

(** The socket path counts a created room as soon as the request is
    sent, whether the acknowledgment comes or not; it never rejects; and
    a success it reports carries a room with the name asked for. *)
Theorem awaitAck_counts_the_request_and_names_the_room w sessionId roomConfig s :
  ∃ r t,
    awaitAck w sessionId roomConfig s = (Returned r, created_now (clock w) s, t) ∧
    (∃ rest, t = ack_opening sessionId roomConfig ++ rest) ∧
    roomsCreated (connectionMetrics (created_now (clock w) s))
      = roomsCreated (connectionMetrics s) + 1 ∧
    well_formed r ∧
    (success r = true → ∃ rm, room r = Some rm ∧ name rm = cfg_name roomConfig).
Proof.
  assert (∀ ds s0, ∃ r t, settle sessionId roomConfig ds s0 = (Returned r, s0, t)) as Hsettle.
  { induction ds as [|[t d] ds IH]; intros s0; simpl; [by eexists _, _|].
    case_bool_decide; [by eexists _, _|].
    destruct d as [sid r|msg]; [|by eexists _, _].
    destruct (matches _ _ _ _); [by eexists _, _ | apply IH]. }
  destruct (Hsettle (inbound w) (created_now (clock w) s)) as (r & t & Hr).
  exists r, (ack_opening sessionId roomConfig ++ t).
  assert (awaitAck w sessionId roomConfig s
          = (Returned r, created_now (clock w) s, ack_opening sessionId roomConfig ++ t)) as Heq.
  { unfold awaitAck. rewrite !bind_act, bind_update, Hr. done. }
  split; [done|]. split; [by eexists|]. split; [done|].
  destruct (awaitAck_keeps (λ _, True) (λ _ _ _, I) w sessionId roomConfig s I) as [_ HQ].
  rewrite Heq in HQ. by apply (HQ r).
Qed.

Lemma emits_ret {A} (P : Action → Prop) (a : A) : emits P (ret a).
Proof. intros s. constructor. Qed.

Lemma emits_throw {A} (P : Action → Prop) msg : emits P (throw (A:=A) msg).
Proof. intros s. constructor. Qed.

Lemma emits_act (P : Action → Prop) a : P a → emits P (act a).
Proof. intros Ha s. by repeat constructor. Qed.

Lemma emits_update (P : Action → Prop) f : emits P (update f).
Proof. intros s. constructor. Qed.

Lemma emits_bind {A B} (P : Action → Prop) (m : M A) (k : A → M B) :
  emits P m → (∀ a, emits P (k a)) → emits P (bind m k).
Proof.
  intros Hm Hk s. specialize (Hm s). unfold bind.
  destruct (m s) as [[[a|msg] s1] t1]; [|done].
  rewrite trace_of_after. apply Forall_app. split; [done | apply Hk].
Qed.

Lemma emits_try_catch {A} (P : Action → Prop) (m : M A) (hd : string → M A) :
  emits P m → (∀ msg, emits P (hd msg)) → emits P (try_catch m hd).
Proof.
  intros Hm Hh s. specialize (Hm s). unfold try_catch.
  destruct (m s) as [[[a|msg] s1] t1]; [done|].
  rewrite trace_of_after. apply Forall_app. split; [done | apply Hh].
Qed.

(** The REST path and the methods under it stay off the socket. *)
Lemma getBreakoutRooms_emits w n sessionId :
  emits (λ a, is_socket_action a = false) (getBreakoutRooms w n sessionId).
Proof.
  unfold getBreakoutRooms. apply emits_try_catch; [|intros; apply emits_ret].
  destruct (_ && _); [|apply emits_throw].
  apply emits_bind; [by apply emits_act|]. intros _.
  destruct (listResp w n) as [msg|[|] st tx rooms]; try apply emits_throw.
  apply emits_bind; [apply emits_update | intros; apply emits_ret].
Qed.

Lemma poll_from_emits w sessionId room_name ms (rem : nat) : ∀ a : nat,
  emits (λ a, is_socket_action a = false) (poll_from w sessionId room_name ms a rem).
Proof.
  induction rem as [|rem IH]; intros a; [apply emits_ret|].
  simpl. apply emits_bind.
  - apply emits_try_catch; [|intros; apply emits_ret].
    apply emits_bind; [apply getBreakoutRooms_emits | intros; apply emits_ret].
  - intros [m|]; [apply emits_ret|].
    apply emits_bind; [by apply emits_act | intros _; apply IH].
Qed.

Lemma cache_if_id_emits r : emits (λ a, is_socket_action a = false) (cache_if_id r).
Proof.
  destruct r as [r|]; simpl; [|apply emits_ret].
  destruct (Js.truthy _); [apply emits_update | apply emits_ret].
Qed.

Lemma createRoomViaAPI_emits w sessionId roomConfig :
  emits (λ a, is_socket_action a = false) (createRoomViaAPI w sessionId roomConfig).
Proof.
  unfold createRoomViaAPI.
  destruct (negb _); [apply emits_throw|]. destruct (negb _); [apply emits_throw|].
  apply emits_try_catch; [|intros; apply emits_throw].
  apply emits_bind; [by apply emits_act|]. intros _.
  assert (emits (λ a, is_socket_action a = false)
            (legacy_create w sessionId roomConfig)) as Hleg.
  { unfold legacy_create. apply emits_bind; [by apply emits_act|]. intros _.
    destruct (legacyResp w) as [msg|[|] st tx body]; [apply emits_throw| |].
    - apply emits_bind; [apply cache_if_id_emits | intros; apply emits_ret].
    - apply emits_bind; [apply poll_from_emits|]. intros [r|]; [|apply emits_throw].
      apply emits_bind; [apply emits_update | intros; apply emits_ret]. }
  destruct (success (backendRes w)), (room (backendRes w)) as [r|];
    try (apply emits_bind; [apply emits_update | intros; apply emits_ret]);
    (apply emits_bind; [by apply emits_act|]; intros _;
     destruct (success (apiRes w));
     [apply emits_bind; [apply cache_if_id_emits | intros; apply emits_ret]|];
     destruct (error (apiRes w)) as [e|]; [|apply emits_throw];
     destruct (Str.test_404 e); [exact Hleg | apply emits_throw]).
Qed.

(** Without a token, or with one that is not valid, the REST path
    throws before it sends anything and leaves the instance as it was. *)
Theorem createRoomViaAPI_needs_a_valid_token w sessionId roomConfig s :
  (Js.truthy_opt (authToken w) = false →
   createRoomViaAPI w sessionId roomConfig s
   = (Thrown "No authentication token available", s, [])) ∧
  (Js.truthy_opt (authToken w) = true → tokenValid w = false →
   createRoomViaAPI w sessionId roomConfig s
   = (Thrown "Authentication token is invalid or expired", s, [])) ∧
  (Js.truthy_opt (authToken w) = false ∨ tokenValid w = false →
   Str.trim (cfg_name roomConfig) ≠ "" → 2 ≤ cfg_maxParticipants roomConfig ≤ 20 →
   permission_valid w = true → socket_connected w = false →
   ∃ msg,
     createBreakoutRoom w sessionId roomConfig s
     = (Returned (failed msg), s,
        preflight sessionId ++ [DebugBreakoutRoomPermissions sessionId])).
Proof.
  assert (Js.truthy_opt (authToken w) = false →
          createRoomViaAPI w sessionId roomConfig s
          = (Thrown "No authentication token available", s, [])) as H1.
  { intros Ht. unfold createRoomViaAPI. by rewrite Ht. }
  assert (Js.truthy_opt (authToken w) = true → tokenValid w = false →
          createRoomViaAPI w sessionId roomConfig s
          = (Thrown "Authentication token is invalid or expired", s, [])) as H2.
  { intros Ht Hv. unfold createRoomViaAPI. by rewrite Ht, Hv. }
  split; [done|]. split; [done|].
  intros Hbad Hb Hr Hperm Hconn.
  assert (∃ msg, createRoomViaAPI w sessionId roomConfig s = (Thrown msg, s, []))
    as [msg Hrest].
  { destruct (Js.truthy_opt (authToken w)) eqn:Ht; [|by eexists; apply H1].
    destruct Hbad as [?|Hv]; [done|]. eexists. by apply H2. }
  exists msg. unfold createBreakoutRoom, createBreakoutRoom_try.
  rewrite (try_catch_bind _ _ _ _ _ _ _ (validate_passes roomConfig s Hb Hr)), after_nil.
  rewrite Hperm, Hconn. change (negb true) with false. cbv iota.
  unfold try_catch, bind, act. cbn. by rewrite Hrest.
Qed.

(** The tiers of the REST path, the token being valid.  A success of
    the backend adapter ends the path after one request, with the room
    cached.  When the adapter fails, a success of the API service ends it
    after two.  When both fail and the API service's error does not
    mention 404, that error is thrown after two requests: the legacy
    route and the room list are not tried. *)
Theorem rest_path_tiers w sessionId roomConfig s :
  Js.truthy_opt (authToken w) = true → tokenValid w = true →
  (∀ r, success (backendRes w) = true → room (backendRes w) = Some r →
        createRoomViaAPI w sessionId roomConfig s
        = (Returned (succeeded (Some r)), cache_set r s,
           [BackendCreate sessionId (cfg_name roomConfig)])) ∧
  (success (backendRes w) = false ∨ room (backendRes w) = None →
   success (apiRes w) = true →
   result_of (createRoomViaAPI w sessionId roomConfig s)
     = Returned (succeeded (room (apiRes w))) ∧
   trace_of (createRoomViaAPI w sessionId roomConfig s)
     = [BackendCreate sessionId (cfg_name roomConfig);
        ApiCreate sessionId (cfg_name roomConfig)]) ∧
  (∀ e, success (backendRes w) = false ∨ room (backendRes w) = None →
        success (apiRes w) = false →
        error (apiRes w) = Some e → Str.test_404 e = false →
        createRoomViaAPI w sessionId roomConfig s
        = (Thrown (Js.or_str (Some e) "API returned failure creating room"), s,
           [BackendCreate sessionId (cfg_name roomConfig);
            ApiCreate sessionId (cfg_name roomConfig)])).
Proof.
  intros Htok Hval.
  assert (∀ (X : M CreateResult),
            success (backendRes w) = false ∨ room (backendRes w) = None →
            createRoomViaAPI w sessionId roomConfig s
            = after [BackendCreate sessionId (cfg_name roomConfig)]
                (match success (backendRes w), room (backendRes w) with
                 | true, Some r => X
                 | _, _ =>
                     act (ApiCreate sessionId (cfg_name roomConfig)) ;;;
                     (if success (apiRes w)
                      then cache_if_id (room (apiRes w)) ;;; ret (succeeded (room (apiRes w)))
                      else match error (apiRes w) with
                           | Some e =>
                               if Str.test_404 e then legacy_create w sessionId roomConfig
                               else throw (Js.or_str (Some e) "API returned failure creating room")
                           | None => throw "API returned failure creating room"
                           end)
                 end s)) as Hskip.
  { intros X Hback. unfold createRoomViaAPI.
    rewrite Htok, Hval. change (negb true) with false. cbv iota.
    rewrite try_catch_rethrow, bind_act.
    destruct (success (backendRes w)), (room (backendRes w));
      try done; destruct Hback; done. }
  split; [|split].
  - intros r Hs Hr. unfold createRoomViaAPI.
    rewrite Htok, Hval. change (negb true) with false. cbv iota.
    rewrite try_catch_rethrow, bind_act, Hs, Hr. by rewrite bind_update.
  - intros Hback Hapi. rewrite (Hskip (ret (failed "")) Hback).
    rewrite result_of_after, trace_of_after.
    destruct (success (backendRes w)) eqn:Hs, (room (backendRes w)) eqn:Hr;
      try (destruct Hback; congruence);
      rewrite bind_act, Hapi, result_of_after, trace_of_after;
      unfold cache_if_id; destruct (room (apiRes w)) as [r|];
      try destruct (Js.truthy (id r)); cbn; done.
  - intros e Hback Hapi Herr H404. rewrite (Hskip (ret (failed "")) Hback).
    destruct (success (backendRes w)) eqn:Hs, (room (backendRes w)) eqn:Hr;
      try (destruct Hback; congruence);
      by rewrite bind_act, Hapi, Herr, H404.
Qed.

(** With the socket down, a valid configuration and the permission
    granted, [createBreakoutRoom] goes straight to the REST path: no
    timer, no listener, no socket message.  And a room created over REST
    is not counted: the REST path never touches the connection metrics. *)
Theorem socket_down_goes_straight_to_rest w sessionId roomConfig s :
  Str.trim (cfg_name roomConfig) ≠ "" → 2 ≤ cfg_maxParticipants roomConfig ≤ 20 →
  permission_valid w = true → socket_connected w = false →
  createBreakoutRoom w sessionId roomConfig s
  = after (preflight sessionId)
      (try_catch (createRoomViaAPI w sessionId roomConfig)
         (createBreakoutRoom_catch sessionId) s) ∧
  connectionMetrics (fields_of (createBreakoutRoom w sessionId roomConfig s))
    = connectionMetrics s ∧
  Forall (λ a, is_socket_action a = false)
         (trace_of (createBreakoutRoom w sessionId roomConfig s)).
Proof.
  intros Hb Hr Hperm Hconn.
  assert (createBreakoutRoom w sessionId roomConfig s
          = after (preflight sessionId)
              (try_catch (createRoomViaAPI w sessionId roomConfig)
                 (createBreakoutRoom_catch sessionId) s)) as Heq.
  { unfold createBreakoutRoom, createBreakoutRoom_try.
    rewrite (try_catch_bind _ _ _ _ _ _ _ (validate_passes roomConfig s Hb Hr)), after_nil.
    rewrite Hperm, Hconn. change (negb true) with false. cbv iota.
    generalize (createRoomViaAPI w sessionId roomConfig) as rest_path. intros rest_path.
    unfold try_catch, bind, act. cbn.
    by destruct (rest_path s) as [[[res|msg] s1] t1]. }
  split; [done|].
  pose (I := λ s', connectionMetrics s' = connectionMetrics s).
  assert (keeps I (try_catch (createRoomViaAPI w sessionId roomConfig)
                     (createBreakoutRoom_catch sessionId)) (λ _, True)) as Hk.
  { apply keeps_try_catch.
    - eapply keeps_weaken; [apply createRoomViaAPI_keeps|done]. by intros r s'.
    - intros msg. unfold createBreakoutRoom_catch.
      eapply keeps_bind; [by apply (keeps_act _ _ (λ _, True))|]. intros _ _.
      by apply keeps_ret. }
  split.
  - rewrite Heq, fields_of_after. by apply (Hk s).
  - rewrite Heq, trace_of_after. apply Forall_app. split.
    + unfold preflight. by repeat constructor.
    + apply emits_try_catch; [apply createRoomViaAPI_emits|].
      intros msg. unfold createBreakoutRoom_catch.
      apply emits_bind; [by apply emits_act|]. intros _. apply emits_ret.
Qed.

End ServiceLaws.

(** * The string tests behind validation and the 404 fallback *)
Section StringLaws.

Import Service Laws.

Lemma chars_nil s : chars s = [] ↔ s = "".
Proof. by destruct s. Qed.

Lemma chars_app s1 s2 : chars (s1 +:+ s2) = chars s1 ++ chars s2.
Proof. induction s1 as [|a s1 IH]; [done|]. simpl. by rewrite <- IH. Qed.

Lemma chars_rev_app s1 s2 : chars (String.rev_app s1 s2) = reverse (chars s1) ++ chars s2.
Proof.
  revert s2. induction s1 as [|a s1 IH]; intros s2; [done|].
  simpl. rewrite IH, reverse_cons, <- app_assoc. done.
Qed.

Lemma chars_rev s : chars (String.rev s) = reverse (chars s).
Proof. unfold String.rev. by rewrite chars_rev_app, app_nil_r. Qed.

Lemma trim_start_blank s :
  Str.trim_start s = "" ↔ Forall (λ a, Str.is_space a = true) (chars s).
Proof.
  induction s as [|a s IH]; simpl; [by split; [constructor|]|].
  destruct (Str.is_space a) eqn:Ha.
  - rewrite IH. split; [by constructor | by inversion 1].
  - split; [done|]. inversion 1; congruence.
Qed.

Lemma trim_start_head s a s' : Str.trim_start s = String a s' → Str.is_space a = false.
Proof.
  induction s as [|b s IH]; simpl; [done|].
  destruct (Str.is_space b) eqn:Hb; [done|]. by intros [= <- _].
Qed.

(** [trim] gives the empty string exactly on the strings made of
    white space only. *)
Lemma trim_blank s :
  Str.trim s = "" ↔ Forall (λ a, Str.is_space a = true) (chars s).
Proof.
  unfold Str.trim. rewrite <- chars_nil, chars_rev.
  rewrite <- trim_start_blank.
  split.
  - intros Hr. assert (chars (Str.trim_start (String.rev (Str.trim_start s))) = []) as Hc.
    { destruct (chars _); [done|]. by rewrite reverse_cons in Hr; destruct (reverse l). }
    apply chars_nil, trim_start_blank in Hc. rewrite chars_rev in Hc.
    rewrite Forall_reverse in Hc.
    destruct (Str.trim_start s) as [|a s'] eqn:Hs; [done|].
    apply trim_start_head in Hs. simpl in Hc. inversion Hc; simplify_eq. congruence.
  - intros ->. done.
Qed.

(** The three outcomes of the validation, exactly.  A name made of
    white space only (the empty name included) is refused as missing,
    whatever the capacity; any other name with a capacity below 2 or
    above 20 is refused for the capacity; everything else passes.  The
    validation never changes the instance and sends nothing. *)
Theorem validate_outcomes roomConfig s :
  (Forall (λ a, Str.is_space a = true) (chars (cfg_name roomConfig)) ↔
   validate roomConfig s = (Thrown name_required, s, [])) ∧
  (¬ Forall (λ a, Str.is_space a = true) (chars (cfg_name roomConfig)) ∧
   (cfg_maxParticipants roomConfig < 2 ∨ 20 < cfg_maxParticipants roomConfig) ↔
   validate roomConfig s = (Thrown out_of_range, s, [])) ∧
  (¬ Forall (λ a, Str.is_space a = true) (chars (cfg_name roomConfig)) ∧
   2 ≤ cfg_maxParticipants roomConfig ≤ 20 ↔
   validate roomConfig s = (Returned tt, s, [])).
Proof.
  rewrite <- !trim_blank.
  destruct (decide (Str.trim (cfg_name roomConfig) = "")) as [Hb|Hb].
  - rewrite (validate_blank _ _ Hb).
    repeat split; try done; try (by intros [? _]).
  - destruct (decide (2 ≤ cfg_maxParticipants roomConfig ≤ 20)) as [Hr|Hr].
    + rewrite (validate_passes _ _ Hb Hr).
      repeat split; try done; try lia; try (intros [_ ?]; lia).
    + rewrite (validate_range _ _ Hb) by lia.
      repeat split; try done; try lia; try (intros [_ ?]; lia).
Qed.

Lemma starts_with_ci_folded p x b :
  Str.fold_case <$> chars x = chars p → Str.starts_with_ci p (x +:+ b) = true.
Proof.
  revert x. induction p as [|c p IH]; intros x Hx; [done|].
  destruct x as [|a x]; [done|]. simpl in *. injection Hx as Ha Hx.
  rewrite bool_decide_eq_true_2 by done. by apply IH.
Qed.

Lemma starts_with_ci_split p s :
  Str.starts_with_ci p s = true →
  ∃ x b, s = x +:+ b ∧ Str.fold_case <$> chars x = chars p.
Proof.
  revert s. induction p as [|c p IH]; intros s Hs.
  { by exists "", s. }
  destruct s as [|a s]; [done|]. simpl in Hs.
  apply andb_true_iff in Hs as [Ha Hs]. apply bool_decide_eq_true in Ha.
  destruct (IH s Hs) as (x & b & -> & Hx).
  exists (String a x), b. split; [done|].
  change (chars (String a x)) with (a :: chars x).
  change (chars (String c p)) with (c :: chars p).
  by rewrite fmap_cons, Hx, Ha.
Qed.

Lemma includes_ci_iff p s :
  Str.includes_ci p s = true ↔
  ∃ a x b, s = a +:+ x +:+ b ∧ Str.fold_case <$> chars x = chars p.
Proof.
  split.
  - induction s as [|c s IH]; simpl; rewrite orb_true_iff; intros [Hs|Hs].
    + apply starts_with_ci_split in Hs as (x & b & -> & Hx). by exists "", x, b.
    + done.
    + apply starts_with_ci_split in Hs as (x & b & -> & Hx). by exists "", x, b.
    + destruct (IH Hs) as (a & x & b & -> & Hx). by exists (String c a), x, b.
  - intros (a & x & b & -> & Hx). induction a as [|c a IH].
    + change ("" +:+ x +:+ b) with (x +:+ b).
      destruct (x +:+ b) eqn:Hxb; simpl; rewrite <- ?Hxb;
        by rewrite starts_with_ci_folded.
    + change (String c a +:+ x +:+ b) with (String c (a +:+ x +:+ b)).
      simpl. by rewrite IH, orb_true_r.
Qed.

(** The 404 test is a substring test: it accepts exactly the error
    texts that contain 404 or, in any mix of upper and lower case, the
    words "not found" -- wherever in the text they stand. *)
Theorem test_404_is_a_substring_test (e : string) :
  Str.test_404 e = true ↔
  ∃ a x b, e = a +:+ x +:+ b ∧
           (x = "404" ∨ Str.fold_case <$> chars x = chars "not found").
Proof.
  unfold Str.test_404. rewrite orb_true_iff, !includes_ci_iff. split.
  - intros [(a & x & b & -> & Hx)|(a & x & b & -> & Hx)]; exists a, x, b; split; try done.
    + left. destruct x as [|c1 [|c2 [|c3 [|c4 x]]]]; try done.
      simpl in Hx. injection Hx as H1 H2 H3.
      assert (∀ c d, Str.fold_case c = d →
                (d = "4" ∨ d = "0")%char → c = d) as Hdigit.
      { intros c d <- Hd. unfold Str.fold_case in *.
        case_bool_decide as Hc; [|done].
        exfalso. destruct Hd as [Hd|Hd];
          apply (f_equal nat_of_ascii) in Hd;
          rewrite nat_ascii_embedding in Hd by lia.
        - replace (nat_of_ascii "4") with 52%nat in Hd by reflexivity. lia.
        - replace (nat_of_ascii "0") with 48%nat in Hd by reflexivity. lia. }
      by rewrite (Hdigit c1 _ H1), (Hdigit c2 _ H2), (Hdigit c3 _ H3) by auto.
    + by right.
  - intros (a & x & b & -> & [->|Hx]); [left|right].
    + by exists a, "404", b.
    + by exists a, x, b.
Qed.

End StringLaws.

(** * Join, leave, delete and auto-assign over REST *)
Section RestLaws.

Import Service Laws Rest.

Implicit Types (b : Browser) (s : Svc) (sessionId roomId : string)
  (data : ParticipantData).

Lemma split_no_sep sep a : sep ∉ chars a → split sep a = [a].
Proof.
  induction a as [|c a IH]; [done|]. simpl. intros Hc.
  apply not_elem_of_cons in Hc as [Hne Hc].
  rewrite bool_decide_eq_false_2 by congruence. by rewrite IH.
Qed.

Lemma split_at_sep sep a rest :
  sep ∉ chars a → split sep (a +:+ String sep rest) = a :: split sep rest.
Proof.
  induction a as [|c a IH]; intros Hc.
  - change ("" +:+ String sep rest) with (String sep rest). simpl.
    by rewrite bool_decide_eq_true_2.
  - simpl in Hc. apply not_elem_of_cons in Hc as [Hne Hc].
    change (String c a +:+ String sep rest) with (String c (a +:+ String sep rest)).
    simpl. rewrite bool_decide_eq_false_2 by congruence. by rewrite IH.
Qed.

(** The session the REST join is sent to is what stands between the
    first and the second underscore of the room identifier: the session
    identifier of ["breakout_<session>_<room>"] when it has no underscore
    itself, only its part before the first underscore when it has one,
    and the text "undefined" when the room identifier has no underscore
    at all. *)
Theorem join_session_is_second_segment (a seg rest : string) :
  "_"%char ∉ chars a → "_"%char ∉ chars seg →
  session_of (a +:+ "_" +:+ seg) = seg ∧
  session_of (a +:+ "_" +:+ seg +:+ "_" +:+ rest) = seg ∧
  session_of a = "undefined".
Proof.
  intros Ha Hseg. unfold session_of.
  change (a +:+ "_" +:+ seg) with (a +:+ String "_" seg).
  change (a +:+ "_" +:+ seg +:+ "_" +:+ rest) with (a +:+ String "_" (seg +:+ String "_" rest)).
  rewrite !split_at_sep by done. by rewrite (split_no_sep _ a), (split_no_sep _ seg).
Qed.

Lemma storedToken_tokenless b :
  tokenless b → ∀ t, storedToken b = Some t → Js.truthy t = false.
Proof.
  intros (H1 & H2 & H3) t. unfold storedToken, or_item. rewrite H1, H2.
  intros Ht. by rewrite Ht in H3.
Qed.

Lemma storedToken_found b t :
  storedToken b = Some t → Js.truthy t = true →
  (localStorage b !! "veilo-auth-token" = Some t ∨
   localStorage b !! "admin_token" = Some t ∨
   localStorage b !! "token" = Some t) ∧
  (∀ v, localStorage b !! "veilo-auth-token" = Some v → v ≠ "" → t = v).
Proof.
  unfold storedToken, or_item. intros Hs Ht. split.
  - repeat case_match; auto.
  - intros v Hv Hne. rewrite Hv in Hs. simpl in Hs.
    rewrite truthy_true in Hs by done. congruence.
Qed.

Lemma drop_room_sends b (req : string → Request) roomId s r :
  Fetch r ∈ (drop_room b req roomId s).2 →
  ∃ t, storedToken b = Some t ∧ Js.truthy t = true ∧ r = req t.
Proof.
  unfold drop_room. destruct (storedToken b) as [t|]; [|by intros ?%elem_of_nil].
  destruct (Js.truthy t) eqn:Ht; [|by intros ?%elem_of_nil].
  intros Hr. exists t. split; [done|]. split; [done|].
  destruct (fetch b (req t)) as [?|[] ? ? ?]; simpl in Hr;
    apply list_elem_of_singleton in Hr; congruence.
Qed.

Lemma autoAssignParticipants_sends b sessionId s r :
  Fetch r ∈ (autoAssignParticipants b sessionId s).2 →
  ∃ t, storedToken b = Some t ∧ Js.truthy t = true ∧ r = assign_request sessionId t.
Proof.
  unfold autoAssignParticipants. destruct (storedToken b) as [t|]; [|by intros ?%elem_of_nil].
  destruct (Js.truthy t) eqn:Ht; [|by intros ?%elem_of_nil].
  intros Hr. exists t. split; [done|]. split; [done|].
  destruct (fetch b (assign_request sessionId t)) as [?|[] ? ? ?]; simpl in Hr;
    apply list_elem_of_singleton in Hr; congruence.
Qed.

Lemma joinRoomViaAPI_sends b roomId data s r :
  Fetch r ∈ (joinRoomViaAPI b roomId data s).2 →
  ∃ t, storedToken b = Some t ∧ Js.truthy t = true ∧ r = join_request roomId t data.
Proof.
  unfold joinRoomViaAPI. destruct (storedToken b) as [t|]; [|by intros ?%elem_of_nil].
  destruct (Js.truthy t) eqn:Ht; [|by intros ?%elem_of_nil].
  intros Hr. exists t. split; [done|]. split; [done|].
  destruct (fetch b (join_request roomId t data)) as [?|[] ? ? ?]; simpl in Hr;
    apply list_elem_of_singleton in Hr; congruence.
Qed.

Lemma joinBreakoutRoom_sends b roomId data s r :
  Fetch r ∈ (joinBreakoutRoom b roomId data s).2 →
  socket_up b = false ∧
  ∃ t, storedToken b = Some t ∧ Js.truthy t = true ∧ r = join_request roomId t data.
Proof.
  unfold joinBreakoutRoom. destruct (socket_up b).
  - simpl. intros Hr. apply list_elem_of_singleton in Hr. done.
  - intros Hr. split; [done|]. apply (joinRoomViaAPI_sends b roomId data s).
    by destruct (joinRoomViaAPI b roomId data s) as [[[?|?] ?] ?].
Qed.

(** Leave, delete, auto-assign and the REST join refuse to run without
    a stored token: when none of the three storage keys holds a
    non-empty token they fail with "No authentication token available",
    send nothing and leave the instance as it was.  A request that is
    sent carries a non-empty token found in the storage, the one under
    [veilo-auth-token] whenever that key holds a non-empty value. *)
Theorem rest_calls_need_a_stored_token b sessionId roomId data s :
  (tokenless b →
   leaveBreakoutRoom b sessionId roomId s = (ack_failed no_token, s, []) ∧
   deleteBreakoutRoom b sessionId roomId s = (ack_failed no_token, s, []) ∧
   autoAssignParticipants b sessionId s = (assign_failed no_token, s, []) ∧
   (socket_up b = false →
    joinBreakoutRoom b roomId data s = (failed no_token, s, []))) ∧
  (∀ r, Fetch r ∈ (leaveBreakoutRoom b sessionId roomId s).2
          ++ (deleteBreakoutRoom b sessionId roomId s).2
          ++ (autoAssignParticipants b sessionId s).2
          ++ (joinBreakoutRoom b roomId data s).2 →
        bearer r ≠ "" ∧
        storedToken b = Some (bearer r) ∧
        (∀ v, localStorage b !! "veilo-auth-token" = Some v → v ≠ "" → bearer r = v)).
Proof.
  split.
  - intros Hno. pose proof (storedToken_tokenless b Hno) as Hst.
    unfold leaveBreakoutRoom, deleteBreakoutRoom, drop_room, autoAssignParticipants,
      joinBreakoutRoom, joinRoomViaAPI.
    destruct (storedToken b) as [t|]; [rewrite (Hst t eq_refl)|];
      repeat split; try done; by intros ->.
  - intros r Hr.
    assert (∃ t, storedToken b = Some t ∧ Js.truthy t = true ∧ bearer r = t)
      as (t & Hs & Ht & Hb).
    { rewrite !elem_of_app in Hr. destruct Hr as [Hr|[Hr|[Hr|Hr]]].
      - apply drop_room_sends in Hr as (t & ? & ? & ->). by exists t.
      - apply drop_room_sends in Hr as (t & ? & ? & ->). by exists t.
      - apply autoAssignParticipants_sends in Hr as (t & ? & ? & ->). by exists t.
      - apply joinBreakoutRoom_sends in Hr as (_ & t & ? & ? & ->). by exists t. }
    rewrite Hb. split; [|split; [done|]].
    + by intros ->.
    + by apply storedToken_found.
Qed.

(** Leaving (and likewise deleting) a room sends exactly one request,
    to the room's own route with the stored token, whatever the answer;
    an ok answer succeeds and drops that room, and only that room, from
    the cache; an error status fails with "HTTP <status>: <text>" and a
    rejected request with its message, both leaving the cache as it was.
    The call never throws: every outcome is a result. *)
Theorem leave_and_delete_outcomes b sessionId roomId token s :
  storedToken b = Some token → token ≠ "" →
  let outcome req :=
    match fetch b (req token) with
    | Response true _ _ _ =>
        ({| ack_success := true; ack_error := None |}, cache_delete roomId s)
    | Response false status statusText _ =>
        (ack_failed (http_error status statusText), s)
    | Rejected msg => (ack_failed msg, s)
    end in
  leaveBreakoutRoom b sessionId roomId s =
    (outcome (leave_request sessionId roomId), [Fetch (leave_request sessionId roomId token)]) ∧
  deleteBreakoutRoom b sessionId roomId s =
    (outcome (delete_request sessionId roomId), [Fetch (delete_request sessionId roomId token)]) ∧
  roomCache (cache_delete roomId s) !! roomId = None ∧
  (∀ other, other ≠ roomId →
     roomCache (cache_delete roomId s) !! other = roomCache s !! other) ∧
  connectionMetrics (cache_delete roomId s) = connectionMetrics s.
Proof.
  intros Hs Hne. simpl.
  unfold leaveBreakoutRoom, deleteBreakoutRoom, drop_room. rewrite Hs, truthy_true by done.
  split; [by repeat case_match|]. split; [by repeat case_match|].
  simpl. split; [apply lookup_delete_eq|]. split; [|done].
  intros other Hother. by apply lookup_delete_ne.
Qed.

(** Joining over a connected socket emits the join, counts it and
    reports success at once, with no room in the result, no request and
    the cache untouched.  With the socket down the join goes over REST
    to the session named by the room identifier: an ok answer succeeds
    with the room of the body, cached under its own id when present;
    an error status or a rejected request is returned as a failure.
    The join counter only moves on the socket path. *)
Theorem joinBreakoutRoom_paths b roomId data s :
  (socket_up b = true →
   joinBreakoutRoom b roomId data s =
     (succeeded None, joined_now (now b) s, [SocketJoinBreakoutRoom roomId data]) ∧
   roomCache (joined_now (now b) s) = roomCache s ∧
   roomsJoined (connectionMetrics (joined_now (now b) s)) =
     roomsJoined (connectionMetrics s) + 1) ∧
  (socket_up b = false →
   connectionMetrics (joinBreakoutRoom b roomId data s).1.2 = connectionMetrics s ∧
   ∀ token, storedToken b = Some token → token ≠ "" →
     (joinBreakoutRoom b roomId data s).2 = [Fetch (join_request roomId token data)] ∧
     match fetch b (join_request roomId token data) with
     | Response true _ _ body =>
         (joinBreakoutRoom b roomId data s).1.1 = succeeded (b_room body) ∧
         match b_room body with
         | Some room =>
             roomCache (joinBreakoutRoom b roomId data s).1.2
               = <[id room := room]> (roomCache s)
         | None => (joinBreakoutRoom b roomId data s).1.2 = s
         end
     | Response false status statusText _ =>
         (joinBreakoutRoom b roomId data s).1 = (failed (http_error status statusText), s)
     | Rejected msg =>
         (joinBreakoutRoom b roomId data s).1 = (failed msg, s)
     end).
Proof.
  split; intros Hup; unfold joinBreakoutRoom; rewrite Hup.
  - done.
  - split.
    + unfold joinRoomViaAPI. repeat case_match; simplify_eq/=; done.
    + intros token Hs Hne. unfold joinRoomViaAPI. rewrite Hs, truthy_true by done.
      cbv zeta. destruct (fetch b (join_request roomId token data)) as [?|[] ? ? body];
        [done| |done].
      simpl. repeat split; try done. by destruct (b_room body).
Qed.

(** Auto-assignment sends one POST to the session's auto-assign route
    and never touches the instance; an ok answer succeeds with the
    counts of the body, anything else is a failure carrying the HTTP
    status line or the rejection message. *)
Theorem autoAssignParticipants_outcomes b sessionId token s :
  storedToken b = Some token → token ≠ "" →
  (autoAssignParticipants b sessionId s).1.2 = s ∧
  (autoAssignParticipants b sessionId s).2 = [Fetch (assign_request sessionId token)] ∧
  match fetch b (assign_request sessionId token) with
  | Response true _ _ body =>
      (autoAssignParticipants b sessionId s).1.1 =
        {| as_success := true; assignedCount := b_assignedCount body;
           totalRooms := b_totalRooms body; as_error := None |}
  | Response false status statusText _ =>
      (autoAssignParticipants b sessionId s).1.1 = assign_failed (http_error status statusText)
  | Rejected msg => (autoAssignParticipants b sessionId s).1.1 = assign_failed msg
  end.
Proof.
  intros Hs Hne. unfold autoAssignParticipants. rewrite Hs, truthy_true by done.
  cbv zeta. by destruct (fetch b (assign_request sessionId token)) as [?|[] ? ? ?].
Qed.

Lemma registered_app ws ws' acc :
  registered (ws ++ ws') acc = registered ws' (registered ws acc).
Proof.
  revert acc. induction ws as [|[e c|e c] ws IH]; intros acc; simpl; auto.
Qed.

(** The service remembers one callback per event: registering a second
    callback for the same event overwrites the first in the table while
    both stay attached to the socket, so removing the listener detaches
    only the second, and a further removal does nothing; the first
    callback stays attached for good. *)
Theorem second_listener_leaks_the_first event (c1 c2 : Callback) ls :
  c1 ≠ c2 →
  let '(ls1, w1) := addEventListener event c1 ls in
  let '(ls2, w2) := addEventListener event c2 ls1 in
  let '(ls3, w3) := removeEventListener event ls2 in
  let '(ls4, w4) := removeEventListener event ls3 in
  ls2 !! event = Some c2 ∧
  w3 = [Off event c2] ∧ w4 = [] ∧
  ls3 !! event = None ∧ ls4 = ls3 ∧
  ∀ acc, (event, c1) ∈ registered (w1 ++ w2 ++ w3 ++ w4) acc ∧
         (event, c2) ∉ registered (w1 ++ w2 ++ w3 ++ w4) acc.
Proof.
  intros Hne. unfold addEventListener, removeEventListener.
  rewrite lookup_insert_eq. rewrite lookup_delete_eq.
  split; [done|]. split; [done|]. split; [done|]. split; [done|]. split; [done|].
  intros acc. simpl. rewrite !filter_app.
  assert (filter (λ x, x ≠ (event, c2)) [(event, c1)] = [(event, c1)]) as ->.
  { rewrite filter_cons_True by congruence. done. }
  assert (filter (λ x, x ≠ (event, c2)) [(event, c2)] = []) as ->.
  { rewrite filter_cons_False by (intros H; by apply H). done. }
  rewrite app_nil_r. split.
  - apply elem_of_app. right. by apply list_elem_of_singleton.
  - rewrite elem_of_app, list_elem_of_filter, list_elem_of_singleton.
    intros [[? _]|?]; [done|congruence].
Qed.

Lemma keyed_cache_delete roomId s : keyed s → keyed (Rest.cache_delete roomId s).
Proof.
  unfold keyed. intros Hk k room Hl. simpl in Hl.
  apply lookup_delete_Some in Hl as [_ Hl]. eauto.
Qed.

(** Every path that writes the room cache files a room under its own
    id: if that held before, it holds after a leave, a delete, an
    auto-assign, a join on either path, and after any socket event the
    service handles. *)
Theorem rest_calls_and_handlers_keep_cache_keyed b sessionId roomId data s :
  keyed s →
  keyed (leaveBreakoutRoom b sessionId roomId s).1.2 ∧
  keyed (deleteBreakoutRoom b sessionId roomId s).1.2 ∧
  keyed (autoAssignParticipants b sessionId s).1.2 ∧
  keyed (joinBreakoutRoom b roomId data s).1.2 ∧
  ∀ i, keyed (handle i s).
Proof.
  intros Hk.
  assert (∀ req, keyed (drop_room b req roomId s).1.2) as Hdrop.
  { intros req. unfold drop_room.
    repeat case_match; simpl; auto using keyed_cache_delete. }
  split; [apply Hdrop|]. split; [apply Hdrop|]. split; [|split].
  - unfold autoAssignParticipants. repeat case_match; simpl; auto.
  - unfold joinBreakoutRoom, joinRoomViaAPI.
    repeat case_match; simplify_eq/=; auto using keyed_cache_set.
  - intros i. unfold handle.
    repeat case_match; auto using keyed_cache_set, keyed_cache_delete.
Qed.

End RestLaws.

(** * The studio's handlers over the adapter and the hook *)

Section StudioLaws.

Import Socket Studio.

Variable sessionId : string.
Variable currentUser : CurrentUser.
Variable A : Type.
Variable wire_config : BreakoutRoomConfig → Any.
Variable wire_participant : JoinData → Any.

Abbreviation handleCreateRoom' :=
  (handleCreateRoom sessionId currentUser A wire_config).

Lemma or_str_nonempty o d : d ≠ "" → Js.or_str o d ≠ "".
Proof.
  intros Hd. unfold Js.or_str. destruct o as [s|]; [|done].
  unfold Js.truthy. case_bool_decide; done.
Qed.

Lemma length_lt_2_blank n : Str.trim n = "" → (String.length (Str.trim n) < 2)%nat.
Proof. intros ->. simpl. lia. Qed.

(** The form's own check comes before everything: a form without a
    name, or whose name has fewer than two characters once trimmed,
    gets one destructive toast and nothing else happens, no state is
    set and nothing is requested of the backend or the hook.  A name
    that passes is sent trimmed, in exactly one request to the
    session's breakout-rooms route, with a non-zero room size; the
    request is bracketed by [setIsCreating(true)] and
    [setIsCreating(false)], and [isCreating] is false afterwards
    whatever the adapter and the hook answer. *)
Theorem handleCreateRoom_checks_the_name_first {R}
    (backend : BreakoutRoomConfig → Backend.ApiOutcome R) captured now ui h :
  let r := handleCreateRoom' backend captured now ui h in
  (∀ n, form_name (roomForm ui) = Some n → (2 ≤ String.length (Str.trim n))%nat →
     let config := config_of currentUser (roomForm ui) n in
     conf_name config = Str.trim n ∧ conf_maxParticipants config ≠ 0 ∧
     filter is_request r.2 = [PostRoom (Backend.rooms_url sessionId) config] ∧
     head r.2 = Some (SetIsCreating true) ∧
     last r.2 = Some (SetIsCreating false) ∧
     isCreating r.1.1 = false) ∧
  ((∀ n, form_name (roomForm ui) = Some n → (String.length (Str.trim n) < 2)%nat) →
     r.1 = (ui, h) ∧
     ∃ t, r.2 = [ShowToast t] ∧ variant t = destructive).
Proof.
  intros r. subst r. split.
  - intros n Hn Hlen config. split; [done|]. split.
    { subst config. simpl. unfold Js.or_num.
      destruct (form_maxParticipants _) as [m|]; [|done]. by case_bool_decide. }
    unfold handleCreateRoom. rewrite Hn.
    assert (Js.truthy (Str.trim n) = true) as ->.
    { apply truthy_true. intros Hb. rewrite Hb in Hlen. simpl in Hlen. lia. }
    rewrite bool_decide_eq_false_2 by lia. cbv zeta. simpl negb. cbv iota.
    fold config.
    destruct (Backend.success _); [|done].
    unfold createRoom. by case_bool_decide.
  - intros Hshort. unfold handleCreateRoom.
    destruct (form_name (roomForm ui)) as [n|]; [|by split; [|eexists]].
    specialize (Hshort n eq_refl).
    destruct (Js.truthy (Str.trim n)); simpl; [|by split; [|eexists]].
    rewrite bool_decide_eq_true_2 by done. by split; [|eexists].
Qed.

(** The room is created in the backend first and the hook is told
    second, so the two can disagree: when the adapter reports success
    but the hook's [createRoom] holds a status other than connected,
    the user is told "Creation Failed: Socket not connected", nothing
    is emitted, the dialog stays as it was and the form keeps its
    values, although the backend has the room.  When the status held
    is connected, one [create_breakout_room] is emitted for the same
    configuration, the sent counter moves, the dialog closes and the
    form is reset. *)
Theorem backend_room_without_socket_reports_failure {R}
    (backend : BreakoutRoomConfig → Backend.ApiOutcome R) captured now ui h n room e :
  form_name (roomForm ui) = Some n → (2 ≤ String.length (Str.trim n))%nat →
  backend (config_of currentUser (roomForm ui) n) = Backend.ApiAnswered true (Some room) e →
  let config := config_of currentUser (roomForm ui) n in
  let r := handleCreateRoom' backend captured now ui h in
  (captured ≠ connected →
     r = (set_isCreating false ui, h,
          [SetIsCreating true; PostRoom (Backend.rooms_url sessionId) config;
           ShowToast (creation_failed not_connected); SetIsCreating false])) ∧
  (captured = connected →
     r = (set_isCreating false (close_and_reset ui), sent_one true h,
          [SetIsCreating true; PostRoom (Backend.rooms_url sessionId) config;
           Emitted (create_breakout_room sessionId (wire_config config) now);
           SetIsCreateDialogOpen false; SetRoomForm initial_form;
           ShowToast (room_created (Str.trim n)); SetIsCreating false]) ∧
     eventsSent (metrics r.1.2) = eventsSent (metrics h) + 1 ∧
     state r.1.2 = state h).
Proof.
  intros Hn Hlen Hb config r. subst r. unfold handleCreateRoom. rewrite Hn.
  assert (Js.truthy (Str.trim n) = true) as ->.
  { apply truthy_true. intros Hb'. rewrite Hb' in Hlen. simpl in Hlen. lia. }
  rewrite bool_decide_eq_false_2 by lia. cbv zeta. simpl negb. cbv iota.
  fold config. subst config. rewrite Hb. simpl Backend.success. cbv iota.
  unfold createRoom. split; intros Hc.
  - by rewrite bool_decide_eq_true_2.
  - rewrite bool_decide_eq_false_2 by (intros H; by apply H). done.
Qed.

(** Every call shows exactly one toast and its text is never empty.
    The toast is the plain "Room Created" one exactly when the hook
    emitted the creation, which happens only after the adapter reported
    success; a destructive toast after a request carries the adapter's
    error, or "Failed to create room" when that is empty, or the hook's
    own error. *)
Theorem handleCreateRoom_shows_one_toast {R}
    (backend : BreakoutRoomConfig → Backend.ApiOutcome R) captured now ui h :
  let r := handleCreateRoom' backend captured now ui h in
  ∃ t, filter is_toast r.2 = [ShowToast t] ∧
       description t ≠ "" ∧
       (variant t = plain ↔ ∃ o, Emitted o ∈ r.2) ∧
       ((∃ o, Emitted o ∈ r.2) →
          captured = connected ∧
          ∃ n room e, form_name (roomForm ui) = Some n ∧
            backend (config_of currentUser (roomForm ui) n)
              = Backend.ApiAnswered true (Some room) e).
Proof.
  intros r. subst r. unfold handleCreateRoom.
  assert (∀ (t : Toast) (P : Prop),
            (variant t = plain ↔ ∃ o, @Emitted A o ∈ [ShowToast t]) ∧
            ((∃ o, @Emitted A o ∈ [ShowToast t]) → P) ↔ variant t ≠ plain) as Hone.
  { intros t P. split.
    - intros [Hv _] Hp. apply Hv in Hp as [o Ho].
      apply list_elem_of_singleton in Ho. discriminate.
    - intros Hv. split; [split; [done|]|]; intros [o Ho];
        apply list_elem_of_singleton in Ho; discriminate. }
  destruct (form_name (roomForm ui)) as [n|].
  2:{ exists name_required. split; [done|]. split; [done|]. by apply Hone. }
  destruct (Js.truthy (Str.trim n)); simpl negb; cbv iota.
  2:{ exists name_required. split; [done|]. split; [done|]. by apply Hone. }
  case_bool_decide.
  { exists name_too_short. split; [done|]. split; [done|]. by apply Hone. }
  cbv zeta.
  set (config := config_of currentUser (roomForm ui) n).
  assert (∀ (msg : string) (P : Prop), msg ≠ "" →
    let t := [SetIsCreating true; PostRoom (Backend.rooms_url sessionId) config] ++
             [ShowToast (creation_failed msg); @SetIsCreating A false] in
    ∃ t0, filter is_toast t = [ShowToast t0] ∧ description t0 ≠ "" ∧
          (variant t0 = plain ↔ ∃ o, Emitted o ∈ t) ∧ ((∃ o, Emitted o ∈ t) → P)) as Hfail.
  { intros msg P Hmsg t. exists (creation_failed msg). split; [done|]. split; [done|].
    split; [split; [done|]|]; intros [o Ho]; subst t; simpl in Ho;
      repeat (apply elem_of_cons in Ho as [Ho|Ho]; [done|]); by apply elem_of_nil in Ho. }
  destruct (backend config) as [t|[] [room|] e] eqn:Hb; simpl Backend.success; cbv iota.
  2:{ unfold createRoom. case_bool_decide as Hc.
      - by apply Hfail.
      - exists (room_created (Str.trim n)). simpl. split; [done|]. split; [done|].
        split; [split; [|done]|].
        + intros _. eexists. rewrite !elem_of_cons. right. right. by left.
        + intros _. split; [by destruct (decide (captured = connected)); [|exfalso; auto]|].
          by exists n, room, e. }
  all: by apply Hfail, or_str_nonempty.
Qed.


(** Auto-assignment asks nothing of the backend while the hook knows no
    room.  With a room known it sends one request to the session's
    auto-assign route and leaves [autoAssignInProgress] false; the
    [onParticipantAssigned] callback runs, with the assignments of the
    answer, exactly when the callback was given and the request was
    answered with success and an assignments array, an empty array
    included. *)
Theorem handleAutoAssign_outcomes (backend : Backend.ApiOutcome (list A)) strategy
    callback ui h :
  let r := handleAutoAssign sessionId A backend strategy callback ui h in
  (rooms (state h) = ∅ → r = (ui, [ShowToast no_rooms])) ∧
  (rooms (state h) ≠ ∅ →
     autoAssignInProgress r.1 = false ∧
     filter is_request r.2 = [PostAutoAssign (Backend.assign_url sessionId) strategy] ∧
     ∀ l, ParticipantAssigned l ∈ r.2 ↔
          callback = true ∧ ∃ e, backend = Backend.ApiAnswered true (Some l) e).
Proof.
  intros r. subst r. unfold handleAutoAssign. split.
  - intros ->. by rewrite bool_decide_eq_true_2.
  - intros Hne. rewrite bool_decide_eq_false_2 by (by rewrite map_size_empty_iff).
    cbv zeta.
    assert (∀ (l : list A) (t : Toast),
      ¬ ParticipantAssigned l ∈
        [SetAutoAssignInProgress true; PostAutoAssign (Backend.assign_url sessionId) strategy] ++
        [ShowToast t; SetAutoAssignInProgress false]) as Hnot.
    { intros l t Hl. simpl in Hl.
      repeat (apply elem_of_cons in Hl as [Hl|Hl]; [done|]). by apply elem_of_nil in Hl. }
    destruct backend as [t|[] [l0|] e]; simpl.
    2:{ split; [done|]. split; [by destruct callback|]. intros l. split.
        - intros Hl. destruct callback; simpl in Hl;
            repeat (apply elem_of_cons in Hl as [Hl|Hl]; [simplify_eq|]);
            try (by apply elem_of_nil in Hl).
          split; [done|]. by exists e.
        - intros [-> [e' [= -> ->]]]. simpl. rewrite !elem_of_cons. do 3 right. by left. }
    all: split; [done|]; split; [done|]; intros l; split;
      [by intros ?%Hnot | by intros [_ [? ?]]].
Qed.

(** Joining from the studio goes through the hook's guard: with a
    status other than connected held by the hook nothing is emitted,
    the hook is left as it was and the destructive "Join Failed" toast
    is shown; otherwise one join request is emitted for the current
    user, the pointer moves to the room at once and the toast says
    "Joining Room".  The user joins as facilitator exactly when host or
    moderator. *)
Theorem handleJoinRoom_outcomes captured roomId now h :
  let r := handleJoinRoom sessionId currentUser A wire_participant captured roomId now h in
  (captured ≠ connected → r = (h, [ShowToast join_failed])) ∧
  (captured = connected →
     currentRoom (state r.1) = Some roomId ∧
     rooms (state r.1) = rooms (state h) ∧
     eventsSent (metrics r.1) = eventsSent (metrics h) + 1 ∧
     r.2 = [Emitted (join_breakout_room sessionId roomId
                       (wire_participant (join_data currentUser)) now);
            ShowToast joining]) ∧
  (jd_role (join_data currentUser) = facilitator ↔
     isHost currentUser = true ∨ isModerator currentUser = true).
Proof.
  intros r. subst r. unfold handleJoinRoom, joinRoom. split; [|split].
  - intros Hc. by rewrite bool_decide_eq_true_2.
  - intros ->. by rewrite bool_decide_eq_false_2 by (intros H; by apply H).
  - unfold join_data. simpl. destruct (isHost currentUser), (isModerator currentUser);
      simpl; (split; [intros ?; first [done | by left | by right] | by intros [?|?]]).
Qed.

End StudioLaws.

(** * The further properties on the sample data *)

Section MoreInstances.

Import Samples Fixtures.

Lemma room_event_last_write_wins_witness :
  Socket.rooms (Socket.state
    (Socket.processEvents true ([alice_left] ++ [lounge_created]) mounted)) !! "r1"
  = Some lounge.
Proof.
  destruct (room_event_last_write_wins true [alice_left] lounge_created mounted lounge)
    as (Hroom & _).
  - left. reflexivity.
  - reflexivity.
  - compute_done.
  - compute_done.
  - exact Hroom.
Defined.

Lemma room_deleted_removes_only_the_room_witness :
  Socket.rooms (Socket.state (Socket.processEvent true lounge_deleted in_lounge)) !! "r1" = None ∧
  Socket.currentRoom (Socket.state (Socket.processEvent true lounge_deleted in_lounge)) = None.
Proof.
  destruct (room_deleted_removes_only_the_room true lounge_deleted in_lounge "r1")
    as (Hrooms & _ & Hptr).
  - reflexivity.
  - reflexivity.
  - discriminate.
  - compute_done.
  - split.
    + rewrite Hrooms. apply lookup_delete_eq.
    + rewrite Hptr. reflexivity.
Defined.

Lemma room_status_changed_witness :
  Socket.rooms (Socket.state (Socket.processEvent true lounge_paused with_lounge)) !! "r1"
  = Some (Socket.with_status lounge Socket.paused).
Proof.
  destruct (room_status_changed_touches_status_only true lounge_paused with_lounge
              "r1" Socket.paused)
    as (Hheld & _).
  - reflexivity.
  - reflexivity.
  - discriminate.
  - reflexivity.
  - compute_done.
  - destruct (Hheld lounge) as (Hrooms & _).
    + vm_compute. reflexivity.
    + rewrite Hrooms. apply lookup_insert_eq.
Defined.

Lemma only_room_events_add_rooms_witness :
  Socket.rooms (Socket.state (Socket.processEvent true alice_updated_zero mounted)) = ∅ ∧
  Socket.st_participants (Socket.state (Socket.processEvent true alice_updated_zero mounted))
    !! "p1" = Some alice.
Proof.
  destruct (only_room_events_add_rooms true alice_updated_zero mounted) as (_ & Hpart).
  - discriminate.
  - discriminate.
  - destruct (Hpart "r1" alice) as (Hrooms & Hp).
    + right. reflexivity.
    + reflexivity.
    + reflexivity.
    + discriminate.
    + compute_done.
    + reflexivity.
    + split; [exact Hrooms | exact Hp].
Defined.

Lemma auto_assignment_witness :
  Socket.rooms (Socket.state (Socket.processEvent true assigned with_lounge))
    = Socket.rooms (Socket.state with_lounge) ∧
  Socket.st_participants (Socket.state (Socket.processEvent true assigned mounted)) = ∅.
Proof.
  split.
  - destruct (auto_assignment_records_participants_of_known_rooms true assigned with_lounge
                two_assignments) as (Hrooms & _).
    + reflexivity.
    + reflexivity.
    + compute_done.
    + exact Hrooms.
  - destruct (auto_assignment_records_participants_of_known_rooms true assigned mounted
                two_assignments) as (_ & _ & Hnone).
    + reflexivity.
    + reflexivity.
    + compute_done.
    + apply Hnone. intros a _. reflexivity.
Defined.

Lemma eventsReceived_witness :
  Socket.eventsReceived (Socket.metrics (Socket.processEvents true (ticks 3) mounted)) = 3 ∧
  Socket.metrics (Socket.processEvents false (ticks 3) mounted) = Socket.metrics mounted.
Proof.
  split.
  - destruct (eventsReceived_counts_folded_events true (ticks 3) mounted)
      as (_ & _ & Hnew & _).
    rewrite Hnew.
    + reflexivity.
    + reflexivity.
    + apply ticks_distinct.
    + intros e _. apply not_elem_of_nil.
  - destruct (eventsReceived_counts_folded_events false (ticks 3) mounted)
      as (_ & _ & _ & Hoff).
    apply Hoff. reflexivity.
Defined.

Lemma evicted_events_witness :
  let h := Socket.processEvents true (ticks 1001) (Socket.initial "2024-01-01T00:00:00.000Z") in
  Socket.state (Socket.processEvent true (tick 0) h) = Socket.reduce (tick 0) (Socket.state h) ∧
  Socket.processEvent true (tick 1000) h = h.
Proof.
  assert (length (ticks 1001) = 1001%nat) as Hlen.
  { unfold ticks. rewrite length_fmap, length_seq. reflexivity. }
  pose proof (evicted_events_are_folded_again true (ticks 1001)
                "2024-01-01T00:00:00.000Z" (tick 0) (ticks_distinct 1001) Hlen) as [Hold _].
  pose proof (evicted_events_are_folded_again true (ticks 1001)
                "2024-01-01T00:00:00.000Z" (tick 1000) (ticks_distinct 1001) Hlen) as [_ Hnew].
  split.
  - apply Hold. unfold ticks. rewrite <- fmap_take. apply list_elem_of_fmap_2.
    rewrite take_seq. apply elem_of_seq. simpl. lia.
  - apply Hnew. unfold ticks. rewrite <- fmap_drop. apply list_elem_of_fmap_2.
    rewrite drop_seq. apply elem_of_seq. simpl. lia.
Defined.

Lemma reconnect_witness :
  Conn.did_of (Conn.reconnect "s1" None in_lounge)
  = [Conn.emit_leave_breakout_session "s1"; Conn.socket_disconnect; Conn.pause 1000;
     Conn.socket_connect; Conn.emit_join_breakout_session "s1"] ∧
  Socket.currentRoom (Socket.state (Conn.hook_of (Conn.reconnect "s1" None in_lounge)))
  = Some "r1" ∧
  Socket.connectionStatus
    (Socket.state (Conn.hook_of (Conn.reconnect "s1" (Some "refused") in_lounge)))
  = Socket.error.
Proof.
  destruct (reconnect_outcome_and_order "s1" None in_lounge) as (Hkept & Hok & _).
  destruct (reconnect_outcome_and_order "s1" (Some "refused") in_lounge) as (_ & _ & Hno).
  destruct (Hok eq_refl) as (Hrun & _).
  destruct (Hno "refused" eq_refl) as (_ & Hstatus).
  split; [by rewrite Hrun|]. split; [|exact Hstatus].
  exact (f_equal (λ x, x.1.1.2) Hkept).
Defined.

Lemma mount_witness :
  Conn.isInitialized (Conn.mount "s1" (Some "refused") unmounted).1 = true ∧
  Conn.mount "s1" None (Conn.mount "s1" (Some "refused") unmounted).1
  = ((Conn.mount "s1" (Some "refused") unmounted).1, []) ∧
  Conn.mount "" None unmounted = (unmounted, []).
Proof.
  destruct (mount_connects_at_most_once "s1" (Some "refused") None unmounted)
    as (_ & Hagain & Hfirst).
  destruct (mount_connects_at_most_once "" None None unmounted) as (Hempty & _).
  destruct Hfirst as (Hinit & _); [discriminate | reflexivity |].
  split; [exact Hinit|]. split; [exact Hagain | by apply Hempty].
Defined.

Lemma leave_after_join_witness :
  ∃ h2 sent2,
    Socket.leaveRoom "s1" true Socket.connected "r2" "2024-01-01T00:03:00.000Z" in_lounge
      = Socket.Resolved h2 sent2 ∧
    Socket.currentRoom (Socket.state h2) = Some "r1" ∧
    Socket.rooms (Socket.state h2) = Socket.rooms (Socket.state with_lounge).
Proof.
  eexists _, _. split; [reflexivity|].
  destruct (leave_after_join_clears_pointer_only_on_match "s1" true
              Socket.connected Socket.connected "r1" "r2" "alice"
              "2024-01-01T00:02:00.000Z" "2024-01-01T00:03:00.000Z"
              with_lounge in_lounge _ _ _ eq_refl eq_refl)
    as (Hptr & Hrooms & _).
  split; [exact Hptr | exact Hrooms].
Defined.

Lemma metrics_view_witness :
  Conn.totalRooms (Conn.getRealtimeMetrics (Socket.processEvent true lounge_created mounted))
  = 1%nat ∧
  Conn.totalRooms (Conn.getRealtimeMetrics (Socket.processEvent true lounge_updated with_lounge))
  = 1%nat ∧
  Conn.totalRooms (Conn.getRealtimeMetrics (Socket.clearCache with_lounge)) = 0%nat.
Proof.
  destruct (metrics_view_follows_the_maps true lounge_created mounted lounge)
    as (Hone & _).
  { left. reflexivity. }
  { reflexivity. }
  { compute_done. }
  destruct (metrics_view_follows_the_maps true lounge_updated with_lounge lounge)
    as (Hsame & _ & Hzero & _).
  { right. reflexivity. }
  { reflexivity. }
  { compute_done. }
  split; [rewrite Hone; reflexivity|]. split; [rewrite Hsame; reflexivity | exact Hzero].
Defined.

Lemma createBreakoutRoom_result_witness :
  (∃ r, Service.result_of
          (Service.createBreakoutRoom signed_out "s1" (settings "Lounge" 6) caching)
        = Service.Returned r) ∧
  Laws.keyed (Service.fields_of
                (Service.createBreakoutRoom backend_up "s1" (settings "Lounge" 6) caching)).
Proof.
  destruct (createBreakoutRoom_always_returns_a_result signed_out "s1" (settings "Lounge" 6)
              caching) as ((r & Hr & _) & _).
  destruct (createBreakoutRoom_always_returns_a_result backend_up "s1" (settings "Lounge" 6)
              caching) as (_ & Hkeyed).
  split; [by exists r|]. apply Hkeyed.
  apply keyed_cache_set. intros k room Hk. simpl in Hk. by rewrite lookup_empty in Hk.
Defined.

Lemma pollForRoomByName_witness :
  ∃ o s' t,
    Service.pollForRoomByName (flaky []) "s1" "Lounge" 6 1000 fresh_service
      = (Service.Returned o, s', t) ∧
    (Laws.count Laws.is_list_request t ≤ 6)%nat ∧
    (∀ r, o = Some r → Service.name r = "Lounge").
Proof.
  destruct (pollForRoomByName_is_bounded (flaky []) "s1" "Lounge" 6 1000 fresh_service)
    as ((o & s' & t & Hrun & Hcount & _ & _ & Hname & _) & _).
  by exists o, s', t.
Defined.

Lemma awaitAck_witness :
  ∃ r t,
    Service.awaitAck (flaky []) "s1" (settings "Lounge" 6) fresh_service
      = (Service.Returned r,
         Service.created_now "2024-01-01T00:00:59.000Z" fresh_service, t) ∧
    Service.roomsCreated
      (Service.connectionMetrics
         (Service.created_now "2024-01-01T00:00:59.000Z" fresh_service)) = 1.
Proof.
  destruct (awaitAck_counts_the_request_and_names_the_room (flaky []) "s1"
              (settings "Lounge" 6) fresh_service)
    as (r & t & Hrun & _ & Hcount & _).
  exists r, t. split; [exact Hrun | exact Hcount].
Defined.

Lemma createRoomViaAPI_token_witness :
  Service.createRoomViaAPI signed_out "s1" (settings "Lounge" 6) fresh_service
  = (Service.Thrown "No authentication token available", fresh_service, []) ∧
  ∃ msg,
    Service.createBreakoutRoom signed_out "s1" (settings "Lounge" 6) fresh_service
    = (Service.Returned (Service.failed msg), fresh_service,
       Service.preflight "s1" ++ [Service.DebugBreakoutRoomPermissions "s1"]).
Proof.
  destruct (createRoomViaAPI_needs_a_valid_token signed_out "s1" (settings "Lounge" 6)
              fresh_service) as (Hnone & _ & Hwhole).
  split; [by apply Hnone|].
  apply Hwhole.
  - left. reflexivity.
  - discriminate.
  - simpl. lia.
  - reflexivity.
  - reflexivity.
Defined.

Lemma rest_path_tiers_witness :
  Service.createRoomViaAPI backend_up "s1" (settings "Lounge" 6) fresh_service
  = (Service.Returned (Service.succeeded (Some (served "Lounge"))),
     Service.cache_set (served "Lounge") fresh_service,
     [Service.BackendCreate "s1" "Lounge"]).
Proof.
  destruct (rest_path_tiers backend_up "s1" (settings "Lounge" 6) fresh_service)
    as (Hfirst & _).
  - reflexivity.
  - reflexivity.
  - apply (Hfirst (served "Lounge")); reflexivity.
Defined.

Lemma socket_down_witness :
  Service.connectionMetrics
    (Service.fields_of
       (Service.createBreakoutRoom backend_up "s1" (settings "Lounge" 6) fresh_service))
  = Service.connectionMetrics fresh_service ∧
  Forall (λ a, Laws.is_socket_action a = false)
    (Service.trace_of
       (Service.createBreakoutRoom backend_up "s1" (settings "Lounge" 6) fresh_service)).
Proof.
  destruct (socket_down_goes_straight_to_rest backend_up "s1" (settings "Lounge" 6)
              fresh_service) as (_ & Hmetrics & Hquiet).
  - discriminate.
  - simpl. lia.
  - reflexivity.
  - reflexivity.
  - split; [exact Hmetrics | exact Hquiet].
Defined.

Lemma validate_outcomes_witness :
  Service.validate (settings "  " 6) fresh_service
  = (Service.Thrown Service.name_required, fresh_service, []) ∧
  Service.validate (settings "Lounge" 21) fresh_service
  = (Service.Thrown Service.out_of_range, fresh_service, []).
Proof.
  destruct (validate_outcomes (settings "  " 6) fresh_service) as (Hblank & _).
  destruct (validate_outcomes (settings "Lounge" 21) fresh_service) as (_ & Hrange & _).
  split.
  - apply Hblank. repeat constructor.
  - apply Hrange. split; [|right; simpl; lia].
    intros Hall. apply Forall_inv in Hall. discriminate.
Defined.

Lemma test_404_witness :
  Str.test_404 "Route Not Found on this server" = true.
Proof.
  apply test_404_is_a_substring_test.
  exists "Route ", "Not Found", " on this server". split; [reflexivity|].
  right. reflexivity.
Defined.

Lemma join_session_witness :
  Rest.session_of "breakout_s1_r9" = "s1" ∧ Rest.session_of "r9" = "undefined".
Proof.
  destruct (join_session_is_second_segment "breakout" "s1" "r9") as (_ & Hmid & _);
    [compute_done..|].
  destruct (join_session_is_second_segment "r9" "s1" "") as (_ & _ & Hnone);
    [compute_done..|].
  split; [exact Hmid | exact Hnone].
Defined.

Lemma stored_token_witness :
  Rest.leaveBreakoutRoom (browser ∅ true) "s1" "r9" caching
  = (Rest.ack_failed Rest.no_token, caching, []) ∧
  ∀ r, Rest.Fetch r ∈ (Rest.deleteBreakoutRoom (browser storage true) "s1" "r9" caching).2 →
       Rest.bearer r = "tok".
Proof.
  destruct (rest_calls_need_a_stored_token (browser ∅ true) "s1" "r9" anyone caching)
    as (Hnone & _).
  destruct (rest_calls_need_a_stored_token (browser storage true) "s1" "r9" anyone caching)
    as (_ & Hsent).
  split.
  - apply Hnone. repeat split.
  - intros r Hr. destruct (Hsent r) as (_ & Hstored & _).
    + apply elem_of_app. right. apply elem_of_app. left. exact Hr.
    + injection Hstored as <-. reflexivity.
Defined.

Lemma leave_and_delete_witness :
  (Rest.leaveBreakoutRoom (browser storage false) "s1" "r9" caching).1.1
  = {| Rest.ack_success := true; Rest.ack_error := None |} ∧
  Service.roomCache (Rest.leaveBreakoutRoom (browser storage false) "s1" "r9" caching).1.2
    !! "r9" = None.
Proof.
  destruct (leave_and_delete_outcomes (browser storage false) "s1" "r9" "tok" caching)
    as (Hleave & _ & Hgone & _).
  - reflexivity.
  - discriminate.
  - rewrite Hleave. split; [reflexivity | exact Hgone].
Defined.

Lemma joinBreakoutRoom_witness :
  Rest.joinBreakoutRoom (browser storage true) "breakout_s1_r9" anyone fresh_service
  = (Service.succeeded None,
     Rest.joined_now "2024-01-01T00:02:00.000Z" fresh_service,
     [Rest.SocketJoinBreakoutRoom "breakout_s1_r9" anyone]) ∧
  Service.connectionMetrics
    (Rest.joinBreakoutRoom (browser storage false) "breakout_s1_r9" anyone fresh_service).1.2
  = Service.connectionMetrics fresh_service.
Proof.
  destruct (joinBreakoutRoom_paths (browser storage true) "breakout_s1_r9" anyone fresh_service)
    as (Hup & _).
  destruct (joinBreakoutRoom_paths (browser storage false) "breakout_s1_r9" anyone fresh_service)
    as (_ & Hdown).
  destruct (Hup eq_refl) as (Hrun & _).
  destruct (Hdown eq_refl) as (Hmetrics & _).
  split; [exact Hrun | exact Hmetrics].
Defined.

Lemma second_listener_witness :
  let '(ls1, w1) := Rest.addEventListener "breakout_room_created" 1%nat ∅ in
  let '(ls2, w2) := Rest.addEventListener "breakout_room_created" 2%nat ls1 in
  let '(ls3, w3) := Rest.removeEventListener "breakout_room_created" ls2 in
  let '(ls4, w4) := Rest.removeEventListener "breakout_room_created" ls3 in
  ls2 !! "breakout_room_created" = Some 2%nat ∧
  w3 = [Rest.Off "breakout_room_created" 2%nat] ∧ w4 = [] ∧
  ls3 !! "breakout_room_created" = None ∧ ls4 = ls3 ∧
  ∀ acc, ("breakout_room_created", 1%nat) ∈ Rest.registered (w1 ++ w2 ++ w3 ++ w4) acc ∧
         ("breakout_room_created", 2%nat) ∉ Rest.registered (w1 ++ w2 ++ w3 ++ w4) acc.
Proof.
  apply (second_listener_leaks_the_first "breakout_room_created" 1%nat 2%nat ∅).
  discriminate.
Defined.

Lemma cache_keyed_witness :
  Laws.keyed (Rest.joinBreakoutRoom (browser storage false) "breakout_s1_r9" anyone caching).1.2 ∧
  Laws.keyed (Rest.handle (Rest.in_room_closed (Some "r9")) caching).
Proof.
  destruct (rest_calls_and_handlers_keep_cache_keyed (browser storage false) "s1"
              "breakout_s1_r9" anyone caching) as (_ & _ & _ & Hjoin & Hhandle).
  - apply keyed_cache_set. intros k room Hk. simpl in Hk. by rewrite lookup_empty in Hk.
  - split; [exact Hjoin | apply Hhandle].
Defined.

Lemma name_check_witness :
  let r := Studio.handleCreateRoom "s1" host unit on_wire creating Socket.connected
             "2024-01-01T00:04:00.000Z" (dialog "  Lounge ") with_lounge in
  let r' := Studio.handleCreateRoom "s1" host unit on_wire creating Socket.connected
              "2024-01-01T00:04:00.000Z" (dialog " L ") with_lounge in
  filter Studio.is_request r.2
  = [Studio.PostRoom "/api/flagship-sanctuary/s1/breakout-rooms"
       (Studio.config_of host (Studio.roomForm (dialog "  Lounge ")) "  Lounge ")] ∧
  Studio.conf_name (Studio.config_of host (Studio.roomForm (dialog "  Lounge ")) "  Lounge ")
  = "Lounge" ∧
  Studio.conf_maxParticipants
    (Studio.config_of host (Studio.roomForm (dialog "  Lounge ")) "  Lounge ") = 6 ∧
  r'.1 = (dialog " L ", with_lounge).
Proof.
  intros r r'.
  destruct (handleCreateRoom_checks_the_name_first "s1" host unit on_wire creating
              Socket.connected "2024-01-01T00:04:00.000Z" (dialog "  Lounge ") with_lounge)
    as (Hpass & _).
  destruct (handleCreateRoom_checks_the_name_first "s1" host unit on_wire creating
              Socket.connected "2024-01-01T00:04:00.000Z" (dialog " L ") with_lounge)
    as (_ & Hshort).
  destruct (Hpass "  Lounge " eq_refl) as (Hname & _ & Hasked & _).
  { vm_compute. lia. }
  destruct Hshort as (Hkept & _).
  { intros n [= <-]. vm_compute. lia. }
  split; [exact Hasked|]. split; [|split; [reflexivity | exact Hkept]].
  rewrite Hname. reflexivity.
Defined.

Lemma backend_without_socket_witness :
  (Studio.handleCreateRoom "s1" host unit on_wire creating Socket.disconnected
     "2024-01-01T00:04:00.000Z" (dialog "Lounge") with_lounge).2
  = [Studio.SetIsCreating true;
     Studio.PostRoom "/api/flagship-sanctuary/s1/breakout-rooms"
       (Studio.config_of host (Studio.roomForm (dialog "Lounge")) "Lounge");
     Studio.ShowToast (Studio.creation_failed "Socket not connected");
     Studio.SetIsCreating false] ∧
  Studio.isCreateDialogOpen
    (Studio.handleCreateRoom "s1" host unit on_wire creating Socket.connected
       "2024-01-01T00:04:00.000Z" (dialog "Lounge") with_lounge).1.1 = false.
Proof.
  destruct (backend_room_without_socket_reports_failure "s1" host unit on_wire creating
              Socket.disconnected "2024-01-01T00:04:00.000Z" (dialog "Lounge") with_lounge
              "Lounge" "Lounge" None) as (Hdown & _).
  { reflexivity. }
  { vm_compute. lia. }
  { reflexivity. }
  destruct (backend_room_without_socket_reports_failure "s1" host unit on_wire creating
              Socket.connected "2024-01-01T00:04:00.000Z" (dialog "Lounge") with_lounge
              "Lounge" "Lounge" None) as (_ & Hup).
  { reflexivity. }
  { vm_compute. lia. }
  { reflexivity. }
  split.
  - rewrite Hdown by discriminate. reflexivity.
  - destruct (Hup eq_refl) as (Hrun & _). rewrite Hrun. reflexivity.
Defined.

Lemma one_toast_witness :
  ∃ t, filter Studio.is_toast
         (Studio.handleCreateRoom "s1" host unit on_wire creating Socket.connected
            "2024-01-01T00:04:00.000Z" (dialog "Lounge") with_lounge).2
       = [Studio.ShowToast t] ∧
       Studio.description t ≠ "".
Proof.
  destruct (handleCreateRoom_shows_one_toast "s1" host unit on_wire creating
              Socket.connected "2024-01-01T00:04:00.000Z" (dialog "Lounge") with_lounge)
    as (t & Hone & Htext & _).
  exists t. split; [exact Hone | exact Htext].
Defined.

Lemma auto_assign_witness :
  Studio.handleAutoAssign "s1" nat (Backend.ApiAnswered true (Some []) None) "balanced" true
    (dialog "") mounted
  = (dialog "", [Studio.ShowToast Studio.no_rooms]) ∧
  Studio.ParticipantAssigned []
  ∈ (Studio.handleAutoAssign "s1" nat (Backend.ApiAnswered true (Some []) None) "balanced" true
       (dialog "") with_lounge).2.
Proof.
  destruct (handleAutoAssign_outcomes "s1" nat (Backend.ApiAnswered true (Some []) None)
              "balanced" true (dialog "") mounted) as (Hnone & _).
  destruct (handleAutoAssign_outcomes "s1" nat (Backend.ApiAnswered true (Some []) None)
              "balanced" true (dialog "") with_lounge) as (_ & Hsome).
  split; [by apply Hnone|].
  destruct Hsome as (_ & _ & Hcalled).
  { intros Hempty. apply (f_equal (λ m, m !! "r1")) in Hempty.
    vm_compute in Hempty. discriminate. }
  apply Hcalled. split; [reflexivity|]. by exists None.
Defined.

End MoreInstances.
